(** * Reflex: the frame codec, replay tracker, traffic morph, destination
      codec and inbound handshake state machine of [proxy/reflex].

    A shallow embedding of the Go sources
    - [proxy/reflex/codec.go]      (Session, ReadFrame, WriteFrame, NonceTracker)
    - [proxy/reflex/morph.go]      (TrafficProfile, MorphWrite, control frames)
    - [proxy/reflex/handshake.go]  (client handshake, timestamp, authentication)
    - [proxy/reflex/inbound/inbound.go]   (Process, parseDestination)
    - [proxy/reflex/outbound/outbound.go] (marshalDestination)

    Conventions.  Go's fixed-width integers are [Z] with the wrap-around
    written out ([uint16], [uint64], [int64]); a byte is [Byte.byte]; a byte
    slice is [list byte]; a [map[uint64]struct{}] is a [gset Z].  Mutation
    through a pointer receiver becomes explicit state passing: a method
    returns its result together with the new value of the receiver.  An
    [io.Reader] is the list of bytes that will still arrive on it; an
    [io.Writer] is an instance of the class [Writer]. *)

From Stdlib Require Import ZArith QArith Qround Lia Lqa List Strings.Byte.
From stdpp Require Import base gmap sets list strings.

Local Open Scope Z_scope.
#[local] Set Warnings "-clear-no-such-hyp".

(** ** Fixed-width integers *)

Definition uint8 (z : Z) : Z := z mod 2 ^ 8.
Definition uint16 (z : Z) : Z := z mod 2 ^ 16.
Definition uint64 (z : Z) : Z := z mod 2 ^ 64.
(** Two's-complement reading of the low 64 bits. *)
Definition int64 (z : Z) : Z := (z + 2 ^ 63) mod 2 ^ 64 - 2 ^ 63.

Definition MaxInt64 : Z := 2 ^ 63 - 1.
Definition MinInt64 : Z := - 2 ^ 63.

(** ** Bytes *)

Definition u8 (b : byte) : Z := Z.of_N (Byte.to_N b).

(** [byte(z)]: the conversion keeps the low eight bits. *)
Definition byte_of_Z (z : Z) : byte :=
  default x00 (Byte.of_N (Z.to_N (uint8 z))).

(** ** [encoding/binary.BigEndian] *)

(** [PutUintN]: the [n] low bytes of [v], most significant first. *)
Fixpoint be_bytes (n : nat) (v : Z) : list byte :=
  match n with
  | O => []
  | S k => byte_of_Z (Z.shiftr v (8 * Z.of_nat k)) :: be_bytes k v
  end.

(** [UintN] over the bytes it is given: [b[0]<<.. | ... | b[n-1]]. *)
Definition be_uint (b : list byte) : Z :=
  fold_left (fun acc x => Z.lor (Z.shiftl acc 8) (u8 x)) b 0.

Definition PutUint16 (v : Z) : list byte := be_bytes 2 v.
Definition PutUint32 (v : Z) : list byte := be_bytes 4 v.
Definition PutUint64 (v : Z) : list byte := be_bytes 8 v.

(** [UintN(b)] reads the first [N/8] bytes of [b].  Go panics on a shorter
    slice; every call below is made on a slice whose length the caller has
    established. *)
Definition Uint16 (b : list byte) : Z := be_uint (take 2 b).
Definition Uint32 (b : list byte) : Z := be_uint (take 4 b).
Definition Uint64 (b : list byte) : Z := be_uint (take 8 b).

(** [len(l)] as a Go [int], and the slice expression [l[lo:hi]]. *)
Definition len {A} (l : list A) : Z := Z.of_nat (length l).
Definition slice {A} (l : list A) (lo hi : Z) : list A :=
  take (Z.to_nat (hi - lo)) (drop (Z.to_nat lo) l).

#[global] Instance byte_eq_decision : EqDecision byte := Byte.byte_eq_dec.

(** ** Errors *)

Inductive error :=
  | ErrIO                      (* the error of the underlying reader or writer *)
  | ErrNew (msg : string).     (* errors.New(msg), with or without a base *)

(** ** codec.go: constants and frames *)

Definition FrameTypeData : byte := x01.
Definition FrameTypePadding : byte := x02.
Definition FrameTypeTiming : byte := x03.
Definition FrameTypeClose : byte := x04.

Definition FrameHeaderSize : Z := 3.
Definition MaxFramePayload : Z := 16384.

Record Frame := mkFrame {
  Length : Z;            (* uint16 *)
  Type_ : byte;          (* uint8 *)
  Payload : list byte
}.

(** ** codec.go: NonceTracker *)

Module NonceTracker.

Record t := mk {
  seen : gset Z;       (* map[uint64]struct{} *)
  max : Z              (* int *)
}.

Definition NewNonceTracker (maxEntries : Z) : t :=
  {| seen := ∅; max := maxEntries |}.

(** [Check] returns its verdict and the tracker after the call. *)
Definition Check (nt : t) (nonce : Z) : bool * t :=
  if decide (nonce ∈ seen nt) then (false, nt)
  else
    let kept :=
      if decide (max nt <= Z.of_nat (size (seen nt)))
      then ∅                                  (* simple reset *)
      else seen nt in
    (true, {| seen := {[ nonce ]} ∪ kept; max := max nt |}).

(** A sequence of calls, oldest first: the verdicts and the final tracker. *)
Fixpoint CheckAll (nt : t) (nonces : list Z) : list bool * t :=
  match nonces with
  | [] => ([], nt)
  | n :: rest =>
      let '(ok, nt1) := Check nt n in
      let '(oks, nt2) := CheckAll nt1 rest in
      (ok :: oks, nt2)
  end.

End NonceTracker.

Module NT := NonceTracker.

(** ** codec.go: Session *)

(** The [cipher.AEAD] bound to the session key.  [Seal] and [Open] are
    called with a nil destination and nil additional data. *)
Record AEAD := mkAEAD {
  Seal : list byte -> list byte -> list byte;          (* nonce, plaintext *)
  Open : list byte -> list byte -> option (list byte); (* nonce, ciphertext *)
  Overhead : Z
}.

Record Session := mkSession {
  key : list byte;
  aead : AEAD;
  readNonce : Z;     (* uint64 *)
  writeNonce : Z     (* uint64 *)
}.

Definition KeySize : Z := 32.
Definition NonceSize : Z := 12.

(** [chacha20poly1305_New] stands for [chacha20poly1305.New], which cannot
    fail on a key of [KeySize] bytes. *)
Definition NewSession (chacha20poly1305_New : list byte -> AEAD)
    (sessionKey : list byte) : error + Session :=
  if decide (len sessionKey <> KeySize)
  then inl (ErrNew "invalid session key length, expected 32 bytes")
  else inr {| key := sessionKey; aead := chacha20poly1305_New sessionKey;
              readNonce := 0; writeNonce := 0 |}.

Definition nextReadNonce (s : Session) : list byte * Session :=
  (replicate 4 x00 ++ PutUint64 (readNonce s),
   {| key := key s; aead := aead s;
      readNonce := uint64 (readNonce s + 1); writeNonce := writeNonce s |}).

Definition nextWriteNonce (s : Session) : list byte * Session :=
  (replicate 4 x00 ++ PutUint64 (writeNonce s),
   {| key := key s; aead := aead s;
      readNonce := readNonce s; writeNonce := uint64 (writeNonce s + 1) |}).

(** *** Readers and writers *)

(** An [io.Reader] is the bytes still to come; the stream ends after them. *)
Definition Reader := list byte.

(** [io.ReadFull(reader, buf)] with [len(buf) = n]: the [n] bytes, or an
    error once the stream has run dry (what was left is consumed). *)
Definition ReadFull (reader : Reader) (n : nat) : option (list byte) * Reader :=
  if decide (n <= length reader)%nat
  then (Some (take n reader), drop n reader)
  else (None, []).

(** An [io.Writer]: [Write] gives the error, if any, and the writer after
    the call. *)
Class Writer (W : Type) := Write : W -> list byte -> option error * W.

(** [bytes.Buffer]: every write succeeds and appends. *)
Record Buffer := mkBuffer { Bytes : list byte }.

#[global] Instance Buffer_Writer : Writer Buffer :=
  fun w p => (None, mkBuffer (Bytes w ++ p)).

(** A writer that accepts [room] more bytes and fails afterwards (a pipe
    whose peer goes away). *)
Record LimitedWriter := mkLimited { room : nat; accepted : list byte }.

#[global] Instance LimitedWriter_Writer : Writer LimitedWriter :=
  fun w p =>
    if decide (length p <= room w)%nat
    then (None, mkLimited (room w - length p) (accepted w ++ p))
    else (Some ErrIO, mkLimited 0 (accepted w ++ take (room w) p)).

(** *** ReadFrame and WriteFrame *)

Definition ReadFrame (s : Session) (reader : Reader)
    : (error + Frame) * Session * Reader :=
  match ReadFull reader (Z.to_nat FrameHeaderSize) with
  | (None, reader) => (inl ErrIO, s, reader)
  | (Some header, reader) =>
      let length := Uint16 (slice header 0 2) in
      let frameType := nth 2 header x00 in
      if decide (length = 0)
      then (inr {| Length := 0; Type_ := frameType; Payload := [] |}, s, reader)
      else
        match ReadFull reader (Z.to_nat length) with
        | (None, reader) =>
            (inl (ErrNew "failed to read frame payload"), s, reader)
        | (Some encryptedPayload, reader) =>
            let '(nonce, s) := nextReadNonce s in
            match Open (aead s) nonce encryptedPayload with
            | None => (inl (ErrNew "AEAD decryption failed"), s, reader)
            | Some payload =>
                (inr {| Length := length; Type_ := frameType;
                        Payload := payload |}, s, reader)
            end
        end
  end.

Definition WriteFrame `{Writer W} (s : Session) (writer : W)
    (frameType : byte) (data : list byte) : option error * Session * W :=
  let '(nonce, s) := nextWriteNonce s in
  let encrypted := Seal (aead s) nonce data in
  let header := PutUint16 (uint16 (len encrypted)) ++ [frameType] in
  match Write writer header with
  | (Some _, writer) => (Some (ErrNew "failed to write frame header"), s, writer)
  | (None, writer) =>
      match Write writer encrypted with
      | (Some _, writer) =>
          (Some (ErrNew "failed to write frame payload"), s, writer)
      | (None, writer) => (None, s, writer)
      end
  end.

Definition WriteCloseFrame `{Writer W} (s : Session) (writer : W) :=
  WriteFrame s writer FrameTypeClose [].

Definition WritePaddingFrame `{Writer W} (s : Session) (writer : W)
    (padding : list byte) :=
  WriteFrame s writer FrameTypePadding padding.

(** ** morph.go: randomness *)

(** The two sources of randomness the package draws from.  [math/rand]'s
    [Float64] returns a multiple of [2^-53] in [[0,1)]: the [k]-th draw is
    [(float_draws k mod 2^53) / 2^53].  [crypto/rand] supplies the bytes
    [crypto_bytes].  Each source has a cursor. *)
Record Rand := mkRand {
  float_draws : nat -> N;
  float_pos : nat;
  crypto_bytes : nat -> byte;
  crypto_pos : nat
}.

Definition Float64 (rnd : Rand) : Q * Rand :=
  (Z.of_N (float_draws rnd (float_pos rnd) mod 2 ^ 53) # 2 ^ 53,
   {| float_draws := float_draws rnd; float_pos := S (float_pos rnd);
      crypto_bytes := crypto_bytes rnd; crypto_pos := crypto_pos rnd |}).

(** [rand.Read(buf)] with [len(buf) = n]. *)
Definition rand_Read (rnd : Rand) (n : nat) : list byte * Rand :=
  (map (crypto_bytes rnd) (seq (crypto_pos rnd) n),
   {| float_draws := float_draws rnd; float_pos := float_pos rnd;
      crypto_bytes := crypto_bytes rnd; crypto_pos := (crypto_pos rnd + n)%nat |}).

(** ** morph.go: traffic profiles *)

Module PacketSizeDist.
Record t := mk { Size : Z; Weight : Q }.
End PacketSizeDist.

Module DelayDist.
Record t := mk { Delay : Z (* time.Duration, nanoseconds *); Weight : Q }.
End DelayDist.

Definition Millisecond : Z := 1000000.

Record TrafficProfile := mkProfile {
  Name : string;
  PacketSizes : list PacketSizeDist.t;
  Delays : list DelayDist.t;
  nextPacketSize : Z;     (* int *)
  nextDelay : Z           (* time.Duration *)
}.

(** The loop [for _, d := range dists { cumsum += d.Weight; if r <= cumsum
    {...} }]: the entry at which it returns, if it does. *)
Fixpoint pick {A} (weight : A -> Q) (dists : list A) (r cumsum : Q) : option A :=
  match dists with
  | [] => None
  | d :: rest =>
      let cumsum := (cumsum + weight d)%Q in
      if Qle_bool r cumsum then Some d else pick weight rest r cumsum
  end.

(** [math.Round]: to the nearest integer, halves away from zero; and the
    conversion of a float to an integer type, which drops the fraction.
    Float arithmetic is taken exact (over [Q]) and the results are taken to
    fit their integer type. *)
Definition Round (q : Q) : Z :=
  if Qle_bool 0 q then Qfloor (q + (1 # 2)) else (- Qfloor (- q + (1 # 2)))%Z.
Definition Trunc (q : Q) : Z :=
  if Qle_bool 0 q then Qfloor q else Qceiling q.

Definition sampleWeighted (dists : list PacketSizeDist.t) (rnd : Rand) : Z * Rand :=
  if decide (len dists = 0) then (1400, rnd)
  else
    let '(r, rnd) := Float64 rnd in
    match pick PacketSizeDist.Weight dists r 0 with
    | Some d =>
        let '(j, rnd) := Float64 rnd in
        let jitter := (1 + (j - (1 # 2)) * (1 # 10))%Q in
        (Round (inject_Z (PacketSizeDist.Size d) * jitter), rnd)
    | None =>
        (from_option PacketSizeDist.Size 0 (last dists), rnd)
    end.

Definition sampleDelayWeighted (dists : list DelayDist.t) (rnd : Rand) : Z * Rand :=
  if decide (len dists = 0) then (10 * Millisecond, rnd)
  else
    let '(r, rnd) := Float64 rnd in
    match pick DelayDist.Weight dists r 0 with
    | Some d =>
        let '(j, rnd) := Float64 rnd in
        let jitter := (1 + (j - (1 # 2)) * (4 # 10))%Q in
        (Trunc (inject_Z (DelayDist.Delay d) * jitter), rnd)
    | None =>
        (from_option DelayDist.Delay 0 (last dists), rnd)
    end.

Definition GetPacketSize (p : TrafficProfile) (rnd : Rand)
    : Z * TrafficProfile * Rand :=
  if decide (0 < nextPacketSize p) then
    let size := nextPacketSize p in
    (size,
     {| Name := Name p; PacketSizes := PacketSizes p; Delays := Delays p;
        nextPacketSize := 0; nextDelay := nextDelay p |},
     rnd)
  else
    let '(size, rnd) := sampleWeighted (PacketSizes p) rnd in (size, p, rnd).

Definition GetDelay (p : TrafficProfile) (rnd : Rand)
    : Z * TrafficProfile * Rand :=
  if decide (0 < nextDelay p) then
    let delay := nextDelay p in
    (delay,
     {| Name := Name p; PacketSizes := PacketSizes p; Delays := Delays p;
        nextPacketSize := nextPacketSize p; nextDelay := 0 |},
     rnd)
  else
    let '(delay, rnd) := sampleDelayWeighted (Delays p) rnd in (delay, p, rnd).

Definition SetNextPacketSize (p : TrafficProfile) (size : Z) : TrafficProfile :=
  {| Name := Name p; PacketSizes := PacketSizes p; Delays := Delays p;
     nextPacketSize := size; nextDelay := nextDelay p |}.

Definition SetNextDelay (p : TrafficProfile) (delay : Z) : TrafficProfile :=
  {| Name := Name p; PacketSizes := PacketSizes p; Delays := Delays p;
     nextPacketSize := nextPacketSize p; nextDelay := delay |}.

Definition AddPadding (data : list byte) (targetSize : Z) (rnd : Rand)
    : list byte * Rand :=
  if decide (targetSize <= len data) then (data, rnd)
  else
    let padLen := targetSize - len data in
    let '(padding, rnd) := rand_Read rnd (Z.to_nat padLen) in
    (data ++ padding, rnd).

(** *** Control frames *)

Definition EncodePaddingControl (targetSize : Z) : list byte :=
  PutUint16 (uint16 targetSize).

(** [Duration.Milliseconds]: integer division, which truncates. *)
Definition Milliseconds (d : Z) : Z := d ÷ Millisecond.

Definition EncodeTimingControl (delay : Z) : list byte :=
  PutUint64 (uint64 (Milliseconds delay)).

(** [profile] is the pointer argument: [None] is nil. *)
Definition HandleControlFrame (frame : Frame) (profile : option TrafficProfile)
    : option TrafficProfile :=
  match profile with
  | None => None
  | Some p =>
      if decide (Type_ frame = FrameTypePadding) then
        if decide (2 <= len (Payload frame)) then
          let targetSize := Uint16 (Payload frame) in
          Some (SetNextPacketSize p targetSize)
        else Some p
      else if decide (Type_ frame = FrameTypeTiming) then
        if decide (8 <= len (Payload frame)) then
          let delayMs := Uint64 (Payload frame) in
          Some (SetNextDelay p (int64 (int64 delayMs * Millisecond)))
        else Some p
      else Some p
  end.

Definition SendPaddingControl `{Writer W} (s : Session) (writer : W)
    (targetSize : Z) :=
  WriteFrame s writer FrameTypePadding (EncodePaddingControl targetSize).

Definition SendTimingControl `{Writer W} (s : Session) (writer : W)
    (delay : Z) :=
  WriteFrame s writer FrameTypeTiming (EncodeTimingControl delay).

(** *** Built-in profiles *)

Definition sizes (l : list (Z * Q)) : list PacketSizeDist.t :=
  map (fun x => PacketSizeDist.mk x.1 x.2) l.
Definition delays_ms (l : list (Z * Q)) : list DelayDist.t :=
  map (fun x => DelayDist.mk (x.1 * Millisecond) x.2) l.

Definition profile (name : string) (ps ds : list (Z * Q)) : TrafficProfile :=
  {| Name := name; PacketSizes := sizes ps; Delays := delays_ms ds;
     nextPacketSize := 0; nextDelay := 0 |}.

Definition youtube : TrafficProfile :=
  profile "YouTube DASH Streaming"
    [(1460, 32 # 100); (1400, 18 # 100); (1200, 14 # 100); (1000, 10 # 100);
     (800, 8 # 100); (500, 6 # 100); (300, 5 # 100); (150, 4 # 100);
     (64, 3 # 100)]
    [(1, 15 # 100); (3, 20 # 100); (8, 20 # 100); (15, 15 # 100);
     (33, 12 # 100); (80, 8 # 100); (150, 6 # 100); (500, 4 # 100)].

Definition zoom : TrafficProfile :=
  profile "Zoom Video Conference"
    [(160, 22 # 100); (250, 12 # 100); (400, 10 # 100); (550, 16 # 100);
     (700, 14 # 100); (900, 10 # 100); (1200, 9 # 100); (1460, 7 # 100)]
    [(5, 10 # 100); (10, 15 # 100); (20, 30 # 100); (33, 25 # 100);
     (50, 12 # 100); (100, 8 # 100)].

Definition netflix : TrafficProfile :=
  profile "Netflix DASH Streaming"
    [(1460, 38 # 100); (1380, 15 # 100); (1100, 12 # 100); (800, 10 # 100);
     (500, 8 # 100); (250, 7 # 100); (100, 6 # 100); (50, 4 # 100)]
    [(1, 25 # 100); (5, 20 # 100); (12, 15 # 100); (40, 15 # 100);
     (100, 10 # 100); (250, 8 # 100); (1000, 7 # 100)].

Definition http2_api : TrafficProfile :=
  profile "HTTP/2 REST API"
    [(128, 15 # 100); (256, 18 # 100); (512, 22 # 100); (1024, 18 # 100);
     (1460, 10 # 100); (64, 10 # 100); (32, 7 # 100)]
    [(2, 10 # 100); (10, 15 # 100); (50, 25 # 100); (100, 20 # 100);
     (200, 15 # 100); (500, 10 # 100); (1000, 5 # 100)].

Definition discord : TrafficProfile :=
  profile "Discord Voice/Video"
    [(120, 28 # 100); (200, 22 # 100); (320, 15 # 100); (500, 12 # 100);
     (800, 10 # 100); (1200, 8 # 100); (1460, 5 # 100)]
    [(5, 8 # 100); (20, 40 # 100); (33, 22 # 100); (40, 15 # 100);
     (60, 10 # 100); (100, 5 # 100)].

Definition BuiltinProfiles : gmap string TrafficProfile :=
  list_to_map
    [("youtube", youtube); ("zoom", zoom); ("netflix", netflix);
     ("http2-api", http2_api); ("discord", discord)]%string.

(** ** morph.go: TrafficMorph *)

(** [Profile] is a pointer in the source ([None] is nil); the profile it
    points to is threaded through the calls that mutate it. *)
Record TrafficMorph := mkMorph {
  Profile : option TrafficProfile;
  Enabled : bool
}.

Definition NewTrafficMorph (profileName : string) : option TrafficMorph :=
  if decide (profileName = ""%string) then None
  else
    match BuiltinProfiles !! profileName with
    | None => None
    | Some p => Some {| Profile := Some p; Enabled := true |}
    end.

(** How a run of [MorphWrite] ends: it returns (with or without an error),
    it panics on a slice expression out of range, or the model's fuel runs
    out before the loop does. *)
Inductive status :=
  | Returned (err : option error)
  | Panicked
  | OutOfFuel.

(** The plaintext size of one iteration, from the sampled target. *)
Definition chunkSizeFor (targetSize overhead : Z) : Z :=
  let chunkSize := int64 (targetSize - overhead - FrameHeaderSize) in
  let chunkSize := if decide (chunkSize <= 0) then targetSize else chunkSize in
  if decide (MaxFramePayload < chunkSize) then MaxFramePayload else chunkSize.

(** The loop [for len(data) > 0 { ... }] of [MorphWrite]; [fuel] bounds the
    number of times its condition is evaluated.  [time.Sleep] has no effect
    on the state modelled here. *)
Fixpoint morphLoop `{Writer W} (fuel : nat) (p : TrafficProfile)
    (sess : Session) (writer : W) (rnd : Rand) (data : list byte)
    : status * TrafficProfile * Session * W * Rand :=
  match fuel with
  | O => (OutOfFuel, p, sess, writer, rnd)
  | S fuel =>
      if decide (len data <= 0) then (Returned None, p, sess, writer, rnd)
      else
        let '(targetSize, p, rnd) := GetPacketSize p rnd in
        let overhead := Overhead (aead sess) in
        let chunkSize := chunkSizeFor targetSize overhead in
        let cut :=
          if decide (len data <= chunkSize) then
            let '(chunk, rnd) := AddPadding data chunkSize rnd in
            Some (chunk, [], rnd)
          else if decide (chunkSize < 0) then None      (* data[:chunkSize] *)
          else Some (slice data 0 chunkSize,
                     drop (Z.to_nat chunkSize) data, rnd) in
        match cut with
        | None => (Panicked, p, sess, writer, rnd)
        | Some (chunk, data, rnd) =>
            match WriteFrame sess writer FrameTypeData chunk with
            | (Some err, sess, writer) =>
                (Returned (Some err), p, sess, writer, rnd)
            | (None, sess, writer) =>
                let '(delay, p, rnd) := GetDelay p rnd in
                morphLoop fuel p sess writer rnd data
            end
        end
  end.

Definition MorphWrite `{Writer W} (fuel : nat) (m : TrafficMorph)
    (sess : Session) (writer : W) (rnd : Rand) (data : list byte)
    : status * TrafficMorph * Session * W * Rand :=
  match Enabled m, Profile m with
  | true, Some p =>
      let '(st, p, sess, writer, rnd) := morphLoop fuel p sess writer rnd data in
      (st, {| Profile := Some p; Enabled := Enabled m |}, sess, writer, rnd)
  | _, _ =>
      let '(err, sess, writer) := WriteFrame sess writer FrameTypeData data in
      (Returned err, m, sess, writer, rnd)
  end.

(** ** handshake.go *)

Definition ReflexMagic : Z := 0x5246584C.
Definition HandshakeHeaderSize : Z := 4 + 32 + 16 + 8 + 16.
Definition MaxTimestampDrift : Z := 120.

Record ClientHandshake := mkClientHandshake {
  PublicKey : list byte;     (* [32]byte *)
  UserID : list byte;        (* uuid.UUID, [16]byte *)
  Timestamp : Z;             (* int64 *)
  Nonce : list byte          (* [16]byte *)
}.

Record ClientEntry := mkClientEntry {
  ID : string;
  Policy : string
}.

(** [copy(dst[lo:hi], src)] into a zeroed destination. *)
Definition copy_into (n : nat) (src : list byte) : list byte :=
  take n (src ++ replicate n x00).

Definition MarshalClientHandshake (hs : ClientHandshake) : list byte :=
  PutUint32 ReflexMagic
  ++ copy_into 32 (PublicKey hs)
  ++ copy_into 16 (UserID hs)
  ++ PutUint64 (uint64 (Timestamp hs))
  ++ copy_into 16 (Nonce hs).

Definition UnmarshalClientHandshake (data : list byte) : error + ClientHandshake :=
  if decide (len data < HandshakeHeaderSize)
  then inl (ErrNew "handshake data too short")
  else
    let magic := Uint32 (slice data 0 4) in
    if decide (magic <> ReflexMagic) then inl (ErrNew "invalid magic number")
    else
      inr {| Timestamp := int64 (Uint64 (slice data 52 60));
             PublicKey := slice data 4 36;
             UserID := slice data 36 52;
             Nonce := slice data 60 76 |}.

(** [now] is [time.Now().Unix()]. *)
Definition ValidateTimestamp (now timestamp : Z) : bool :=
  let diff := int64 (now - timestamp) in
  let diff := if decide (diff < 0) then int64 (- diff) else diff in
  bool_decide (diff <= MaxTimestampDrift).

(** [ParseString] is [uuid.ParseString] of the host runtime;
    [subtle.ConstantTimeCompare] is 1 exactly on equal slices. *)
Fixpoint AuthenticateUser (ParseString : string -> option (list byte))
    (userID : list byte) (clients : list ClientEntry) : option ClientEntry :=
  match clients with
  | [] => None
  | client :: rest =>
      match ParseString (ID client) with
      | None => AuthenticateUser ParseString userID rest
      | Some parsedID =>
          if decide (userID = parsedID) then Some client
          else AuthenticateUser ParseString userID rest
      end
  end.

(** *** The server handshake *)

Module ServerHandshake.
Record t := mk {
  PublicKey : list byte;     (* [32]byte *)
  PolicyGrant : list byte    (* [32]byte *)
}.
End ServerHandshake.

Definition MarshalServerHandshake (hs : ServerHandshake.t) : list byte :=
  copy_into 32 (ServerHandshake.PublicKey hs)
  ++ copy_into 32 (ServerHandshake.PolicyGrant hs).

Definition UnmarshalServerHandshake (data : list byte)
    : error + ServerHandshake.t :=
  if decide (len data < 64) then inl (ErrNew "server handshake data too short")
  else
    inr {| ServerHandshake.PublicKey := slice data 0 32;
           ServerHandshake.PolicyGrant := slice data 32 64 |}.

(** *** Key agreement *)

#[global] Instance byte_inhabited : Inhabited byte := populate x00.

(** The three assignments [privateKey[0] &= 248], [privateKey[31] &= 127],
    [privateKey[31] |= 64] on the 32-byte array. *)
Definition clamp (privateKey : list byte) : list byte :=
  let privateKey :=
    <[0%nat := byte_of_Z (Z.land (u8 (privateKey !!! 0%nat)) 248)]> privateKey in
  let privateKey :=
    <[31%nat := byte_of_Z (Z.land (u8 (privateKey !!! 31%nat)) 127)]> privateKey in
  <[31%nat := byte_of_Z (Z.lor (u8 (privateKey !!! 31%nat)) 64)]> privateKey.

(** [X25519] stands for [curve25519.X25519], [Basepoint] for its base point;
    [crypto/rand] is taken not to fail. *)
Definition GenerateKeyPair
    (X25519 : list byte -> list byte -> option (list byte))
    (Basepoint : list byte) (rnd : Rand)
    : (error + (list byte * list byte)) * Rand :=
  let '(privateKey, rnd) := rand_Read rnd 32 in
  let privateKey := clamp privateKey in
  match X25519 privateKey Basepoint with
  | None => (inl (ErrNew "Curve25519 base multiply failed"), rnd)
  | Some pub => (inr (privateKey, copy_into 32 pub), rnd)
  end.

Definition DeriveSharedSecret
    (X25519 : list byte -> list byte -> option (list byte))
    (privateKey peerPublicKey : list byte) : error + list byte :=
  match X25519 privateKey peerPublicKey with
  | None => inl (ErrNew "Curve25519 key exchange failed")
  | Some result => inr (copy_into 32 result)
  end.

(** [hkdf secret salt info n] stands for reading [n] bytes from
    [hkdf.New(sha256.New, secret, salt, info)]. *)
Definition DeriveSessionKey
    (hkdf : list byte -> list byte -> list byte -> nat -> option (list byte))
    (sharedSecret : list byte) (nonce : list byte) : error + list byte :=
  let salt := copy_into 32 nonce in
  match hkdf sharedSecret salt
          (String.list_byte_of_string "reflex-session-key") 32%nat with
  | None => inl (ErrNew "HKDF key derivation failed")
  | Some sessionKey => inr sessionKey
  end.

(** A little-endian byte string read as a number, as X25519 reads its
    scalar. *)
Definition le_uint (b : list byte) : Z := be_uint (rev b).

(** ** The destination codec *)

(** Modelled from the spec: the address and destination types of the host
    runtime's [common/net], which is not part of these sources.  An address
    is an IPv4 address of 4 bytes, an IPv6 address of 16 bytes or a domain
    name; [IPAddress] builds the IP address of a 4- or 16-byte slice and
    gives nil ([None]) on any other length. *)
Inductive Address :=
  | ipv4Address (ip : list byte)
  | ipv6Address (ip : list byte)
  | domainAddress (domain : string).

Inductive Network := Network_Unknown | Network_TCP | Network_UDP | Network_UNIX.

Record Destination := mkDestination {
  Addr : Address;
  Port : Z;                  (* net.Port, uint16 *)
  Net : Network
}.

Definition IPAddress (ip : list byte) : option Address :=
  if decide (len ip = 4) then Some (ipv4Address ip)
  else if decide (len ip = 16) then Some (ipv6Address ip)
  else None.

Definition DomainAddress (domain : string) : Address := domainAddress domain.

Definition TCPDestination (address : Address) (port : Z) : Destination :=
  {| Addr := address; Port := port; Net := Network_TCP |}.

(** The values the types admit: fixed-size IP arrays and a 16-bit port. *)
Definition valid_Address (a : Address) : Prop :=
  match a with
  | ipv4Address ip => len ip = 4
  | ipv6Address ip => len ip = 16
  | domainAddress _ => True
  end.

Definition valid_Destination (d : Destination) : Prop :=
  valid_Address (Addr d) /\ 0 <= Port d < 2 ^ 16.

(** A domain name whose length fits the one length byte of the encoding. *)
Definition domain_fits (a : Address) : Prop :=
  match a with
  | domainAddress domain => Z.of_nat (String.length domain) <= 255
  | _ => True
  end.

(** outbound.go *)
Definition marshalDestination (dest : Destination) : list byte :=
  let data :=
    match Addr dest with
    | ipv4Address ip | ipv6Address ip =>
        if decide (len ip = 4) then [x01] ++ ip else [x03] ++ ip
    | domainAddress domain =>
        [x02] ++ [byte_of_Z (Z.of_nat (String.length domain))]
        ++ String.list_byte_of_string domain
    end in
  data ++ PutUint16 (uint16 (Port dest)).

(** inbound.go.  The branch on a nil [IPAddress] is not in the source, where
    the slice handed over always has 4 or 16 bytes. *)
Definition parseDestination (data : list byte)
    : error + (Destination * list byte) :=
  if decide (len data < 4) then inl (ErrNew "destination data too short")
  else
    let addrType := u8 (nth 0 data x00) in
    let idx := 1 in
    let parsed : error + (Address * Z) :=
      if decide (addrType = 1) then
        if decide (len data < idx + 4 + 2)
        then inl (ErrNew "insufficient data for IPv4")
        else
          match IPAddress (slice data idx (idx + 4)) with
          | Some addr => inr (addr, idx + 4)
          | None => inl (ErrNew "nil address")
          end
      else if decide (addrType = 2) then
        if decide (len data < idx + 1)
        then inl (ErrNew "insufficient data for domain length")
        else
          let domainLen := u8 (nth (Z.to_nat idx) data x00) in
          let idx := idx + 1 in
          if decide (len data < idx + domainLen + 2)
          then inl (ErrNew "insufficient data for domain")
          else
            inr (DomainAddress
                   (String.string_of_list_byte (slice data idx (idx + domainLen))),
                 idx + domainLen)
      else if decide (addrType = 3) then
        if decide (len data < idx + 16 + 2)
        then inl (ErrNew "insufficient data for IPv6")
        else
          match IPAddress (slice data idx (idx + 16)) with
          | Some addr => inr (addr, idx + 16)
          | None => inl (ErrNew "nil address")
          end
      else inl (ErrNew "unsupported address type") in
    match parsed with
    | inl err => inl err
    | inr (addr, idx) =>
        let port := Uint16 (slice data idx (idx + 2)) in
        let idx := idx + 2 in
        let remaining := drop (Z.to_nat idx) data in
        inr (TCPDestination addr port, remaining)
    end.

(** ** inbound.go: the handshake phase of [Process] *)

Record Handler := mkHandler {
  clientEntries : list ClientEntry;
  fallback : option Z;                   (* *reflex.Fallback: the port *)
  nonceTracker : NonceTracker.t
}.

(** Where the handshake phase leaves a connection: handed to
    [handleFallback] with the buffered reader (the bytes the fallback
    origin will be sent), closed with an error, or authenticated and moving
    on to the key agreement and the frame pumps with the rest of the
    stream. *)
Inductive Outcome :=
  | ToFallback (reader : Reader)
  | Fatal (err : error)
  | Authenticated (hs : ClientHandshake) (entry : ClientEntry) (reader : Reader).

(** [conn] is what the client sends before the handshake deadline; the
    buffered reader's [Peek(4)] fails on fewer than four bytes and consumes
    nothing.  The shared nonce tracker is returned with the outcome. *)
Definition Process (ParseString : string -> option (list byte)) (now : Z)
    (h : Handler) (conn : Reader) : Outcome * Handler :=
  let reader := conn in
  if decide (len reader < 4) then
    match fallback h with
    | Some _ => (ToFallback reader, h)
    | None => (Fatal (ErrNew "failed to peek initial bytes"), h)
    end
  else
    let peeked := take 4 reader in
    let magic := Uint32 (slice peeked 0 4) in
    if decide (magic <> ReflexMagic) then
      match fallback h with
      | Some _ => (ToFallback reader, h)
      | None =>
          (Fatal (ErrNew "not a Reflex handshake and no fallback configured"), h)
      end
    else
      match ReadFull reader (Z.to_nat HandshakeHeaderSize) with
      | (None, reader) => (Fatal (ErrNew "failed to read handshake data"), h)
      | (Some hsData, reader) =>
          match UnmarshalClientHandshake hsData with
          | inl _ =>
              match fallback h with
              | Some _ => (ToFallback reader, h)
              | None => (Fatal (ErrNew "invalid handshake"), h)
              end
          | inr clientHS =>
              if negb (ValidateTimestamp now (Timestamp clientHS)) then
                (Fatal (ErrNew "handshake timestamp out of range"), h)
              else
                let nonceVal := Uint64 (slice (Nonce clientHS) 0 8) in
                let '(fresh, tracker) :=
                  NonceTracker.Check (nonceTracker h) nonceVal in
                let h := {| clientEntries := clientEntries h;
                            fallback := fallback h;
                            nonceTracker := tracker |} in
                if negb fresh then
                  (Fatal (ErrNew "replay detected: duplicate nonce"), h)
                else
                  match AuthenticateUser ParseString (UserID clientHS)
                          (clientEntries h) with
                  | None =>
                      match fallback h with
                      | Some _ => (ToFallback reader, h)
                      | None =>
                          (Fatal (ErrNew "authentication failed: unknown UUID"), h)
                      end
                  | Some clientEntry =>
                      (Authenticated clientHS clientEntry reader, h)
                  end
          end
      end.

(** ** morph.go: the profiles as shared objects *)

(** [BuiltinProfiles] maps a name to a [*TrafficProfile], and
    [NewTrafficMorph] copies that pointer: every morph made for one name
    works on the one profile object of that name.  Here the objects live in
    a store indexed by the name they are registered under, and a pointer is
    such an index; [None] is nil.  The store starts as [BuiltinProfiles]. *)
Module Shared.

Record TrafficMorph := mkMorph {
  Profile : option string;   (* *TrafficProfile *)
  Enabled : bool
}.

Definition NewTrafficMorph (profileName : string) : option TrafficMorph :=
  if decide (profileName = ""%string) then None
  else
    match BuiltinProfiles !! profileName with
    | None => None
    | Some _ => Some {| Profile := Some profileName; Enabled := true |}
    end.

(** [HandleControlFrame(frame, profile)] through the pointer. *)
Definition HandleControlFrame (frame : Frame) (profile : option string)
    (st : gmap string TrafficProfile) : gmap string TrafficProfile :=
  match profile with
  | None => st
  | Some ptr =>
      match HandleControlFrame frame (st !! ptr) with
      | Some p => <[ptr := p]> st
      | None => st
      end
  end.

(** [profile.GetPacketSize()] through the pointer; [None] stands for a
    pointer to no object of the store, which no morph holds. *)
Definition GetPacketSize (ptr : string) (st : gmap string TrafficProfile)
    (rnd : Rand) : option (Z * gmap string TrafficProfile * Rand) :=
  match st !! ptr with
  | None => None
  | Some p =>
      let '(size, p, rnd) := GetPacketSize p rnd in
      Some (size, <[ptr := p]> st, rnd)
  end.

End Shared.

(** ** The handshake on both sides *)

(** inbound.go: [Process] from the authenticated handshake to the call of
    [handleSession]: the server's key pair, the shared secret, the session
    key and the reply written to the connection.  The reply carries the
    public key and a policy grant of zeros. *)
Definition Process_session `{Writer W}
    (X25519 : list byte -> list byte -> option (list byte))
    (Basepoint : list byte)
    (hkdf : list byte -> list byte -> list byte -> nat -> option (list byte))
    (clientHS : ClientHandshake) (rnd : Rand) (conn : W)
    : (error + list byte) * Rand * W :=
  match GenerateKeyPair X25519 Basepoint rnd with
  | (inl _, rnd) => (inl (ErrNew "failed to generate server keypair"), rnd, conn)
  | (inr (serverPrivKey, serverPubKey), rnd) =>
      match DeriveSharedSecret X25519 serverPrivKey (PublicKey clientHS) with
      | inl _ => (inl (ErrNew "key exchange failed"), rnd, conn)
      | inr sharedSecret =>
          match DeriveSessionKey hkdf sharedSecret (Nonce clientHS) with
          | inl _ => (inl (ErrNew "session key derivation failed"), rnd, conn)
          | inr sessionKey =>
              let serverHS :=
                {| ServerHandshake.PublicKey := serverPubKey;
                   ServerHandshake.PolicyGrant := replicate 32 x00 |} in
              match Write conn (MarshalServerHandshake serverHS) with
              | (Some _, conn) =>
                  (inl (ErrNew "failed to send server handshake"), rnd, conn)
              | (None, conn) => (inr sessionKey, rnd, conn)
              end
          end
      end
  end.

(** outbound.go: the handshake of [Process], from the client's key pair to
    its session.  The connection is what the client writes to and the bytes
    the server sends; [now] is [time.Now().Unix()]. *)
Module Outbound.

Definition Process `{Writer W}
    (X25519 : list byte -> list byte -> option (list byte))
    (Basepoint : list byte)
    (hkdf : list byte -> list byte -> list byte -> nat -> option (list byte))
    (chacha20poly1305_New : list byte -> AEAD)
    (ParseString : string -> option (list byte))
    (clientID : string) (now : Z) (rnd : Rand) (conn : W) (reader : Reader)
    : (error + Session) * Rand * W * Reader :=
  match GenerateKeyPair X25519 Basepoint rnd with
  | (inl _, rnd) =>
      (inl (ErrNew "failed to generate client keypair"), rnd, conn, reader)
  | (inr (clientPrivKey, clientPubKey), rnd) =>
      match ParseString clientID with
      | None => (inl (ErrNew "invalid client UUID"), rnd, conn, reader)
      | Some userUUID =>
          let '(nonce, rnd) := rand_Read rnd 16 in
          let clientHS :=
            {| PublicKey := clientPubKey; UserID := userUUID;
               Timestamp := now; Nonce := nonce |} in
          match Write conn (MarshalClientHandshake clientHS) with
          | (Some _, conn) =>
              (inl (ErrNew "failed to send client handshake"), rnd, conn, reader)
          | (None, conn) =>
              match ReadFull reader 64 with
              | (None, reader) =>
                  (inl (ErrNew "failed to read server handshake"),
                   rnd, conn, reader)
              | (Some serverHSData, reader) =>
                  match UnmarshalServerHandshake serverHSData with
                  | inl _ =>
                      (inl (ErrNew "invalid server handshake"), rnd, conn, reader)
                  | inr serverHS =>
                      match DeriveSharedSecret X25519 clientPrivKey
                              (ServerHandshake.PublicKey serverHS) with
                      | inl _ =>
                          (inl (ErrNew "key exchange failed"), rnd, conn, reader)
                      | inr sharedSecret =>
                          match DeriveSessionKey hkdf sharedSecret nonce with
                          | inl _ =>
                              (inl (ErrNew "session key derivation failed"),
                               rnd, conn, reader)
                          | inr sessionKey =>
                              match NewSession chacha20poly1305_New sessionKey with
                              | inl _ =>
                                  (inl (ErrNew "failed to create session"),
                                   rnd, conn, reader)
                              | inr sess => (inr sess, rnd, conn, reader)
                              end
                          end
                      end
                  end
              end
          end
      end
  end.

End Outbound.

(** What the handshake relies on from X25519: results of 32 bytes, and the
    same shared secret from either private key and the other side's public
    key. *)
Definition X25519_laws
    (X25519 : list byte -> list byte -> option (list byte))
    (Basepoint : list byte) : Prop :=
  (forall k P r, X25519 k P = Some r -> length r = 32%nat)
  /\ (forall a b A B,
        X25519 a Basepoint = Some A -> X25519 b Basepoint = Some B ->
        X25519 a B = X25519 b A).

(** ** inbound.go: [handleSession] and its request direction *)

(** [link.Writer], the way to the destination: [WriteMultiBuffer] is called
    with one buffer at a time. *)
Class BufWriter (L : Type) :=
  WriteMultiBuffer : L -> list byte -> option error * L.

(** A pipe that takes every buffer and keeps them in order. *)
Record Pipe := mkPipe { Buffers : list (list byte) }.

#[global] Instance Pipe_BufWriter : BufWriter Pipe :=
  fun l mb => (None, mkPipe (Buffers l ++ [mb])).

(** [handleSession] up to the point where the two directions start: the
    session, the morph of the client's policy, the first frame, the
    destination in it and the dispatch.  [Dispatch] stands for
    [dispatcher.Dispatch]. *)
Definition handleSession {L} (chacha20poly1305_New : list byte -> AEAD)
    (Dispatch : Destination -> error + L) (reader : Reader)
    (sessionKey : list byte) (client : ClientEntry)
    : error + (Destination * list byte * Session * Reader
               * option Shared.TrafficMorph * L) :=
  match NewSession chacha20poly1305_New sessionKey with
  | inl _ => inl (ErrNew "failed to create session")
  | inr sess =>
      let morph := Shared.NewTrafficMorph (Policy client) in
      match ReadFrame sess reader with
      | (inl _, _, _) => inl (ErrNew "failed to read first frame")
      | (inr firstFrame, sess, reader) =>
          if decide (Type_ firstFrame <> FrameTypeData
                     \/ len (Payload firstFrame) = 0)
          then inl (ErrNew "expected DATA frame with destination")
          else
            match parseDestination (Payload firstFrame) with
            | inl _ => inl (ErrNew "failed to parse destination")
            | inr (dest, payload) =>
                match Dispatch dest with
                | inl _ => inl (ErrNew "failed to dispatch")
                | inr link => inr (dest, payload, sess, reader, morph, link)
                end
            end
      end
  end.

(** The loop of [requestDone]: frames are read until a CLOSE frame, an
    unknown type or an error; [fuel] bounds the number of frames read.  The
    profile store is the one the response direction and the other sessions
    work on. *)
Fixpoint requestLoop `{BufWriter L} (fuel : nat) (sess : Session)
    (reader : Reader) (morph : option Shared.TrafficMorph)
    (st : gmap string TrafficProfile) (link : L)
    : status * Session * Reader * gmap string TrafficProfile * L :=
  match fuel with
  | O => (OutOfFuel, sess, reader, st, link)
  | S fuel =>
      match ReadFrame sess reader with
      | (inl err, sess, reader) => (Returned (Some err), sess, reader, st, link)
      | (inr frame, sess, reader) =>
          if decide (Type_ frame = FrameTypeData) then
            match WriteMultiBuffer link (Payload frame) with
            | (Some err, link) => (Returned (Some err), sess, reader, st, link)
            | (None, link) => requestLoop fuel sess reader morph st link
            end
          else if decide (Type_ frame = FrameTypePadding
                          \/ Type_ frame = FrameTypeTiming) then
            let st :=
              match morph with
              | Some m =>
                  match Shared.Profile m with
                  | Some ptr => Shared.HandleControlFrame frame (Some ptr) st
                  | None => st
                  end
              | None => st
              end in
            requestLoop fuel sess reader morph st link
          else if decide (Type_ frame = FrameTypeClose) then
            (Returned None, sess, reader, st, link)
          else
            (Returned (Some (ErrNew "unknown frame type")), sess, reader, st, link)
      end
  end.

Definition requestDone `{BufWriter L} (fuel : nat) (sess : Session)
    (reader : Reader) (morph : option Shared.TrafficMorph)
    (st : gmap string TrafficProfile) (link : L) (payload : list byte)
    : status * Session * Reader * gmap string TrafficProfile * L :=
  if decide (0 < len payload) then
    match WriteMultiBuffer link payload with
    | (Some _, link) =>
        (Returned (Some (ErrNew "failed to write first payload")),
         sess, reader, st, link)
    | (None, link) => requestLoop fuel sess reader morph st link
    end
  else requestLoop fuel sess reader morph st link.

(** outbound.go: the first frame of [postRequest], the destination followed
    by the first payload the client has at hand. *)
Definition firstFrame (destination : Destination)
    (firstPayloadBytes : list byte) : list byte :=
  marshalDestination destination ++ firstPayloadBytes.

(** ** What is on the wire *)

(** The bytes [WriteFrame] hands to its writer for one frame sealed under
    the write counter [counter]: header, then ciphertext. *)
Definition frameBytes (a : AEAD) (counter : Z) (frameType : byte)
    (plaintext : list byte) : list byte :=
  let encrypted := Seal a (replicate 4 x00 ++ PutUint64 counter) plaintext in
  (PutUint16 (uint16 (len encrypted)) ++ [frameType]) ++ encrypted.

(** The same for successive frames of one type, the counter moving on by
    one for each. *)
Fixpoint framesBytes (a : AEAD) (counter : Z) (frameType : byte)
    (plaintexts : list (list byte)) : list byte :=
  match plaintexts with
  | [] => []
  | plaintext :: rest =>
      frameBytes a counter frameType plaintext
      ++ framesBytes a (uint64 (counter + 1)) frameType rest
  end.

(** The same for frames of any types, given as type and plaintext. *)
Fixpoint sealedFrames (a : AEAD) (counter : Z)
    (frames : list (byte * list byte)) : list byte :=
  match frames with
  | [] => []
  | (frameType, plaintext) :: rest =>
      frameBytes a counter frameType plaintext
      ++ sealedFrames a (uint64 (counter + 1)) rest
  end.

(** The receiving loop of the package's tests: read frames while bytes
    remain, stop at the first error.  [fuel] bounds the number of frames. *)
Fixpoint ReadFrames (fuel : nat) (s : Session) (reader : Reader)
    : list Frame * Session * Reader :=
  match fuel with
  | O => ([], s, reader)
  | S fuel =>
      if decide (len reader <= 0) then ([], s, reader)
      else
        match ReadFrame s reader with
        | (inl _, s, reader) => ([], s, reader)
        | (inr frame, s, reader) =>
            let '(frames, s, reader) := ReadFrames fuel s reader in
            (frame :: frames, s, reader)
        end
  end.

(** What the codec relies on from ChaCha20-Poly1305: a 16-byte tag added to
    the plaintext, and opening under the sealing nonce gives the plaintext
    back. *)
Definition chacha20poly1305_laws (a : AEAD) : Prop :=
  Overhead a = 16
  /\ (forall nonce plaintext,
        len (Seal a nonce plaintext) = len plaintext + Overhead a)
  /\ (forall nonce plaintext,
        Open a nonce (Seal a nonce plaintext) = Some plaintext).

(** [chunks] cut [data] in order, with [pad] appended to the last chunk and
    nowhere else. *)
Definition cut_and_padded (data : list byte) (chunks : list (list byte))
    (pad : list byte) : Prop :=
  (data = [] /\ chunks = [] /\ pad = [])
  \/ (exists init final,
        chunks = init ++ [final ++ pad] /\ data = concat init ++ final).

(** ** Values used in the examples *)

(** An AEAD with the interface and the 16-byte overhead of
    ChaCha20-Poly1305 that leaves the plaintext in clear and appends the
    nonce, zero-padded, as its tag.  It stands in for the cipher where an
    example has to run. *)
Definition demoTag (nonce : list byte) : list byte :=
  take 16 (nonce ++ replicate 16 x00).

Definition demoAEAD : AEAD :=
  {| Seal := fun nonce plaintext => plaintext ++ demoTag nonce;
     Open := fun nonce ciphertext =>
       let n := (length ciphertext - 16)%nat in
       if decide (16 <= length ciphertext)%nat then
         if decide (drop n ciphertext = demoTag nonce)
         then Some (take n ciphertext) else None
       else None;
     Overhead := 16 |}.

Definition demoSession : Session :=
  {| key := replicate 32 x00; aead := demoAEAD; readNonce := 0; writeNonce := 0 |}.

(** The profile of the package's own tests. *)
Definition testProfile : TrafficProfile :=
  {| Name := "test";
     PacketSizes := [PacketSizeDist.mk 500 1];
     Delays := [DelayDist.mk (10 * Millisecond) 1];
     nextPacketSize := 0; nextDelay := 0 |}.

(** Random sources whose every draw is zero. *)
Definition zeroRand : Rand :=
  {| float_draws := fun _ => 0%N; float_pos := 0;
     crypto_bytes := fun _ => x00; crypto_pos := 0 |}.

(** A destination of the package's tests, and one whose domain name has
    256 bytes. *)
Definition exampleDestination : Destination :=
  TCPDestination (DomainAddress "test.example.org") 9999.

Definition longDomain : string :=
  String.string_of_list_byte (replicate 256 "a"%byte).

Definition longDestination : Destination :=
  TCPDestination (DomainAddress longDomain) 80.

(** A reader of the textual form of a UUID, 32 hexadecimal digits with
    dashes ignored, standing in for [uuid.ParseString] in the examples. *)
Definition hexDigit (b : byte) : option Z :=
  let v := u8 b in
  if decide (48 <= v <= 57) then Some (v - 48)
  else if decide (97 <= v <= 102) then Some (v - 87)
  else if decide (65 <= v <= 70) then Some (v - 55)
  else None.

Fixpoint hexPairs (l : list byte) : option (list byte) :=
  match l with
  | [] => Some []
  | a :: b :: rest =>
      match hexDigit a, hexDigit b, hexPairs rest with
      | Some x, Some y, Some bs => Some (byte_of_Z (16 * x + y) :: bs)
      | _, _, _ => None
      end
  | _ => None
  end.

Definition hexUUID (s : string) : option (list byte) :=
  match hexPairs (filter (fun b => b <> "-"%byte) (String.list_byte_of_string s)) with
  | Some bs => if decide (length bs = 16%nat) then Some bs else None
  | None => None
  end.

(** The handler, clock and client handshake of the end-to-end scenarios: one
    known client, a fallback on port 8080, an empty tracker of the capacity
    the inbound handler is built with. *)
Definition demoHandler : Handler :=
  {| clientEntries :=
       [mkClientEntry "b831381d-6324-4d53-ad4f-8cda48b30811" "youtube"];
     fallback := Some 8080;
     nonceTracker := NonceTracker.NewNonceTracker 10000 |}.

Definition demoNow : Z := 1767225600.

Definition demoHandshake (timestamp : Z) : ClientHandshake :=
  {| PublicKey := replicate 32 x09;
     UserID := default [] (hexUUID "b831381d-6324-4d53-ad4f-8cda48b30811");
     Timestamp := timestamp;
     Nonce := [x10; x11; x12; x13; x14; x15; x16; x17;
               x18; x19; x1a; x1b; x1c; x1d; x1e; x1f] |}.

(** The 76 bytes of that handshake with the timestamp of [demoNow], and the
    handler once it has processed them. *)
Definition demoHello : list byte :=
  MarshalClientHandshake (demoHandshake demoNow).

Definition demoHandlerAfter : Handler :=
  (Process hexUUID demoNow demoHandler demoHello).2.

(** The payload of the package's morph test, and two degenerate profiles:
    one whose only size is negative, one whose only size is zero. *)
Definition testPayload : list byte :=
  String.list_byte_of_string "morphed data payload for testing".

Definition negativeProfile : TrafficProfile :=
  {| Name := "negative";
     PacketSizes := [PacketSizeDist.mk (-5) 1];
     Delays := [DelayDist.mk 0 1];
     nextPacketSize := 0; nextDelay := 0 |}.

Definition zeroProfile : TrafficProfile :=
  {| Name := "zero";
     PacketSizes := [PacketSizeDist.mk 0 1];
     Delays := [DelayDist.mk 0 1];
     nextPacketSize := 0; nextDelay := 0 |}.

(** The frame [WriteFrame] makes of the two bytes "hi" on a fresh
    [demoSession]. *)
Definition demoFrame : list byte :=
  frameBytes demoAEAD 0 FrameTypeData [x68; x69].

(** Five hundred bytes, more than one chunk of [testProfile]. *)
Definition longPayload : list byte := replicate 500 x41.


(** A first-frame payload: [exampleDestination], then two bytes. *)
Definition exampleRequest : list byte :=
  firstFrame exampleDestination [x68; x69].

(** A stream that starts like a handshake and stops after eight bytes. *)
Definition truncatedHello : list byte := take 8 demoHello.

(** Stand-ins for X25519 and HKDF with the interface of the real ones,
    for the examples that have to run: bytewise addition of scalar and
    point, and the first bytes of secret and salt. *)
Definition demoX25519 (k P : list byte) : option (list byte) :=
  Some (zip_with (fun x y => byte_of_Z (u8 x + u8 y))
          (copy_into 32 k) (copy_into 32 P)).

Definition demoBasepoint : list byte := x09 :: replicate 31 x00.

Definition demoHkdf (secret salt info : list byte) (n : nat)
    : option (list byte) :=
  Some (take n (secret ++ salt ++ replicate n x00)).

(** Random sources for the client and the server of the examples. *)
Definition clientRand : Rand :=
  {| float_draws := fun _ => 0%N; float_pos := 0;
     crypto_bytes := fun i => byte_of_Z (Z.of_nat i + 16); crypto_pos := 0 |}.

Definition serverRand : Rand :=
  {| float_draws := fun _ => 0%N; float_pos := 0;
     crypto_bytes := fun i => byte_of_Z (3 * Z.of_nat i + 1); crypto_pos := 0 |}.

(** A client's stream under [demoAEAD]: the first frame with
    [exampleRequest], two DATA frames around a PADDING frame, a CLOSE frame
    and one byte more. *)
Definition exampleStream : list byte :=
  sealedFrames demoAEAD 0
    [(FrameTypeData, exampleRequest); (FrameTypeData, [x01]);
     (FrameTypePadding, EncodePaddingControl 500); (FrameTypeData, [x02]);
     (FrameTypeClose, [])]
  ++ [x2a].

(** The handshake of the examples: the client's key pair and handshake
    from [clientRand], and the server's run on it from [serverRand]. *)
Definition demoClientPriv : list byte := clamp (rand_Read clientRand 32).1.

Definition demoClientPub : list byte :=
  default [] (demoX25519 demoClientPriv demoBasepoint).

Definition demoClientRand1 : Rand := (rand_Read clientRand 32).2.

Definition demoClientHS : ClientHandshake :=
  {| PublicKey := demoClientPub;
     UserID := default [] (hexUUID "b831381d-6324-4d53-ad4f-8cda48b30811");
     Timestamp := demoNow;
     Nonce := (rand_Read demoClientRand1 16).1 |}.

Definition demoServerRun : (error + list byte) * Rand * Buffer :=
  Process_session demoX25519 demoBasepoint demoHkdf demoClientHS serverRand
    (mkBuffer []).

Definition demoSessionKey : list byte :=
  match demoServerRun.1.1 with
  | inr sessionKey => sessionKey
  | inl _ => []
  end.

Definition demoReply : list byte := Bytes demoServerRun.2.

(** A handshake from another key and another UUID, a minute later, whose
    nonce shares its first eight bytes with that of [demoHandshake]. *)
Definition otherHandshake : ClientHandshake :=
  {| PublicKey := replicate 32 x01;
     UserID := replicate 16 x02;
     Timestamp := demoNow + 60;
     Nonce := [x10; x11; x12; x13; x14; x15; x16; x17] ++ replicate 8 xff |}.

(** * Properties *)

(** ** Bytes and big-endian integers *)

Lemma u8_range (b : byte) : 0 <= u8 b < 256.
Proof.
  unfold u8. pose proof (Byte.to_N_bounded b). lia.
Qed.

Lemma u8_byte_of_Z (z : Z) : u8 (byte_of_Z z) = z mod 256.
Proof.
  unfold byte_of_Z, u8, uint8.
  assert (Hr : 0 <= z mod 2 ^ 8 < 256) by (apply Z.mod_pos_bound; lia).
  pose proof (Byte.to_of_N_option_map (Z.to_N (z mod 2 ^ 8))) as Hm.
  destruct (Byte.of_N (Z.to_N (z mod 2 ^ 8))) as [b|] eqn:Hb; simpl in *.
  - destruct (N.leb_spec (Z.to_N (z mod 2 ^ 8)) 255) as [_|Hgt]; [|lia].
    injection Hm as ->. rewrite Z2N.id by lia. reflexivity.
  - destruct (N.leb_spec (Z.to_N (z mod 2 ^ 8)) 255) as [Hle|Hgt]; [discriminate|lia].
Qed.

Lemma byte_of_Z_u8 (b : byte) : byte_of_Z (u8 b) = b.
Proof.
  unfold byte_of_Z, u8, uint8.
  pose proof (Byte.to_N_bounded b).
  rewrite Z.mod_small by lia.
  rewrite N2Z.id, Byte.of_to_N. reflexivity.
Qed.

Lemma u8_inj (a b : byte) : u8 a = u8 b -> a = b.
Proof.
  intros H. rewrite <- (byte_of_Z_u8 a), <- (byte_of_Z_u8 b). congruence.
Qed.

(** Below bit 8 the shifted accumulator is empty, so the bitwise or is an
    addition. *)
Lemma lor_shiftl_8 (acc x : Z) :
  0 <= x < 256 -> Z.lor (Z.shiftl acc 8) x = acc * 256 + x.
Proof.
  intros Hx.
  rewrite Z.shiftl_mul_pow2 by lia.
  change (2 ^ 8) with 256.
  rewrite <- Z.lxor_lor, <- Z.add_nocarry_lxor; try reflexivity.
  all: apply Z.bits_inj'; intros n Hn; rewrite Z.land_spec, Z.bits_0.
  all: destruct (Z.lt_ge_cases n 8) as [Hlt|Hge].
  all: try (replace (acc * 256) with (acc * 2 ^ 8) by reflexivity;
            rewrite Z.mul_pow2_bits_low by lia; reflexivity).
  all: replace (Z.testbit x n) with false; [apply andb_false_r|].
  all: symmetry; apply Z.bits_above_log2; [lia|].
  all: destruct (Z.eq_dec x 0) as [->|Hnz]; [simpl; lia|].
  all: apply Z.log2_lt_pow2; [lia|].
  all: apply Z.lt_le_trans with (2 ^ 8); [simpl; lia|].
  all: apply Z.pow_le_mono_r; lia.
Qed.

Lemma be_fold_acc (b : list byte) (acc : Z) :
  fold_left (fun acc x => Z.lor (Z.shiftl acc 8) (u8 x)) b acc
  = acc * 256 ^ len b + be_uint b.
Proof.
  unfold be_uint, len. revert acc.
  induction b as [|x b IH]; intros acc.
  - simpl. lia.
  - cbn [fold_left length]. rewrite IH, (IH (Z.lor _ _)).
    rewrite !lor_shiftl_8 by apply u8_range.
    rewrite Nat2Z.inj_succ, Z.pow_succ_r by lia. lia.
Qed.

Lemma be_uint_app (a b : list byte) :
  be_uint (a ++ b) = be_uint a * 256 ^ len b + be_uint b.
Proof.
  unfold be_uint at 1. rewrite fold_left_app, be_fold_acc. reflexivity.
Qed.

Lemma be_uint_cons (x : byte) (b : list byte) :
  be_uint (x :: b) = u8 x * 256 ^ len b + be_uint b.
Proof.
  change (x :: b) with ([x] ++ b). rewrite be_uint_app.
  unfold be_uint at 1. simpl. rewrite lor_shiftl_8 by apply u8_range. lia.
Qed.

Lemma length_be_bytes (n : nat) (v : Z) : length (be_bytes n v) = n.
Proof. induction n; simpl; congruence. Qed.

Lemma be_uint_be_bytes (n : nat) (v : Z) :
  be_uint (be_bytes n v) = v mod 256 ^ Z.of_nat n.
Proof.
  induction n as [|n IH].
  - simpl. rewrite Z.mod_1_r. reflexivity.
  - cbn [be_bytes]. rewrite be_uint_cons, IH, u8_byte_of_Z.
    unfold len. rewrite length_be_bytes.
    rewrite Z.shiftr_div_pow2 by lia.
    replace (2 ^ (8 * Z.of_nat n)) with (256 ^ Z.of_nat n)
      by (rewrite Z.pow_mul_r by lia; reflexivity).
    rewrite Nat2Z.inj_succ, Z.pow_succ_r by lia.
    set (m := 256 ^ Z.of_nat n).
    assert (Hm : 0 < m) by (apply Z.pow_pos_nonneg; lia).
    rewrite (Z.mul_comm 256 m), Z.rem_mul_r by lia. lia.
Qed.

Lemma be_uint_range (b : list byte) : 0 <= be_uint b < 256 ^ len b.
Proof.
  induction b as [|x b IH] using rev_ind.
  - unfold be_uint, len. simpl. lia.
  - rewrite be_uint_app. unfold len in *. rewrite length_app. simpl.
    rewrite Nat2Z.inj_add, Z.pow_add_r by lia.
    change (be_uint [x]) with (Z.lor (Z.shiftl 0 8) (u8 x)).
    rewrite lor_shiftl_8 by apply u8_range.
    pose proof (u8_range x). simpl Z.of_nat. nia.
Qed.

Lemma Uint16_PutUint16 (v : Z) (rest : list byte) :
  Uint16 (PutUint16 v ++ rest) = uint16 v.
Proof.
  unfold Uint16, PutUint16, uint16.
  rewrite take_app_length' by (symmetry; apply length_be_bytes).
  apply be_uint_be_bytes.
Qed.

Lemma Uint64_PutUint64 (v : Z) (rest : list byte) :
  Uint64 (PutUint64 v ++ rest) = uint64 v.
Proof.
  unfold Uint64, PutUint64, uint64.
  rewrite take_app_length' by (symmetry; apply length_be_bytes).
  apply be_uint_be_bytes.
Qed.

Lemma Uint32_PutUint32 (v : Z) (rest : list byte) :
  Uint32 (PutUint32 v ++ rest) = v mod 2 ^ 32.
Proof.
  unfold Uint32, PutUint32.
  rewrite take_app_length' by (symmetry; apply length_be_bytes).
  apply be_uint_be_bytes.
Qed.

(** ** The replay tracker *)

Lemma Check_seen (nt : NT.t) (n : Z) :
  n ∈ NT.seen nt -> NT.Check nt n = (false, nt).
Proof.
  intros Hin. unfold NT.Check. rewrite decide_True by done. reflexivity.
Qed.

Lemma Check_fresh (nt : NT.t) (n : Z) :
  n ∉ NT.seen nt ->
  NT.Check nt n =
    (true,
     NT.mk ({[ n ]} ∪ (if decide (NT.max nt <= Z.of_nat (size (NT.seen nt)))
                        then ∅ else NT.seen nt))
           (NT.max nt)).
Proof.
  intros Hout. unfold NT.Check. rewrite decide_False by done. reflexivity.
Qed.

Lemma Check_max (nt : NT.t) (n : Z) : NT.max (NT.Check nt n).2 = NT.max nt.
Proof.
  unfold NT.Check. destruct (decide (n ∈ NT.seen nt)); reflexivity.
Qed.

(** After any call the nonce is in the set. *)
Lemma Check_records (nt : NT.t) (n : Z) : n ∈ NT.seen (NT.Check nt n).2.
Proof.
  unfold NT.Check. destruct (decide (n ∈ NT.seen nt)); simpl; set_solver.
Qed.

(** On a full set the insertion starts from the empty one. *)
Lemma Check_overflow (nt : NT.t) (n : Z) :
  n ∉ NT.seen nt -> NT.max nt <= Z.of_nat (size (NT.seen nt)) ->
  NT.Check nt n = (true, NT.mk {[ n ]} (NT.max nt)).
Proof.
  intros Hout Hfull. rewrite Check_fresh by done.
  rewrite decide_True by done. by rewrite union_empty_r_L.
Qed.

Lemma CheckAll_max (nt : NT.t) (l : list Z) :
  NT.max (NT.CheckAll nt l).2 = NT.max nt.
Proof.
  revert nt. induction l as [|n l IH]; intros nt; [reflexivity|].
  cbn [NT.CheckAll].
  destruct (NT.Check nt n) as [ok nt1] eqn:E1.
  destruct (NT.CheckAll nt1 l) as [oks nt2] eqn:E2. simpl.
  specialize (IH nt1). rewrite E2 in IH. simpl in IH.
  rewrite IH. change nt1 with (ok, nt1).2. rewrite <- E1. apply Check_max.
Qed.

(** Distinct new nonces are all accepted; the set never holds anything
    besides them and what it held before. *)
Lemma CheckAll_distinct (nt : NT.t) (l : list Z) :
  NoDup l -> (forall m, m ∈ l -> m ∉ NT.seen nt) ->
  (NT.CheckAll nt l).1 = replicate (length l) true
  /\ NT.seen (NT.CheckAll nt l).2 ⊆ NT.seen nt ∪ list_to_set l.
Proof.
  revert nt. induction l as [|n l IH]; intros nt Hnd Hout.
  - simpl. split; [reflexivity|set_solver].
  - apply NoDup_cons in Hnd as [Hn Hnd].
    cbn [NT.CheckAll]. rewrite Check_fresh by (apply Hout; set_solver).
    set (nt1 := NT.mk _ _).
    destruct (IH nt1 Hnd) as [IH1 IH2].
    { intros m Hm. subst nt1. simpl.
      assert (m <> n) by (intros ->; done).
      assert (m ∉ NT.seen nt) by (apply Hout; set_solver).
      case_decide; set_solver. }
    destruct (NT.CheckAll nt1 l) as [oks nt2]. simpl in *.
    split; [by rewrite IH1|].
    subst nt1. simpl in IH2. revert IH2. case_decide; set_solver.
Qed.

(** While there is room nothing is dropped. *)
Lemma CheckAll_room (nt : NT.t) (l : list Z) :
  NoDup l -> (forall m, m ∈ l -> m ∉ NT.seen nt) ->
  Z.of_nat (size (NT.seen nt)) + Z.of_nat (length l) <= NT.max nt ->
  NT.CheckAll nt l =
    (replicate (length l) true, NT.mk (list_to_set l ∪ NT.seen nt) (NT.max nt)).
Proof.
  revert nt. induction l as [|n l IH]; intros nt Hnd Hout Hroom.
  - simpl. rewrite union_empty_l_L. by destruct nt.
  - apply NoDup_cons in Hnd as [Hn Hnd].
    assert (Hnout : n ∉ NT.seen nt) by (apply Hout; set_solver).
    cbn [NT.CheckAll]. rewrite Check_fresh by done.
    cbn [length] in Hroom.
    rewrite decide_False by lia.
    rewrite IH; simpl.
    + f_equal. f_equal. set_solver.
    + done.
    + intros m Hm. assert (m <> n) by (intros ->; done).
      assert (m ∉ NT.seen nt) by (apply Hout; set_solver). set_solver.
    + rewrite size_union by set_solver. rewrite size_singleton. lia.
Qed.

(** C2. On any tracker, whatever its capacity, a nonce not yet in the set
    is accepted and its immediate re-check is refused.  On a tracker of
    capacity [C], once [C] distinct nonces have been accepted, the check of
    one more new nonce [k] leaves the set holding [k] alone, and every one of
    the first [C] nonces is accepted again afterwards, one at a time or all
    in a row. *)
Theorem NonceTracker_check_replay_reset
    (nt : NT.t) (n : Z) (C : Z) (l : list Z) (k : Z) :
  n ∉ NT.seen nt ->
  NoDup l -> Z.of_nat (length l) = C -> k ∉ l ->
  ((NT.Check nt n).1 = true /\ (NT.Check (NT.Check nt n).2 n).1 = false)
  /\ (NT.CheckAll (NT.NewNonceTracker C) l).1 = replicate (length l) true
  /\ NT.Check (NT.CheckAll (NT.NewNonceTracker C) l).2 k
     = (true, NT.mk {[ k ]} C)
  /\ (forall m, m ∈ l -> (NT.Check (NT.mk {[ k ]} C) m).1 = true)
  /\ (NT.CheckAll (NT.mk {[ k ]} C) l).1 = replicate (length l) true.
Proof.
  intros Hout Hnd Hlen Hk. split.
  - split.
    + by rewrite Check_fresh.
    + rewrite Check_seen; [reflexivity|apply Check_records].
  - assert (Hroom : NT.CheckAll (NT.NewNonceTracker C) l
                    = (replicate (length l) true, NT.mk (list_to_set l) C)).
    { unfold NT.NewNonceTracker.
      rewrite CheckAll_room; cbn [NT.seen NT.max].
      - by rewrite union_empty_r_L.
      - done.
      - set_solver.
      - rewrite size_empty. lia. }
    rewrite Hroom. simpl. split; [reflexivity|]. split; [|split].
    + apply Check_overflow; simpl.
      * by rewrite elem_of_list_to_set.
      * rewrite size_list_to_set by done. lia.
    + intros m Hm. rewrite Check_fresh; [reflexivity|].
      simpl. assert (m <> k) by (intros ->; done). set_solver.
    + apply CheckAll_distinct; [done|].
      intros m Hm. simpl. assert (m <> k) by (intros ->; done). set_solver.
Qed.

Lemma NonceTracker_check_replay_reset_witness :
  ((NT.Check (NT.NewNonceTracker 100) 42).1 = true
   /\ (NT.Check (NT.Check (NT.NewNonceTracker 100) 42).2 42).1 = false)
  /\ (NT.CheckAll (NT.NewNonceTracker 3) [1; 2; 3]).1 = [true; true; true]
  /\ NT.Check (NT.CheckAll (NT.NewNonceTracker 3) [1; 2; 3]).2 4
     = (true, NT.mk {[ 4 ]} 3)
  /\ (forall m, m ∈ [1; 2; 3] -> (NT.Check (NT.mk {[ 4 ]} 3) m).1 = true)
  /\ (NT.CheckAll (NT.mk {[ 4 ]} 3) [1; 2; 3]).1 = [true; true; true].
Proof.
  apply (NonceTracker_check_replay_reset
           (NT.NewNonceTracker 100) 42 3 [1; 2; 3] 4).
  - apply not_elem_of_empty.
  - apply (bool_decide_unpack _). vm_compute. exact I.
  - reflexivity.
  - apply (bool_decide_unpack _). vm_compute. exact I.
Defined.

(** One call keeps the set within the capacity, or within one entry when
    the capacity is below one. *)
Lemma Check_size_bound (nt : NT.t) (n : Z) :
  Z.of_nat (size (NT.seen nt)) <= Z.max (NT.max nt) 1 ->
  Z.of_nat (size (NT.seen (NT.Check nt n).2)) <= Z.max (NT.max nt) 1.
Proof.
  intros Hb. unfold NT.Check.
  destruct (decide (n ∈ NT.seen nt)) as [Hin|Hout]; [exact Hb|].
  cbn [snd NT.seen].
  destruct (decide (NT.max nt <= Z.of_nat (size (NT.seen nt)))) as [Hfull|Hroom].
  - rewrite union_empty_r_L, size_singleton. lia.
  - rewrite size_union by set_solver. rewrite size_singleton. lia.
Qed.

Lemma CheckAll_size_bound (nt : NT.t) (l : list Z) :
  Z.of_nat (size (NT.seen nt)) <= Z.max (NT.max nt) 1 ->
  Z.of_nat (size (NT.seen (NT.CheckAll nt l).2)) <= Z.max (NT.max nt) 1.
Proof.
  revert nt. induction l as [|n l IH]; intros nt Hb; [exact Hb|].
  cbn [NT.CheckAll].
  pose proof (Check_size_bound nt n Hb) as H1.
  pose proof (Check_max nt n) as Hm.
  destruct (NT.Check nt n) as [ok nt1]. cbn [snd] in H1, Hm.
  specialize (IH nt1). rewrite Hm in IH. specialize (IH H1).
  destruct (NT.CheckAll nt1 l) as [oks nt2]. exact IH.
Qed.

(** C9, as the code has it.  A tracker created with a capacity of at least
    one never holds more entries than its capacity, whatever the sequence of
    checks; and a check of a new nonce on a set that has reached the
    capacity leaves that nonce as the only entry. *)
Theorem NonceTracker_bounded
    (C : Z) (nonces : list Z) (nt : NT.t) (n : Z) :
  1 <= C ->
  n ∉ NT.seen nt -> NT.max nt <= Z.of_nat (size (NT.seen nt)) ->
  Z.of_nat (size (NT.seen (NT.CheckAll (NT.NewNonceTracker C) nonces).2)) <= C
  /\ NT.seen (NT.Check nt n).2 = {[ n ]}.
Proof.
  intros HC Hout Hfull. split.
  - pose proof (CheckAll_size_bound (NT.NewNonceTracker C) nonces) as Hb.
    cbn [NT.NewNonceTracker NT.seen NT.max] in Hb.
    rewrite size_empty in Hb. lia.
  - by rewrite Check_overflow.
Qed.

Lemma NonceTracker_bounded_witness :
  Z.of_nat (size (NT.seen (NT.CheckAll (NT.NewNonceTracker 3)
                             [1; 2; 3; 4; 1; 2]).2)) <= 3
  /\ NT.seen (NT.Check (NT.mk {[ 1; 2; 3 ]} 3) 4).2 = {[ 4 ]}.
Proof.
  apply (NonceTracker_bounded 3 [1; 2; 3; 4; 1; 2] (NT.mk {[ 1; 2; 3 ]} 3) 4).
  - lia.
  - apply (bool_decide_unpack _). vm_compute. exact I.
  - vm_compute. discriminate.
Defined.

(** C9, as stated, fails on a tracker of capacity zero: its first check
    leaves one entry in the set. *)
Lemma NonceTracker_capacity_zero_exceeds :
  ~ (Z.of_nat (size (NT.seen (NT.CheckAll (NT.NewNonceTracker 0) [7]).2)) <= 0).
Proof. vm_compute. intros H. apply H. reflexivity. Qed.

(** ** Reading frames *)

Lemma ReadFull_app (n : nat) (b rest : list byte) :
  length b = n -> ReadFull (b ++ rest) n = (Some b, rest).
Proof.
  intros <-. unfold ReadFull.
  rewrite decide_True by (rewrite length_app; lia).
  by rewrite take_app_length, drop_app_length.
Qed.

(** A frame whose length field is not zero: the ciphertext is opened under
    the nonce made of the read counter, and the counter moves on by one. *)
Lemma ReadFrame_ciphertext (s : Session) (h0 h1 ty : byte)
    (ct rest : list byte) :
  Uint16 [h0; h1] = len ct -> len ct <> 0 ->
  ReadFrame s (h0 :: h1 :: ty :: ct ++ rest) =
    match Open (aead s) (replicate 4 x00 ++ PutUint64 (readNonce s)) ct with
    | None => (inl (ErrNew "AEAD decryption failed"), (nextReadNonce s).2, rest)
    | Some payload =>
        (inr {| Length := len ct; Type_ := ty; Payload := payload |},
         (nextReadNonce s).2, rest)
    end.
Proof.
  intros Hlen Hnz. unfold ReadFrame.
  change (h0 :: h1 :: ty :: ct ++ rest) with ([h0; h1; ty] ++ ct ++ rest).
  rewrite (ReadFull_app _ [h0; h1; ty]) by reflexivity.
  change (slice [h0; h1; ty] 0 2) with [h0; h1].
  cbn [nth]. rewrite Hlen. rewrite decide_False by done.
  rewrite ReadFull_app by (unfold len; lia).
  unfold nextReadNonce. cbn [aead fst snd].
  destruct (Open _ _ ct); reflexivity.
Qed.

(** C1. A header whose length field is zero gives the frame of the header's
    type with an empty payload; the three header bytes are all that is
    consumed and the session, its read counter included, is as before.  A
    frame with a ciphertext read next is therefore opened under the nonce of
    the same counter value. *)
Theorem ReadFrame_zero_length (s : Session) (h0 h1 ty : byte)
    (rest : list byte) :
  Uint16 [h0; h1] = 0 ->
  ReadFrame s (h0 :: h1 :: ty :: rest)
    = (inr {| Length := 0; Type_ := ty; Payload := [] |}, s, rest)
  /\ readNonce (ReadFrame s (h0 :: h1 :: ty :: rest)).1.2 = readNonce s
  /\ (forall g0 g1 ty' ct rest',
        rest = g0 :: g1 :: ty' :: ct ++ rest' ->
        Uint16 [g0; g1] = len ct -> len ct <> 0 ->
        (ReadFrame (ReadFrame s (h0 :: h1 :: ty :: rest)).1.2 rest).1.1 =
          match Open (aead s) (replicate 4 x00 ++ PutUint64 (readNonce s)) ct with
          | None => inl (ErrNew "AEAD decryption failed")
          | Some payload =>
              inr {| Length := len ct; Type_ := ty'; Payload := payload |}
          end).
Proof.
  intros Hzero.
  assert (Hread : ReadFrame s (h0 :: h1 :: ty :: rest)
                  = (inr {| Length := 0; Type_ := ty; Payload := [] |}, s, rest)).
  { unfold ReadFrame.
    change (h0 :: h1 :: ty :: rest) with ([h0; h1; ty] ++ rest).
    rewrite (ReadFull_app _ [h0; h1; ty]) by reflexivity.
    change (slice [h0; h1; ty] 0 2) with [h0; h1].
    rewrite Hzero. reflexivity. }
  rewrite Hread. cbn [fst snd]. split; [reflexivity|]. split; [reflexivity|].
  intros g0 g1 ty' ct rest' -> Hlen Hnz.
  rewrite ReadFrame_ciphertext by done.
  destruct (Open _ _ ct); reflexivity.
Qed.

Lemma ReadFrame_zero_length_witness :
  ReadFrame demoSession (x00 :: x00 :: x04 :: demoFrame)
    = (inr {| Length := 0; Type_ := x04; Payload := [] |}, demoSession, demoFrame)
  /\ readNonce (ReadFrame demoSession (x00 :: x00 :: x04 :: demoFrame)).1.2
     = readNonce demoSession
  /\ (forall g0 g1 ty' ct rest',
        demoFrame = g0 :: g1 :: ty' :: ct ++ rest' ->
        Uint16 [g0; g1] = len ct -> len ct <> 0 ->
        (ReadFrame (ReadFrame demoSession (x00 :: x00 :: x04 :: demoFrame)).1.2
           demoFrame).1.1 =
          match Open (aead demoSession)
                  (replicate 4 x00 ++ PutUint64 (readNonce demoSession)) ct with
          | None => inl (ErrNew "AEAD decryption failed")
          | Some payload =>
              inr {| Length := len ct; Type_ := ty'; Payload := payload |}
          end).
Proof.
  apply (ReadFrame_zero_length demoSession x00 x00 x04 demoFrame).
  reflexivity.
Defined.

(** An empty CLOSE frame followed by a sealed DATA frame: the second read
    opens under counter 0 and only then does the counter move. *)
Example ReadFrame_empty_then_sealed :
  let first := ReadFrame demoSession (x00 :: x00 :: x04 :: demoFrame) in
  let second := ReadFrame first.1.2 first.2 in
  readNonce first.1.2 = 0
  /\ second.1.1 = inr {| Length := 18; Type_ := FrameTypeData;
                         Payload := [x68; x69] |}
  /\ readNonce second.1.2 = 1
  /\ second.2 = [].
Proof. vm_compute. repeat split; reflexivity. Qed.

(** ** Control frames *)

Lemma length_EncodePaddingControl (targetSize : Z) :
  length (EncodePaddingControl targetSize) = 2%nat.
Proof. reflexivity. Qed.

Lemma length_EncodeTimingControl (delay : Z) :
  length (EncodeTimingControl delay) = 8%nat.
Proof. reflexivity. Qed.

Lemma Uint16_EncodePaddingControl (targetSize : Z) :
  Uint16 (EncodePaddingControl targetSize) = targetSize mod 65536.
Proof.
  unfold EncodePaddingControl.
  rewrite <- (app_nil_r (PutUint16 _)), Uint16_PutUint16.
  unfold uint16. change (2 ^ 16) with 65536. apply Z.mod_mod. lia.
Qed.

Lemma Uint64_EncodeTimingControl (delay : Z) :
  Uint64 (EncodeTimingControl delay) = uint64 (Milliseconds delay).
Proof.
  unfold EncodeTimingControl.
  rewrite <- (app_nil_r (PutUint64 _)), Uint64_PutUint64.
  unfold uint64. apply Z.mod_mod. lia.
Qed.

(** What a well-sized PADDING payload does to the profile. *)
Lemma HandleControlFrame_padding (L : Z) (payload : list byte)
    (p : TrafficProfile) :
  2 <= len payload ->
  HandleControlFrame (mkFrame L FrameTypePadding payload) (Some p)
    = Some (SetNextPacketSize p (Uint16 payload)).
Proof.
  intros Hlen. unfold HandleControlFrame. cbn [Type_ Payload].
  rewrite decide_True by reflexivity. by rewrite decide_True.
Qed.

Lemma HandleControlFrame_timing (L : Z) (payload : list byte)
    (p : TrafficProfile) :
  8 <= len payload ->
  HandleControlFrame (mkFrame L FrameTypeTiming payload) (Some p)
    = Some (SetNextDelay p (int64 (int64 (Uint64 payload) * Millisecond))).
Proof.
  intros Hlen. unfold HandleControlFrame. cbn [Type_ Payload].
  rewrite decide_False by discriminate.
  rewrite decide_True by reflexivity. by rewrite decide_True.
Qed.

(** C10. The payload of a padding control is the big-endian encoding of the
    target reduced modulo 65536, for every integer target.  Sending it is
    sending that wrapped value: [SendPaddingControl] returns what
    [WriteFrame] returns on it, and the peer that handles the frame arms its
    profile with the wrapped value. *)
Theorem EncodePaddingControl_wraps (targetSize : Z) :
  EncodePaddingControl targetSize = PutUint16 (targetSize mod 65536)
  /\ length (EncodePaddingControl targetSize) = 2%nat
  /\ Uint16 (EncodePaddingControl targetSize) = targetSize mod 65536
  /\ (forall (s : Session) (w : Buffer),
        SendPaddingControl s w targetSize
        = WriteFrame s w FrameTypePadding (PutUint16 (targetSize mod 65536))
        /\ (SendPaddingControl s w targetSize).1.1 = None)
  /\ (forall (L : Z) (p : TrafficProfile),
        HandleControlFrame
          (mkFrame L FrameTypePadding (EncodePaddingControl targetSize)) (Some p)
        = Some (SetNextPacketSize p (targetSize mod 65536))).
Proof.
  split; [reflexivity|]. split; [reflexivity|].
  split; [apply Uint16_EncodePaddingControl|]. split.
  - intros s w. split; reflexivity.
  - intros L p. rewrite HandleControlFrame_padding by (unfold len; simpl; lia).
    by rewrite Uint16_EncodePaddingControl.
Qed.

(** Two targets that agree modulo 65536 are the same instruction. *)
Example EncodePaddingControl_70000 :
  EncodePaddingControl 70000 = EncodePaddingControl 4464
  /\ EncodePaddingControl (-1) = EncodePaddingControl 65535.
Proof. split; reflexivity. Qed.

Lemma GetPacketSize_override (p : TrafficProfile) (rnd : Rand) :
  0 < nextPacketSize p ->
  GetPacketSize p rnd = (nextPacketSize p, SetNextPacketSize p 0, rnd).
Proof. intros H. unfold GetPacketSize. by rewrite decide_True. Qed.

Lemma GetPacketSize_sample (p : TrafficProfile) (rnd : Rand) :
  nextPacketSize p <= 0 ->
  GetPacketSize p rnd
  = ((sampleWeighted (PacketSizes p) rnd).1, p, (sampleWeighted (PacketSizes p) rnd).2).
Proof.
  intros H. unfold GetPacketSize. rewrite decide_False by lia.
  by destruct (sampleWeighted _ _).
Qed.

Lemma GetDelay_override (p : TrafficProfile) (rnd : Rand) :
  0 < nextDelay p ->
  GetDelay p rnd = (nextDelay p, SetNextDelay p 0, rnd).
Proof. intros H. unfold GetDelay. by rewrite decide_True. Qed.

Lemma GetDelay_sample (p : TrafficProfile) (rnd : Rand) :
  nextDelay p <= 0 ->
  GetDelay p rnd
  = ((sampleDelayWeighted (Delays p) rnd).1, p, (sampleDelayWeighted (Delays p) rnd).2).
Proof.
  intros H. unfold GetDelay. rewrite decide_False by lia.
  by destruct (sampleDelayWeighted _ _).
Qed.

(** C7, as the code has it.  For a target [S] from 1 to 65535, handling the
    PADDING frame that carries [EncodePaddingControl S] makes the next
    [GetPacketSize] return [S] without touching the random source; the
    override is then gone, and every later call samples the profile's
    distribution and leaves the profile as it is. *)
Theorem padding_control_overrides_once
    (p : TrafficProfile) (L S : Z) (rnd rnd' : Rand) :
  1 <= S <= 65535 ->
  HandleControlFrame (mkFrame L FrameTypePadding (EncodePaddingControl S)) (Some p)
    = Some (SetNextPacketSize p S)
  /\ GetPacketSize (SetNextPacketSize p S) rnd
     = (S, SetNextPacketSize p 0, rnd)
  /\ GetPacketSize (SetNextPacketSize p 0) rnd'
     = ((sampleWeighted (PacketSizes p) rnd').1, SetNextPacketSize p 0,
        (sampleWeighted (PacketSizes p) rnd').2).
Proof.
  intros HS. split; [|split].
  - rewrite HandleControlFrame_padding by (unfold len; simpl; lia).
    rewrite Uint16_EncodePaddingControl, Z.mod_small by lia. reflexivity.
  - rewrite GetPacketSize_override by (simpl; lia). reflexivity.
  - rewrite GetPacketSize_sample by (simpl; lia). reflexivity.
Qed.

Lemma padding_control_overrides_once_witness :
  HandleControlFrame (mkFrame 18 FrameTypePadding (EncodePaddingControl 2048))
    (Some testProfile)
    = Some (SetNextPacketSize testProfile 2048)
  /\ GetPacketSize (SetNextPacketSize testProfile 2048) zeroRand
     = (2048, SetNextPacketSize testProfile 0, zeroRand)
  /\ GetPacketSize (SetNextPacketSize testProfile 0) zeroRand
     = ((sampleWeighted (PacketSizes testProfile) zeroRand).1,
        SetNextPacketSize testProfile 0,
        (sampleWeighted (PacketSizes testProfile) zeroRand).2).
Proof.
  apply (padding_control_overrides_once testProfile 18 2048 zeroRand zeroRand).
  lia.
Defined.

(** C7, as stated, fails at [S = 0], which a u16 represents: zero is the
    value of an unarmed override, so the next [GetPacketSize] samples the
    distribution and returns 475 here, not 0. *)
Lemma padding_control_zero_is_no_override :
  exists p,
    HandleControlFrame (mkFrame 18 FrameTypePadding (EncodePaddingControl 0))
      (Some testProfile) = Some p
    /\ (GetPacketSize p zeroRand).1.1 = 475
    /\ (GetPacketSize p zeroRand).1.1 <> 0.
Proof.
  eexists. split; [reflexivity|]. split; [vm_compute; reflexivity|].
  vm_compute. discriminate.
Qed.

Lemma int64_small (z : Z) : MinInt64 <= z <= MaxInt64 -> int64 z = z.
Proof.
  unfold int64, MinInt64, MaxInt64. intros H.
  rewrite Z.mod_small by lia. lia.
Qed.

Lemma Milliseconds_nonneg (d : Z) :
  0 <= d -> Milliseconds d = d / Millisecond
            /\ 0 <= Milliseconds d * Millisecond <= d.
Proof.
  intros Hd. unfold Milliseconds, Millisecond.
  rewrite Z.quot_div_nonneg by lia.
  pose proof (Z.mul_div_le d 1000000). pose proof (Z.div_pos d 1000000). lia.
Qed.

(** C8, as the code has it.  The payload carries whole milliseconds.  For a
    delay [D] of at least one millisecond, handling the TIMING frame that
    carries [EncodeTimingControl D] makes the next [GetDelay] return [D]
    rounded down to whole milliseconds, which is [D] itself exactly when [D]
    is a whole number of milliseconds. *)
Theorem timing_control_overrides_in_milliseconds
    (p : TrafficProfile) (L D : Z) (rnd : Rand) :
  Millisecond <= D <= MaxInt64 ->
  HandleControlFrame (mkFrame L FrameTypeTiming (EncodeTimingControl D)) (Some p)
    = Some (SetNextDelay p (D / Millisecond * Millisecond))
  /\ GetDelay (SetNextDelay p (D / Millisecond * Millisecond)) rnd
     = (D / Millisecond * Millisecond, SetNextDelay p 0, rnd)
  /\ (D / Millisecond * Millisecond = D <-> D mod Millisecond = 0).
Proof.
  intros HD.
  assert (HM : Millisecond = 1000000) by reflexivity.
  assert (H63 : MaxInt64 = 9223372036854775807) by reflexivity.
  destruct (Milliseconds_nonneg D) as [Hq Hb]; [lia|].
  assert (Hms : 1 <= D / Millisecond).
  { rewrite HM. apply Z.div_le_lower_bound; lia. }
  split; [|split].
  - rewrite HandleControlFrame_timing by (unfold len; simpl; lia).
    rewrite Uint64_EncodeTimingControl, Hq.
    rewrite Hq in Hb.
    unfold uint64. rewrite Z.mod_small by (change (2 ^ 64) with 18446744073709551616; lia).
    rewrite (int64_small (D / Millisecond)) by (unfold MinInt64; lia).
    rewrite int64_small by (unfold MinInt64; lia).
    reflexivity.
  - rewrite GetDelay_override by (simpl; lia). reflexivity.
  - rewrite HM. pose proof (Z.div_mod D 1000000). lia.
Qed.

Lemma timing_control_overrides_in_milliseconds_witness :
  HandleControlFrame
    (mkFrame 24 FrameTypeTiming (EncodeTimingControl (100 * Millisecond)))
    (Some testProfile)
    = Some (SetNextDelay testProfile
              (100 * Millisecond / Millisecond * Millisecond))
  /\ GetDelay (SetNextDelay testProfile
                 (100 * Millisecond / Millisecond * Millisecond)) zeroRand
     = (100 * Millisecond / Millisecond * Millisecond,
        SetNextDelay testProfile 0, zeroRand)
  /\ (100 * Millisecond / Millisecond * Millisecond = 100 * Millisecond
      <-> (100 * Millisecond) mod Millisecond = 0).
Proof.
  apply (timing_control_overrides_in_milliseconds
           testProfile 24 (100 * Millisecond) zeroRand).
  vm_compute. split; discriminate.
Defined.

(** C8, as stated, fails for a delay that is not a whole number of
    milliseconds: 1.5 ms comes back as 1 ms. *)
Lemma timing_control_drops_submillisecond :
  exists p,
    HandleControlFrame (mkFrame 24 FrameTypeTiming (EncodeTimingControl 1500000))
      (Some testProfile) = Some p
    /\ (GetDelay p zeroRand).1.1 = 1000000
    /\ (GetDelay p zeroRand).1.1 <> 1500000.
Proof.
  eexists. split; [reflexivity|]. split; [vm_compute; reflexivity|].
  vm_compute. discriminate.
Qed.

(** Nor is a delay below one millisecond, zero or negative carried over:
    the override stays unarmed and the next [GetDelay] samples (8 ms here,
    the 10 ms entry at the lowest jitter). *)
Example timing_control_below_one_millisecond :
  forall D, In D [0; 999999; -5000000] ->
  exists p,
    HandleControlFrame (mkFrame 24 FrameTypeTiming (EncodeTimingControl D))
      (Some testProfile) = Some p
    /\ (GetDelay p zeroRand).1.1 = 8000000.
Proof.
  intros D [<-|[<-|[<-|[]]]]; eexists; (split; [reflexivity|vm_compute; reflexivity]).
Qed.

(** ** The destination codec *)

Lemma len_app {A} (a b : list A) : len (a ++ b) = len a + len b.
Proof. unfold len. rewrite length_app. lia. Qed.

Lemma len_cons {A} (x : A) (l : list A) : len (x :: l) = 1 + len l.
Proof. unfold len. cbn [length]. lia. Qed.

Lemma len_nonneg {A} (l : list A) : 0 <= len l.
Proof. unfold len. lia. Qed.

Lemma len_be_bytes (n : nat) (v : Z) : len (be_bytes n v) = Z.of_nat n.
Proof. unfold len. by rewrite length_be_bytes. Qed.

Lemma len_PutUint16 (v : Z) : len (PutUint16 v) = 2.
Proof. reflexivity. Qed.

(** The slice that starts after [pre] and spans [mid]. *)
Lemma slice_middle {A} (pre mid post : list A) (lo hi : Z) :
  lo = len pre -> hi = lo + len mid ->
  slice (pre ++ mid ++ post) lo hi = mid.
Proof.
  intros -> ->. unfold slice, len.
  rewrite Nat2Z.id, drop_app_length.
  replace (Z.to_nat _) with (length mid) by lia.
  apply take_app_length.
Qed.

Lemma drop_past {A} (pre post : list A) (n : Z) :
  n = len pre -> drop (Z.to_nat n) (pre ++ post) = post.
Proof.
  intros ->. unfold len. rewrite Nat2Z.id. apply drop_app_length.
Qed.

Lemma length_list_byte_of_string (s : string) :
  length (String.list_byte_of_string s) = String.length s.
Proof.
  unfold String.list_byte_of_string. rewrite length_map.
  induction s as [|c s IH]; simpl; congruence.
Qed.

Lemma parse_tail (pre : list byte) (port : Z) (t : list byte) (addr : Address) :
  0 <= port < 2 ^ 16 ->
  Uint16 (slice (pre ++ PutUint16 (uint16 port) ++ t) (len pre) (len pre + 2)) = port
  /\ drop (Z.to_nat (len pre + 2)) (pre ++ PutUint16 (uint16 port) ++ t) = t.
Proof.
  intros Hport. split.
  - rewrite slice_middle by (rewrite ?len_PutUint16; reflexivity).
    rewrite <- (app_nil_r (PutUint16 _)), Uint16_PutUint16.
    unfold uint16. rewrite Z.mod_mod by lia. apply Z.mod_small. lia.
  - rewrite app_assoc. apply drop_past.
    rewrite len_app, len_PutUint16. lia.
Qed.

Lemma parseDestination_ip (tag : byte) (ip : list byte) (port : Z)
    (t : list byte) (a : Address) :
  (u8 tag = 1 /\ len ip = 4 \/ u8 tag = 3 /\ len ip = 16) ->
  IPAddress ip = Some a ->
  0 <= port < 2 ^ 16 ->
  parseDestination (([tag] ++ ip) ++ PutUint16 (uint16 port) ++ t)
    = inr (TCPDestination a port, t).
Proof.
  intros Hcase Hip Hport.
  destruct (parse_tail ([tag] ++ ip) port t a Hport) as [Hp Hd].
  assert (Hlen : len (([tag] ++ ip) ++ PutUint16 (uint16 port) ++ t)
                 = 1 + len ip + 2 + len t).
  { rewrite !len_app, len_PutUint16. unfold len at 1. simpl. lia. }
  assert (Hpre : len ([tag] ++ ip) = 1 + len ip).
  { rewrite len_app. reflexivity. }
  rewrite Hpre in Hp, Hd.
  assert (Hslice : forall n, n = 1 + len ip ->
            slice (([tag] ++ ip) ++ PutUint16 (uint16 port) ++ t) 1 n = ip).
  { intros n ->. rewrite <- app_assoc. apply slice_middle; reflexivity. }
  pose proof (len_nonneg t) as Ht.
  unfold parseDestination. rewrite Hlen.
  rewrite decide_False by lia.
  change (u8 (nth 0 (([tag] ++ ip) ++ _) x00)) with (u8 tag).
  destruct Hcase as [[Htag Hl]|[Htag Hl]]; rewrite Htag, Hl in *.
  - rewrite decide_True by reflexivity.
    rewrite decide_False by lia.
    rewrite Hslice by reflexivity. rewrite Hip.
    rewrite Hp, Hd. reflexivity.
  - rewrite decide_False by lia. rewrite decide_False by lia.
    rewrite decide_True by reflexivity.
    rewrite decide_False by lia.
    rewrite Hslice by reflexivity. rewrite Hip.
    rewrite Hp, Hd. reflexivity.
Qed.

Lemma parseDestination_domain (domain : string) (port : Z) (t : list byte) :
  Z.of_nat (String.length domain) <= 255 ->
  0 <= port < 2 ^ 16 ->
  parseDestination
    (([x02] ++ [byte_of_Z (Z.of_nat (String.length domain))]
      ++ String.list_byte_of_string domain)
     ++ PutUint16 (uint16 port) ++ t)
    = inr (TCPDestination (domainAddress domain) port, t).
Proof.
  intros Hdl Hport.
  set (dl := Z.of_nat (String.length domain)) in *.
  set (body := String.list_byte_of_string domain).
  assert (Hbody : len body = dl).
  { unfold len, body, dl. by rewrite length_list_byte_of_string. }
  set (pre := [x02] ++ [byte_of_Z dl] ++ body).
  assert (Hpre : len pre = 2 + dl).
  { unfold pre. rewrite !len_app, Hbody. unfold len. simpl. lia. }
  destruct (parse_tail pre port t (domainAddress domain) Hport) as [Hp Hd].
  assert (Hlen : len (pre ++ PutUint16 (uint16 port) ++ t) = 2 + dl + 2 + len t).
  { rewrite !len_app, len_PutUint16, Hpre. lia. }
  assert (Hdl0 : 0 <= dl) by (unfold dl; lia).
  pose proof (len_nonneg t) as Ht.
  assert (Hu : u8 (byte_of_Z dl) = dl).
  { rewrite u8_byte_of_Z. apply Z.mod_small. lia. }
  unfold parseDestination. rewrite Hlen.
  rewrite decide_False by lia.
  change (u8 (nth 0 (pre ++ _) x00)) with 2.
  rewrite decide_False by lia. rewrite decide_True by reflexivity.
  rewrite decide_False by lia.
  change (nth (Z.to_nat 1) (pre ++ _) x00) with (byte_of_Z dl).
  rewrite Hu. rewrite decide_False by lia.
  replace (slice (pre ++ PutUint16 (uint16 port) ++ t) (1 + 1) (1 + 1 + dl))
    with body.
  2:{ unfold pre. symmetry.
      change ([x02] ++ [byte_of_Z dl] ++ body) with ([x02; byte_of_Z dl] ++ body).
      rewrite <- app_assoc. apply slice_middle; [reflexivity|].
      rewrite Hbody. reflexivity. }
  unfold body at 1. rewrite String.string_of_list_byte_of_string.
  rewrite Hpre in Hp, Hd.
  replace (1 + 1 + dl) with (2 + dl) by lia.
  rewrite Hp, Hd. reflexivity.
Qed.

(** C4, as the code has it.  For every destination whose address is an IPv4
    address, an IPv6 address or a domain name of at most 255 bytes, and every
    trailing byte sequence [t], decoding [marshalDestination dest ++ t]
    succeeds and gives back the address, the port and [t]. *)
Theorem marshalDestination_parseDestination (dest : Destination)
    (t : list byte) :
  valid_Destination dest -> domain_fits (Addr dest) ->
  parseDestination (marshalDestination dest ++ t)
    = inr (TCPDestination (Addr dest) (Port dest), t).
Proof.
  intros [Haddr Hport] Hfits. unfold marshalDestination.
  rewrite <- app_assoc.
  destruct (Addr dest) as [ip|ip|domain]; simpl in Haddr, Hfits.
  - rewrite decide_True by done.
    apply parseDestination_ip; [left; done| |done].
    unfold IPAddress. by rewrite decide_True.
  - rewrite decide_False by lia.
    apply parseDestination_ip; [right; done| |done].
    unfold IPAddress. rewrite decide_False by lia. by rewrite decide_True.
  - by apply parseDestination_domain.
Qed.

Lemma marshalDestination_parseDestination_witness :
  parseDestination (marshalDestination exampleDestination ++ [x47; x45; x54])
    = inr (TCPDestination (Addr exampleDestination) (Port exampleDestination),
           [x47; x45; x54]).
Proof.
  apply (marshalDestination_parseDestination exampleDestination [x47; x45; x54]).
  - split; [exact I|]. vm_compute. split; [discriminate|reflexivity].
  - vm_compute. discriminate.
Defined.

(** The round trip on the IP forms of the package's tests. *)
Example marshalDestination_parseDestination_ip :
  parseDestination
    (marshalDestination (TCPDestination (ipv4Address [x0a; x00; x00; x01]) 1234)
     ++ [x68; x69])
  = inr (TCPDestination (ipv4Address [x0a; x00; x00; x01]) 1234, [x68; x69])
  /\ parseDestination
       (marshalDestination
          (TCPDestination (ipv6Address ([xfe; x80] ++ replicate 13 x00 ++ [x01])) 5678))
     = inr (TCPDestination (ipv6Address ([xfe; x80] ++ replicate 13 x00 ++ [x01])) 5678,
            []).
Proof. split; vm_compute; reflexivity. Qed.

(** C4, as stated, fails on a domain name of 256 bytes: the length byte
    wraps to zero, so the decoder succeeds with the empty domain, the port
    0x6161 made of the first two name bytes, and the rest of the name and
    the real port as leftover. *)
Lemma parseDestination_long_domain :
  valid_Destination longDestination
  /\ parseDestination (marshalDestination longDestination ++ [])
     = inr (TCPDestination (domainAddress "") 24929,
            replicate 254 "a"%byte ++ [x00; x50])
  /\ parseDestination (marshalDestination longDestination ++ [])
     <> inr (TCPDestination (Addr longDestination) (Port longDestination), []).
Proof.
  split; [split; [exact I|vm_compute; split; [discriminate|reflexivity]]|].
  assert (H : parseDestination (marshalDestination longDestination ++ [])
              = inr (TCPDestination (domainAddress "") 24929,
                     replicate 254 "a"%byte ++ [x00; x50])).
  { vm_compute. reflexivity. }
  split; [exact H|]. rewrite H. discriminate.
Qed.

(** ** The inbound handshake *)

Lemma slice_0_take {A} (l : list A) (n : Z) :
  slice l 0 n = take (Z.to_nat n) l.
Proof. unfold slice. rewrite Z.sub_0_r. reflexivity. Qed.

Lemma UnmarshalClientHandshake_magic (data : list byte) (hs : ClientHandshake) :
  UnmarshalClientHandshake data = inr hs ->
  HandshakeHeaderSize <= len data /\ Uint32 (slice data 0 4) = ReflexMagic.
Proof.
  unfold UnmarshalClientHandshake. intros H.
  destruct (decide (len data < HandshakeHeaderSize)); [discriminate|].
  destruct (decide (Uint32 (slice data 0 4) <> ReflexMagic)) as [|Heq];
    [discriminate|].
  split; [lia|]. by apply dec_stable.
Qed.

(** Once the magic has matched on the four peeked bytes and 76 bytes have
    been read, the handshake parses: the fallback on a parse error in
    [Process] is never taken. *)
Lemma UnmarshalClientHandshake_total (data : list byte) :
  len data = HandshakeHeaderSize -> Uint32 (slice data 0 4) = ReflexMagic ->
  exists hs, UnmarshalClientHandshake data = inr hs.
Proof.
  intros Hlen Hmagic. unfold UnmarshalClientHandshake.
  rewrite decide_False by lia. rewrite decide_False by (intros H; by apply H).
  eauto.
Qed.

(** [Process] from the point where the handshake has been read and parsed. *)
Lemma Process_handshake (ParseString : string -> option (list byte)) (now : Z)
    (h : Handler) (hsData rest : list byte) (clientHS : ClientHandshake) :
  len hsData = HandshakeHeaderSize ->
  UnmarshalClientHandshake hsData = inr clientHS ->
  Process ParseString now h (hsData ++ rest) =
    if negb (ValidateTimestamp now (Timestamp clientHS)) then
      (Fatal (ErrNew "handshake timestamp out of range"), h)
    else
      let checked :=
        NT.Check (nonceTracker h) (Uint64 (slice (Nonce clientHS) 0 8)) in
      let h' := {| clientEntries := clientEntries h; fallback := fallback h;
                   nonceTracker := checked.2 |} in
      if negb checked.1 then
        (Fatal (ErrNew "replay detected: duplicate nonce"), h')
      else
        match AuthenticateUser ParseString (UserID clientHS) (clientEntries h) with
        | None =>
            match fallback h with
            | Some _ => (ToFallback rest, h')
            | None => (Fatal (ErrNew "authentication failed: unknown UUID"), h')
            end
        | Some clientEntry => (Authenticated clientHS clientEntry rest, h')
        end.
Proof.
  intros Hlen Hparse.
  destruct (UnmarshalClientHandshake_magic _ _ Hparse) as [_ Hmagic].
  assert (H76 : length hsData = 76%nat) by (unfold len, HandshakeHeaderSize in Hlen; lia).
  unfold Process.
  rewrite decide_False by (rewrite len_app; pose proof (len_nonneg rest);
                           unfold HandshakeHeaderSize in Hlen; lia).
  assert (Hpeek : slice (take 4 (hsData ++ rest)) 0 4 = slice hsData 0 4).
  { rewrite !slice_0_take. change (Z.to_nat 4) with 4%nat.
    rewrite take_take, take_app_le by lia. reflexivity. }
  rewrite Hpeek, decide_False by (intros H; by apply H).
  change (Z.to_nat HandshakeHeaderSize) with 76%nat.
  rewrite ReadFull_app by done. rewrite Hparse.
  destruct (negb (ValidateTimestamp now (Timestamp clientHS))); [reflexivity|].
  destruct (NT.Check (nonceTracker h) _) as [fresh tracker]. cbn [fst snd].
  destruct (negb fresh); reflexivity.
Qed.

(** C3. A handshake that has been read and parsed and whose timestamp fails
    validation, or whose nonce the tracker reports as seen, ends the
    connection with the error of that check, whether or not a fallback is
    configured; the handler is left as it was.  By contrast, with a fallback
    configured, a stream that does not start with the magic and a handshake
    from an unknown UUID are handed to the fallback. *)
Theorem Process_stale_or_replay_fatal
    (ParseString : string -> option (list byte)) (now : Z) (h : Handler)
    (hsData rest : list byte) (clientHS : ClientHandshake) :
  len hsData = HandshakeHeaderSize ->
  UnmarshalClientHandshake hsData = inr clientHS ->
  ValidateTimestamp now (Timestamp clientHS) = false
  \/ (NT.Check (nonceTracker h) (Uint64 (slice (Nonce clientHS) 0 8))).1 = false ->
  Process ParseString now h (hsData ++ rest)
    = (Fatal (ErrNew (if ValidateTimestamp now (Timestamp clientHS)
                      then "replay detected: duplicate nonce"
                      else "handshake timestamp out of range")), h)
  /\ (forall port conn,
        fallback h = Some port -> 4 <= len conn ->
        Uint32 (slice (take 4 conn) 0 4) <> ReflexMagic ->
        Process ParseString now h conn = (ToFallback conn, h))
  /\ (forall port hsData' rest' hs',
        fallback h = Some port ->
        len hsData' = HandshakeHeaderSize ->
        UnmarshalClientHandshake hsData' = inr hs' ->
        ValidateTimestamp now (Timestamp hs') = true ->
        (NT.Check (nonceTracker h) (Uint64 (slice (Nonce hs') 0 8))).1 = true ->
        AuthenticateUser ParseString (UserID hs') (clientEntries h) = None ->
        (Process ParseString now h (hsData' ++ rest')).1 = ToFallback rest').
Proof.
  intros Hlen Hparse Hbad. split; [|split].
  - rewrite (Process_handshake _ _ _ _ _ clientHS) by done.
    destruct (ValidateTimestamp now (Timestamp clientHS)) eqn:Hts; [|reflexivity].
    destruct Hbad as [Hstale|Hseen]; [discriminate|].
    cbn [negb].
    assert (Hin : Uint64 (slice (Nonce clientHS) 0 8) ∈ NT.seen (nonceTracker h)).
    { destruct (decide (Uint64 (slice (Nonce clientHS) 0 8)
                        ∈ NT.seen (nonceTracker h))) as [|Hout]; [done|].
      rewrite Check_fresh in Hseen by done. discriminate. }
    rewrite Check_seen by done. cbn [fst snd negb]. by destruct h.
  - intros port conn Hfb Hconn Hmagic. unfold Process.
    rewrite decide_False by lia. rewrite decide_True by done.
    by rewrite Hfb.
  - intros port hsData' rest' hs' Hfb Hlen' Hparse' Hts Hfresh Hauth.
    rewrite (Process_handshake _ _ _ _ _ hs') by done.
    cbv zeta. rewrite Hts, Hfresh, Hauth, Hfb. reflexivity.
Qed.

Lemma Process_stale_or_replay_fatal_witness :
  Process hexUUID demoNow demoHandlerAfter (demoHello ++ [])
    = (Fatal (ErrNew (if ValidateTimestamp demoNow
                           (Timestamp (demoHandshake demoNow))
                      then "replay detected: duplicate nonce"
                      else "handshake timestamp out of range")),
       demoHandlerAfter)
  /\ (forall port conn,
        fallback demoHandlerAfter = Some port -> 4 <= len conn ->
        Uint32 (slice (take 4 conn) 0 4) <> ReflexMagic ->
        Process hexUUID demoNow demoHandlerAfter conn
          = (ToFallback conn, demoHandlerAfter))
  /\ (forall port hsData' rest' hs',
        fallback demoHandlerAfter = Some port ->
        len hsData' = HandshakeHeaderSize ->
        UnmarshalClientHandshake hsData' = inr hs' ->
        ValidateTimestamp demoNow (Timestamp hs') = true ->
        (NT.Check (nonceTracker demoHandlerAfter)
           (Uint64 (slice (Nonce hs') 0 8))).1 = true ->
        AuthenticateUser hexUUID (UserID hs') (clientEntries demoHandlerAfter)
          = None ->
        (Process hexUUID demoNow demoHandlerAfter (hsData' ++ rest')).1
          = ToFallback rest').
Proof.
  apply (Process_stale_or_replay_fatal hexUUID demoNow demoHandlerAfter
           demoHello [] (demoHandshake demoNow)).
  - vm_compute. reflexivity.
  - vm_compute. reflexivity.
  - right. vm_compute. reflexivity.
Defined.

(** The replay scenario: the same handshake twice.  The first is
    authenticated; the second is refused as a replay although a fallback is
    configured. *)
Example Process_same_handshake_twice :
  fallback demoHandler = Some 8080
  /\ (Process hexUUID demoNow demoHandler demoHello).1
     = Authenticated (demoHandshake demoNow)
         (mkClientEntry "b831381d-6324-4d53-ad4f-8cda48b30811" "youtube") []
  /\ (Process hexUUID demoNow demoHandlerAfter demoHello).1
     = Fatal (ErrNew "replay detected: duplicate nonce").
Proof. repeat split; vm_compute; reflexivity. Qed.

(** The stale scenario: a timestamp 300 seconds old is fatal with the
    fallback configured, and leaves no trace in the tracker. *)
Example Process_stale_timestamp :
  Process hexUUID demoNow demoHandler
    (MarshalClientHandshake (demoHandshake (demoNow - 300)))
  = (Fatal (ErrNew "handshake timestamp out of range"), demoHandler).
Proof. vm_compute. reflexivity. Qed.

(** With the fallback configured, an HTTP probe and a handshake from an
    unknown UUID go to the fallback. *)
Example Process_falls_back :
  (Process hexUUID demoNow demoHandler
     (String.list_byte_of_string "GET / HTTP/1.1")).1
  = ToFallback (String.list_byte_of_string "GET / HTTP/1.1")
  /\ (Process hexUUID demoNow demoHandler
        (MarshalClientHandshake
           {| PublicKey := replicate 32 x09; UserID := replicate 16 x00;
              Timestamp := demoNow; Nonce := replicate 16 x01 |}
         ++ [x2a])).1
     = ToFallback [x2a].
Proof. split; vm_compute; reflexivity. Qed.

(** The drift window of [ValidateTimestamp]. *)
Example ValidateTimestamp_window :
  ValidateTimestamp demoNow (demoNow - 120) = true
  /\ ValidateTimestamp demoNow (demoNow + 120) = true
  /\ ValidateTimestamp demoNow (demoNow - 121) = false
  /\ ValidateTimestamp demoNow (demoNow + 121) = false.
Proof. repeat split; vm_compute; reflexivity. Qed.

(** ** Writing frames *)

Lemma WriteFrame_Buffer (s : Session) (b : list byte) (frameType : byte)
    (data : list byte) :
  WriteFrame s (mkBuffer b) frameType data
  = (None, (nextWriteNonce s).2,
     mkBuffer (b ++ frameBytes (aead s) (writeNonce s) frameType data)).
Proof.
  unfold WriteFrame, frameBytes, nextWriteNonce, Write, Buffer_Writer.
  cbn [aead Bytes]. by rewrite <- !app_assoc.
Qed.

(** ** Sampling *)

Lemma draw_nonneg (k : N) : (0 <= Z.of_N (k mod 2 ^ 53) # 2 ^ 53)%Q.
Proof.
  unfold Qle. cbn [Qnum Qden]. rewrite Z.mul_0_l, Z.mul_1_r.
  apply N2Z.is_nonneg.
Qed.

Lemma Float64_nonneg (rnd : Rand) : (0 <= (Float64 rnd).1)%Q.
Proof. apply draw_nonneg. Qed.

Lemma Round_jitter_pos (size : Z) (j : Q) :
  1 <= size -> (0 <= j)%Q ->
  1 <= Round (inject_Z size * (1 + (j - (1 # 2)) * (1 # 10))).
Proof.
  intros Hs Hj.
  assert (Hs' : (1 <= inject_Z size)%Q).
  { change 1%Q with (inject_Z 1). rewrite <- Zle_Qle. lia. }
  set (q := (inject_Z size * (1 + (j - (1 # 2)) * (1 # 10)))%Q).
  assert (Hq : (95 # 100 <= q)%Q) by (unfold q; nra).
  clearbody q. unfold Round.
  destruct (Qle_bool 0 q) eqn:E.
  - apply Z.le_trans with (Qfloor (inject_Z 1)); [rewrite Qfloor_Z; lia|].
    apply Qfloor_resp_le. unfold inject_Z. lra.
  - exfalso.
    assert (Qle_bool 0 q = true) by (apply Qle_bool_iff; lra). congruence.
Qed.

Lemma pick_elem_of {A} (weight : A -> Q) (dists : list A) (r cumsum : Q) (d : A) :
  pick weight dists r cumsum = Some d -> d ∈ dists.
Proof.
  revert cumsum. induction dists as [|x dists IH]; intros cumsum; [discriminate|].
  cbn [pick]. destruct (Qle_bool r _).
  - intros [= ->]. set_solver.
  - intros H. apply IH in H. set_solver.
Qed.

(** A distribution of positive sizes yields positive sizes. *)
Lemma sampleWeighted_pos (dists : list PacketSizeDist.t) (rnd : Rand) :
  Forall (fun d => 1 <= PacketSizeDist.Size d) dists ->
  1 <= (sampleWeighted dists rnd).1.
Proof.
  intros Hpos. rewrite Forall_forall in Hpos. unfold sampleWeighted.
  destruct (decide (len dists = 0)); [simpl; lia|].
  destruct (Float64 rnd) as [r rnd1].
  destruct (pick PacketSizeDist.Weight dists r 0) as [d|] eqn:Hpick.
  - pose proof (Float64_nonneg rnd1) as Hj.
    destruct (Float64 rnd1) as [j rnd2]. cbn [fst] in *.
    apply Round_jitter_pos; [|done].
    apply Hpos. by eapply pick_elem_of.
  - cbn [fst]. destruct (last dists) as [d|] eqn:Hlast.
    + apply last_Some_elem_of in Hlast. simpl. by apply Hpos.
    + apply last_None in Hlast. subst dists. done.
Qed.

Lemma GetPacketSize_pos (p : TrafficProfile) (rnd : Rand) :
  Forall (fun d => 1 <= PacketSizeDist.Size d) (PacketSizes p) ->
  1 <= (GetPacketSize p rnd).1.1.
Proof.
  intros Hpos. unfold GetPacketSize.
  destruct (decide (0 < nextPacketSize p)); [simpl; lia|].
  pose proof (sampleWeighted_pos _ rnd Hpos).
  by destruct (sampleWeighted (PacketSizes p) rnd).
Qed.

Lemma GetPacketSize_PacketSizes (p : TrafficProfile) (rnd : Rand) :
  PacketSizes (GetPacketSize p rnd).1.2 = PacketSizes p.
Proof.
  unfold GetPacketSize. destruct (decide (0 < nextPacketSize p)); [reflexivity|].
  by destruct (sampleWeighted (PacketSizes p) rnd).
Qed.

Lemma GetDelay_PacketSizes (p : TrafficProfile) (rnd : Rand) :
  PacketSizes (GetDelay p rnd).1.2 = PacketSizes p.
Proof.
  unfold GetDelay. destruct (decide (0 < nextDelay p)); [reflexivity|].
  by destruct (sampleDelayWeighted (Delays p) rnd).
Qed.

(** Every built-in profile has positive sizes only. *)
Lemma BuiltinProfiles_positive (name : string) (p : TrafficProfile) :
  BuiltinProfiles !! name = Some p ->
  Forall (fun d => 1 <= PacketSizeDist.Size d) (PacketSizes p).
Proof.
  intros H.
  assert (Hin : p ∈ [youtube; zoom; netflix; http2_api; discord]).
  { unfold BuiltinProfiles in H.
    apply elem_of_list_to_map_2 in H.
    apply (list_elem_of_fmap_2 snd) in H. exact H. }
  repeat (apply elem_of_cons in Hin as [->|Hin];
          [repeat constructor; simpl; lia|]).
  by apply elem_of_nil in Hin.
Qed.

(** ** The chunk size *)

Lemma chunkSizeFor_le (targetSize overhead : Z) :
  chunkSizeFor targetSize overhead <= MaxFramePayload.
Proof.
  unfold chunkSizeFor. repeat case_decide; lia.
Qed.

Lemma chunkSizeFor_pos (targetSize overhead : Z) :
  1 <= targetSize -> 1 <= chunkSizeFor targetSize overhead.
Proof.
  unfold chunkSizeFor, MaxFramePayload. intros H. repeat case_decide; lia.
Qed.

(** Without wrap-around, the size is the target less the overhead and the
    header, the target itself when that is not positive, and at most
    [MaxFramePayload]. *)
Lemma chunkSizeFor_formula (targetSize overhead : Z) :
  MinInt64 <= targetSize - overhead - FrameHeaderSize <= MaxInt64 ->
  chunkSizeFor targetSize overhead
  = Z.min MaxFramePayload
      (if decide (targetSize - overhead - FrameHeaderSize <= 0)
       then targetSize
       else targetSize - overhead - FrameHeaderSize).
Proof.
  intros H. unfold chunkSizeFor. rewrite int64_small by done.
  repeat case_decide; lia.
Qed.

Lemma AddPadding_spec (data : list byte) (targetSize : Z) (rnd : Rand) :
  len data <= targetSize ->
  exists pad,
    (AddPadding data targetSize rnd).1 = data ++ pad
    /\ len (data ++ pad) = targetSize.
Proof.
  intros Hle. unfold AddPadding.
  destruct (decide (targetSize <= len data)).
  - exists []. rewrite app_nil_r. split; [reflexivity|lia].
  - exists (rand_Read rnd (Z.to_nat (targetSize - len data))).1.
    split; [reflexivity|].
    rewrite len_app. unfold rand_Read, len. cbn [fst].
    rewrite length_map, length_seq. unfold len in *. lia.
Qed.

(** ** MorphWrite *)

(** One turn of the loop on a [bytes.Buffer], whose writes cannot fail: the
    target is sampled, the chunk size follows from it, and either the rest
    of the data goes out padded to that size, or the slice expression
    panics, or the first [chunkSize] bytes go out and the loop continues on
    the others. *)
Lemma morphLoop_iteration (fuel : nat) (p : TrafficProfile) (s : Session)
    (b : list byte) (rnd : Rand) (data : list byte)
    (targetSize : Z) (p1 : TrafficProfile) (rnd1 : Rand) :
  0 < len data ->
  GetPacketSize p rnd = (targetSize, p1, rnd1) ->
  morphLoop (S fuel) p s (mkBuffer b) rnd data =
    let chunkSize := chunkSizeFor targetSize (Overhead (aead s)) in
    if decide (len data <= chunkSize) then
      let padded := AddPadding data chunkSize rnd1 in
      let next := GetDelay p1 padded.2 in
      morphLoop fuel next.1.2 (nextWriteNonce s).2
        (mkBuffer (b ++ frameBytes (aead s) (writeNonce s) FrameTypeData padded.1))
        next.2 []
    else if decide (chunkSize < 0) then (Panicked, p1, s, mkBuffer b, rnd1)
    else
      let next := GetDelay p1 rnd1 in
      morphLoop fuel next.1.2 (nextWriteNonce s).2
        (mkBuffer (b ++ frameBytes (aead s) (writeNonce s) FrameTypeData
                          (slice data 0 chunkSize)))
        next.2 (drop (Z.to_nat chunkSize) data).
Proof.
  intros Hdata HG. cbn [morphLoop].
  rewrite decide_False by lia. rewrite HG. cbv zeta.
  destruct (decide (len data <= _)).
  - destruct (AddPadding data _ rnd1) as [chunk rnd2]. cbn [fst snd].
    rewrite WriteFrame_Buffer.
    by destruct (GetDelay p1 rnd2) as [[delay p2] rnd3].
  - destruct (decide (_ < 0)); [reflexivity|].
    rewrite WriteFrame_Buffer.
    by destruct (GetDelay p1 rnd1) as [[delay p2] rnd3].
Qed.

Lemma len_slice_0 {A} (l : list A) (n : Z) :
  0 <= n <= len l -> len (slice l 0 n) = n.
Proof.
  intros H. rewrite slice_0_take. unfold len in *.
  rewrite length_take. lia.
Qed.

Lemma len_drop {A} (l : list A) (n : Z) :
  0 <= n <= len l -> len (drop (Z.to_nat n) l) = len l - n.
Proof. intros H. unfold len in *. rewrite length_drop. lia. Qed.

(** Whatever the profile and however the run ends, what has reached the
    buffer is a sequence of DATA frames sealed under successive counters,
    each with a plaintext of the chunk size of some target, hence of at most
    [MaxFramePayload] bytes. *)
Lemma morphLoop_frames (fuel : nat) (p : TrafficProfile) (s : Session)
    (b : list byte) (rnd : Rand) (data : list byte) :
  exists st p' s' rnd' chunks,
    morphLoop fuel p s (mkBuffer b) rnd data
    = (st, p', s',
       mkBuffer (b ++ framesBytes (aead s) (writeNonce s) FrameTypeData chunks),
       rnd')
    /\ Forall (fun c => exists targetSize,
                 len c = chunkSizeFor targetSize (Overhead (aead s))) chunks.
Proof.
  revert p s b rnd data. induction fuel as [|fuel IH]; intros p s b rnd data.
  { exists OutOfFuel, p, s, rnd, []. simpl. by rewrite app_nil_r. }
  destruct (decide (len data <= 0)) as [Hempty|Hdata].
  { exists (Returned None), p, s, rnd, []. cbn [morphLoop].
    rewrite decide_True by done. simpl. by rewrite app_nil_r. }
  destruct (GetPacketSize p rnd) as [[targetSize p1] rnd1] eqn:HG.
  rewrite (morphLoop_iteration fuel p s b rnd data targetSize p1 rnd1);
    [|lia|exact HG].
  cbv zeta.
  set (cs := chunkSizeFor targetSize (Overhead (aead s))).
  destruct (decide (len data <= cs)) as [Hlast|Hmore].
  - destruct (AddPadding_spec data cs rnd1 Hlast) as (pad & Hpad & Hlen).
    rewrite Hpad.
    edestruct (IH (GetDelay p1 (AddPadding data cs rnd1).2).1.2
                 (nextWriteNonce s).2
                 (b ++ frameBytes (aead s) (writeNonce s) FrameTypeData (data ++ pad)))
      as (st & p' & s' & rnd' & chunks & Heq & Hall).
    rewrite Heq. exists st, p', s', rnd', ((data ++ pad) :: chunks).
    split; [cbn [framesBytes nextWriteNonce snd aead writeNonce]; by rewrite <- app_assoc|].
    constructor; [by exists targetSize|exact Hall].
  - destruct (decide (cs < 0)) as [Hneg|Hpos].
    { exists Panicked, p1, s, rnd1, []. simpl. by rewrite app_nil_r. }
    edestruct (IH (GetDelay p1 rnd1).1.2 (nextWriteNonce s).2
                 (b ++ frameBytes (aead s) (writeNonce s) FrameTypeData (slice data 0 cs)))
      as (st & p' & s' & rnd' & chunks & Heq & Hall).
    rewrite Heq. exists st, p', s', rnd', (slice data 0 cs :: chunks).
    split; [cbn [framesBytes nextWriteNonce snd aead writeNonce]; by rewrite <- app_assoc|].
    constructor; [|exact Hall].
    exists targetSize. apply len_slice_0. lia.
Qed.

Lemma cut_and_padded_concat (data : list byte) (chunks : list (list byte))
    (pad : list byte) :
  cut_and_padded data chunks pad -> concat chunks = data ++ pad.
Proof.
  intros [(-> & -> & ->)|(init & final & -> & ->)]; [reflexivity|].
  rewrite concat_app. simpl. by rewrite app_nil_r, !app_assoc.
Qed.

(** With positive sizes only and a buffer to write to, the loop ends without
    an error within [length data] turns, and its chunks are the data cut in
    order with padding at the very end. *)
Lemma morphLoop_complete (fuel : nat) (p : TrafficProfile) (s : Session)
    (b : list byte) (rnd : Rand) (data : list byte) :
  Forall (fun d => 1 <= PacketSizeDist.Size d) (PacketSizes p) ->
  (length data < fuel)%nat ->
  exists p' s' rnd' chunks pad,
    morphLoop fuel p s (mkBuffer b) rnd data
    = (Returned None, p', s',
       mkBuffer (b ++ framesBytes (aead s) (writeNonce s) FrameTypeData chunks),
       rnd')
    /\ cut_and_padded data chunks pad
    /\ Forall (fun c => 1 <= len c <= MaxFramePayload) chunks.
Proof.
  revert p s b rnd data.
  induction fuel as [|fuel IH]; intros p s b rnd data Hpos Hfuel; [lia|].
  destruct (decide (len data <= 0)) as [Hempty|Hdata].
  { exists p, s, rnd, [], []. cbn [morphLoop].
    rewrite decide_True by done. simpl. rewrite app_nil_r.
    split; [reflexivity|]. split; [|constructor].
    left. destruct data; [done|]. unfold len in Hempty. simpl in Hempty. lia. }
  destruct (GetPacketSize p rnd) as [[targetSize p1] rnd1] eqn:HG.
  assert (Htarget : 1 <= targetSize).
  { pose proof (GetPacketSize_pos p rnd Hpos) as H. by rewrite HG in H. }
  assert (Hp1 : PacketSizes p1 = PacketSizes p).
  { pose proof (GetPacketSize_PacketSizes p rnd) as H. by rewrite HG in H. }
  rewrite (morphLoop_iteration fuel p s b rnd data targetSize p1 rnd1);
    [|lia|exact HG].
  cbv zeta.
  pose proof (chunkSizeFor_pos targetSize (Overhead (aead s)) Htarget) as Hcs1.
  pose proof (chunkSizeFor_le targetSize (Overhead (aead s))) as Hcs2.
  set (cs := chunkSizeFor targetSize (Overhead (aead s))) in *.
  destruct (decide (len data <= cs)) as [Hlast|Hmore].
  - destruct (AddPadding_spec data cs rnd1 Hlast) as (pad & Hpad & Hlen).
    rewrite Hpad.
    destruct fuel as [|fuel]; [unfold len in Hdata; lia|].
    cbn [morphLoop]. rewrite decide_True by (unfold len; simpl; lia).
    eexists _, _, _, [data ++ pad], pad.
    split; [cbn [framesBytes]; by rewrite app_nil_r|].
    split; [right; by exists [], data|].
    repeat constructor; lia.
  - rewrite decide_False by lia.
    edestruct (IH (GetDelay p1 rnd1).1.2 (nextWriteNonce s).2
                 (b ++ frameBytes (aead s) (writeNonce s) FrameTypeData (slice data 0 cs))
                 (GetDelay p1 rnd1).2 (drop (Z.to_nat cs) data))
      as (p' & s' & rnd' & chunks & pad & Heq & Hcut & Hall).
    { by rewrite GetDelay_PacketSizes, Hp1. }
    { rewrite length_drop. unfold len in *. lia. }
    rewrite Heq. exists p', s', rnd', (slice data 0 cs :: chunks), pad.
    split; [cbn [framesBytes nextWriteNonce snd aead writeNonce];
            by rewrite <- app_assoc|].
    split.
    + right. rewrite slice_0_take.
      destruct Hcut as [(Hd & -> & ->)|(init & final & -> & Hd)].
      * exists [], (take (Z.to_nat cs) data). split; [by rewrite app_nil_r|].
        simpl. rewrite <- (take_drop (Z.to_nat cs) data) at 1.
        by rewrite Hd, app_nil_r.
      * exists (take (Z.to_nat cs) data :: init), final. split; [reflexivity|].
        simpl. rewrite <- app_assoc, <- Hd. by rewrite take_drop.
    + constructor; [|exact Hall]. rewrite len_slice_0 by lia. lia.
Qed.

(** ** Reading back what was written *)

Lemma frameBytes_shape (a : AEAD) (counter : Z) (ty : byte) (c : list byte) :
  exists h0 h1,
    frameBytes a counter ty c
    = h0 :: h1 :: ty :: Seal a (replicate 4 x00 ++ PutUint64 counter) c
    /\ Uint16 [h0; h1]
       = uint16 (len (Seal a (replicate 4 x00 ++ PutUint64 counter) c)).
Proof.
  unfold frameBytes. cbv zeta.
  set (ct := Seal a _ c).
  exists (byte_of_Z (Z.shiftr (uint16 (len ct)) 8)),
         (byte_of_Z (Z.shiftr (uint16 (len ct)) 0)).
  split; [reflexivity|].
  change [_; _] with (PutUint16 (uint16 (len ct)) ++ []).
  rewrite Uint16_PutUint16. unfold uint16. apply Z.mod_mod. lia.
Qed.

(** A session paired with the writer's, its read counter where the write
    counter was, reads the chunks back in order, all of them. *)
Lemma ReadFrames_framesBytes (sr : Session) (ty : byte)
    (chunks : list (list byte)) :
  chacha20poly1305_laws (aead sr) ->
  Forall (fun c => len c <= MaxFramePayload) chunks ->
  (ReadFrames (length chunks) sr
     (framesBytes (aead sr) (readNonce sr) ty chunks)).1.1
  = map (fun c => mkFrame (len c + 16) ty c) chunks.
Proof.
  intros (Hov & Hseal & Hopen) Hall. revert sr Hov Hseal Hopen.
  induction Hall as [|c chunks Hc Hall IH]; intros sr Hov Hseal Hopen;
    [reflexivity|].
  cbn [ReadFrames framesBytes length].
  destruct (frameBytes_shape (aead sr) (readNonce sr) ty c)
    as (h0 & h1 & Hshape & Hu).
  set (ct := Seal (aead sr) (replicate 4 x00 ++ PutUint64 (readNonce sr)) c) in *.
  assert (Hct : len ct = len c + 16) by (unfold ct; rewrite Hseal; lia).
  pose proof (len_nonneg c) as Hc0.
  rewrite Hshape. cbn [app].
  rewrite decide_False by (rewrite !len_cons; pose proof (len_nonneg (ct ++ framesBytes (aead sr) (uint64 (readNonce sr + 1)) ty chunks)); lia).
  rewrite ReadFrame_ciphertext.
  2:{ rewrite Hu. unfold uint16, MaxFramePayload in *.
      apply Z.mod_small. change (2 ^ 16) with 65536. lia. }
  2:{ lia. }
  unfold ct at 1. rewrite Hopen.
  specialize (IH (nextReadNonce sr).2 Hov Hseal Hopen).
  cbn [nextReadNonce snd aead readNonce] in IH.
  cbn [nextReadNonce snd].
  destruct (ReadFrames _ _ _) as [[frames s'] reader'].
  cbn [fst] in *. rewrite IH, Hct. reflexivity.
Qed.

Lemma demoAEAD_laws : chacha20poly1305_laws demoAEAD.
Proof.
  assert (Htag : forall nonce, length (demoTag nonce) = 16%nat).
  { intros nonce. unfold demoTag.
    rewrite length_take, length_app, length_replicate. lia. }
  split; [reflexivity|]. split.
  - intros nonce plaintext. cbn [Seal Overhead demoAEAD].
    rewrite len_app. unfold len at 2. rewrite Htag. reflexivity.
  - intros nonce plaintext. cbn [Seal Open demoAEAD].
    rewrite length_app, Htag.
    rewrite decide_True by lia.
    replace (length plaintext + 16 - 16)%nat with (length plaintext) by lia.
    rewrite drop_app_length, take_app_length.
    by rewrite decide_True.
Qed.

(** C5, as the code has it.  For an enabled morph whose profile has
    positive sizes only (every built-in profile has), writing to a buffer,
    [MorphWrite] returns without an error once it has as many turns as the
    data has bytes.  What it has written is a sequence of DATA frames that a
    paired session reads back one for one; their plaintexts are the data cut
    in order, followed by the padding, which sits at the end of the last
    one. *)
Theorem MorphWrite_data_then_padding (fuel : nat) (p : TrafficProfile)
    (s sr : Session) (b : list byte) (rnd : Rand) (data : list byte) :
  Forall (fun d => 1 <= PacketSizeDist.Size d) (PacketSizes p) ->
  chacha20poly1305_laws (aead s) ->
  aead sr = aead s -> readNonce sr = writeNonce s ->
  (length data < fuel)%nat ->
  exists m' s' rnd' chunks pad,
    MorphWrite fuel (mkMorph (Some p) true) s (mkBuffer b) rnd data
    = (Returned None, m', s',
       mkBuffer (b ++ framesBytes (aead s) (writeNonce s) FrameTypeData chunks),
       rnd')
    /\ (ReadFrames (length chunks) sr
          (framesBytes (aead s) (writeNonce s) FrameTypeData chunks)).1.1
       = map (fun c => mkFrame (len c + 16) FrameTypeData c) chunks
    /\ concat chunks = data ++ pad
    /\ cut_and_padded data chunks pad.
Proof.
  intros Hpos Hlaws Haead Hctr Hfuel.
  destruct (morphLoop_complete fuel p s b rnd data Hpos Hfuel)
    as (p' & s' & rnd' & chunks & pad & Heq & Hcut & Hall).
  exists (mkMorph (Some p') true), s', rnd', chunks, pad.
  split; [|split; [|split]].
  - unfold MorphWrite. cbn [Enabled Profile]. by rewrite Heq.
  - rewrite <- Haead, <- Hctr. apply ReadFrames_framesBytes.
    + by rewrite Haead.
    + eapply Forall_impl; [exact Hall|]. simpl. lia.
  - by apply cut_and_padded_concat.
  - exact Hcut.
Qed.

Lemma MorphWrite_data_then_padding_witness :
  exists m' s' rnd' chunks pad,
    MorphWrite 40 (mkMorph (Some testProfile) true) demoSession (mkBuffer [])
      zeroRand testPayload
    = (Returned None, m', s',
       mkBuffer ([] ++ framesBytes (aead demoSession) (writeNonce demoSession)
                         FrameTypeData chunks),
       rnd')
    /\ (ReadFrames (length chunks) demoSession
          (framesBytes (aead demoSession) (writeNonce demoSession)
             FrameTypeData chunks)).1.1
       = map (fun c => mkFrame (len c + 16) FrameTypeData c) chunks
    /\ concat chunks = testPayload ++ pad
    /\ cut_and_padded testPayload chunks pad.
Proof.
  apply (MorphWrite_data_then_padding 40 testProfile demoSession demoSession
           [] zeroRand testPayload).
  - repeat constructor. simpl. lia.
  - exact demoAEAD_laws.
  - reflexivity.
  - reflexivity.
  - vm_compute. lia.
Defined.

(** The run of the package's morph test on the stand-in cipher: one frame
    of 456 plaintext bytes, the 32 bytes of data first. *)
Example MorphWrite_test_run :
  let run := MorphWrite 40 (mkMorph (Some testProfile) true) demoSession
               (mkBuffer []) zeroRand testPayload in
  run.1.1.1.1 = Returned None
  /\ map (fun f => (Type_ f, length (Payload f)))
       (ReadFrames 40 demoSession (Bytes run.1.2)).1.1
     = [(FrameTypeData, 456%nat)]
  /\ take 32 (concat (map Payload (ReadFrames 40 demoSession (Bytes run.1.2)).1.1))
     = testPayload.
Proof. vm_compute. repeat split; reflexivity. Qed.

(** With the only size zero every turn writes an empty chunk and the data
    is never consumed: the loop does not end. *)
Lemma GetPacketSize_zeroProfile (p : TrafficProfile) (rnd : Rand) :
  PacketSizes p = PacketSizes zeroProfile -> nextPacketSize p <= 0 ->
  exists rnd1, GetPacketSize p rnd = (0, p, rnd1).
Proof.
  intros Hsizes Hnext. rewrite GetPacketSize_sample by done.
  rewrite Hsizes. unfold sampleWeighted. cbn [zeroProfile PacketSizes].
  rewrite decide_False by done.
  destruct (Float64 rnd) as [r rnd1]. cbn [pick].
  destruct (Qle_bool r _); cbn [fst snd].
  - destruct (Float64 rnd1) as [j rnd2]. cbn [fst snd]. exists rnd2.
    f_equal. f_equal. cbn [PacketSizeDist.Size].
    set (q := (inject_Z 0 * _)%Q).
    assert (Hq : (q == 0)%Q) by (unfold q, inject_Z; ring).
    clearbody q. unfold Round.
    assert (Hle : Qle_bool 0 q = true) by (apply Qle_bool_iff; lra).
    rewrite Hle.
    rewrite (Qfloor_comp (q + (1 # 2)) (1 # 2)) by lra. reflexivity.
  - exists rnd1. reflexivity.
Qed.

Lemma morphLoop_zero_size_diverges (fuel : nat) (p : TrafficProfile)
    (s : Session) (b : list byte) (rnd : Rand) (data : list byte) :
  PacketSizes p = PacketSizes zeroProfile -> nextPacketSize p <= 0 ->
  Overhead (aead s) = 16 -> 0 < len data ->
  (morphLoop fuel p s (mkBuffer b) rnd data).1.1.1.1 = OutOfFuel.
Proof.
  revert p s b rnd.
  induction fuel as [|fuel IH]; intros p s b rnd Hsizes Hnext Hov Hdata;
    [reflexivity|].
  destruct (GetPacketSize_zeroProfile p rnd Hsizes Hnext) as [rnd1 HG].
  rewrite (morphLoop_iteration fuel p s b rnd data 0 p rnd1); [|lia|exact HG].
  cbv zeta. rewrite Hov. change (chunkSizeFor 0 16) with 0.
  rewrite decide_False by lia. rewrite decide_False by lia.
  apply IH.
  - by rewrite GetDelay_PacketSizes.
  - unfold GetDelay. destruct (decide (0 < nextDelay p)); [simpl; lia|].
    by destruct (sampleDelayWeighted (Delays p) rnd1).
  - exact Hov.
  - exact Hdata.
Qed.

(** C5, as stated, fails in two ways.  A write that fails ends the call
    with the frames sent so far: on a writer with room for one frame of the
    test profile, 500 bytes of data leave one frame holding the first 456.
    And a profile may hold a size that is not positive: with the size -5 the
    first slice expression panics and nothing is written; with the size 0
    the call never returns, whatever number of turns it is given. *)
Lemma MorphWrite_prefix_or_nothing :
  ((MorphWrite 600 (mkMorph (Some testProfile) true) demoSession
      (mkLimited 475 []) zeroRand longPayload).1.1.1.1
   = Returned (Some (ErrNew "failed to write frame header"))
   /\ accepted (MorphWrite 600 (mkMorph (Some testProfile) true) demoSession
                  (mkLimited 475 []) zeroRand longPayload).1.2
      = framesBytes (aead demoSession) (writeNonce demoSession) FrameTypeData
          [take 456 longPayload]
   /\ ~ (exists pad, concat [take 456 longPayload] = longPayload ++ pad))
  /\ (MorphWrite 40 (mkMorph (Some negativeProfile) true) demoSession
        (mkBuffer []) zeroRand testPayload).1.1.1.1 = Panicked
  /\ Bytes (MorphWrite 40 (mkMorph (Some negativeProfile) true) demoSession
              (mkBuffer []) zeroRand testPayload).1.2 = []
  /\ ~ (exists chunks pad,
          Bytes (MorphWrite 40 (mkMorph (Some negativeProfile) true) demoSession
                   (mkBuffer []) zeroRand testPayload).1.2
          = framesBytes (aead demoSession) (writeNonce demoSession)
              FrameTypeData chunks
          /\ concat chunks = testPayload ++ pad)
  /\ ~ (exists fuel err,
          (MorphWrite fuel (mkMorph (Some zeroProfile) true) demoSession
             (mkBuffer []) zeroRand testPayload).1.1.1.1 = Returned err).
Proof.
  assert (Hb : Bytes (MorphWrite 40 (mkMorph (Some negativeProfile) true)
                        demoSession (mkBuffer []) zeroRand testPayload).1.2 = [])
    by (vm_compute; reflexivity).
  split; [split; [vm_compute; reflexivity|split; [vm_compute; reflexivity|]]|].
  { intros [pad Hpad]. apply (f_equal length) in Hpad.
    rewrite length_app in Hpad. vm_compute in Hpad. lia. }
  split; [vm_compute; reflexivity|]. split; [exact Hb|]. split.
  - rewrite Hb. intros (chunks & pad & Hw & Hc).
    destruct chunks as [|c chunks]; [discriminate Hc|].
    cbn [framesBytes] in Hw.
    destruct (frameBytes_shape (aead demoSession) (writeNonce demoSession)
                FrameTypeData c) as (h0 & h1 & Hshape & _).
    rewrite Hshape in Hw. discriminate Hw.
  - intros (fuel & err & Hret).
    pose proof (morphLoop_zero_size_diverges fuel zeroProfile demoSession []
                  zeroRand testPayload eq_refl) as Hdiv.
    unfold MorphWrite in Hret. cbn [Enabled Profile] in Hret.
    destruct (morphLoop fuel zeroProfile demoSession (mkBuffer []) zeroRand
                testPayload) as [[[[st p'] s'] w'] rnd'].
    cbn [fst] in *. rewrite Hdiv in Hret; [discriminate| | |].
    + simpl. lia.
    + reflexivity.
    + vm_compute. reflexivity.
Qed.


(** C6. In a turn of the loop, the chunk size is the sampled target less
    the AEAD overhead of 16 and the header size of 3 (a subtraction of Go
    ints, exact unless the target is within 19 of the least int), the target
    itself when that difference is not positive, and at most
    [MaxFramePayload]; the plaintext written in that turn has exactly that
    many bytes.  Whatever the
    run, every frame that reaches the writer has a plaintext of at most
    [MaxFramePayload] bytes and so a ciphertext of at most
    [MaxFramePayload + Overhead + FrameHeaderSize] bytes. *)
Theorem MorphWrite_chunk_size_and_frame_bound
    (fuel : nat) (p : TrafficProfile) (s : Session) (b : list byte)
    (rnd : Rand) (data : list byte)
    (targetSize : Z) (p1 : TrafficProfile) (rnd1 : Rand) :
  chacha20poly1305_laws (aead s) ->
  0 < len data ->
  GetPacketSize p rnd = (targetSize, p1, rnd1) ->
  chunkSizeFor targetSize (Overhead (aead s))
    = Z.min MaxFramePayload
        (if decide (int64 (targetSize - 16 - 3) <= 0) then targetSize
         else int64 (targetSize - 16 - 3))
  /\ (MinInt64 + 19 <= targetSize <= MaxInt64 ->
      int64 (targetSize - 16 - 3) = targetSize - 16 - 3)
  /\ (0 <= chunkSizeFor targetSize (Overhead (aead s)) ->
      exists chunk rest p2 rnd2,
        len chunk = chunkSizeFor targetSize (Overhead (aead s))
        /\ morphLoop (S fuel) p s (mkBuffer b) rnd data
           = morphLoop fuel p2 (nextWriteNonce s).2
               (mkBuffer (b ++ frameBytes (aead s) (writeNonce s)
                                 FrameTypeData chunk))
               rnd2 rest)
  /\ (exists st m' s' rnd' chunks,
        MorphWrite (S fuel) (mkMorph (Some p) true) s (mkBuffer b) rnd data
        = (st, m', s',
           mkBuffer (b ++ framesBytes (aead s) (writeNonce s) FrameTypeData chunks),
           rnd')
        /\ Forall (fun c =>
                     len c <= MaxFramePayload
                     /\ forall nonce,
                          len (Seal (aead s) nonce c)
                          <= MaxFramePayload + Overhead (aead s) + FrameHeaderSize)
             chunks).
Proof.
  intros (Hov & Hseal & Hopen) Hdata HG. split; [|split; [|split]].
  - rewrite Hov. unfold chunkSizeFor, FrameHeaderSize.
    repeat case_decide; lia.
  - intros Hrange. apply int64_small. unfold MinInt64, MaxInt64 in *. lia.
  - intros Hcs.
    rewrite (morphLoop_iteration fuel p s b rnd data targetSize p1 rnd1);
      [|lia|exact HG].
    cbv zeta.
    destruct (decide (len data <= _)) as [Hlast|Hmore].
    + destruct (AddPadding_spec data _ rnd1 Hlast) as (pad & Hpad & Hlen).
      eexists _, _, _, _. split; [|reflexivity]. by rewrite Hpad.
    + rewrite decide_False by lia.
      eexists _, _, _, _. split; [|reflexivity].
      apply len_slice_0. lia.
  - destruct (morphLoop_frames (S fuel) p s b rnd data)
      as (st & p' & s' & rnd' & chunks & Heq & Hall).
    exists st, (mkMorph (Some p') true), s', rnd', chunks. split.
    + unfold MorphWrite. cbn [Enabled Profile]. by rewrite Heq.
    + eapply Forall_impl; [exact Hall|].
      intros c [t Ht]. cbv beta.
      pose proof (chunkSizeFor_le t (Overhead (aead s))).
      split; [lia|]. intros nonce. rewrite Hseal.
      unfold FrameHeaderSize. lia.
Qed.

Lemma MorphWrite_chunk_size_and_frame_bound_witness :
  chunkSizeFor 475 (Overhead (aead demoSession))
    = Z.min MaxFramePayload
        (if decide (int64 (475 - 16 - 3) <= 0) then 475
         else int64 (475 - 16 - 3))
  /\ (MinInt64 + 19 <= 475 <= MaxInt64 -> int64 (475 - 16 - 3) = 475 - 16 - 3)
  /\ (0 <= chunkSizeFor 475 (Overhead (aead demoSession)) ->
      exists chunk rest p2 rnd2,
        len chunk = chunkSizeFor 475 (Overhead (aead demoSession))
        /\ morphLoop 40 testProfile demoSession (mkBuffer []) zeroRand testPayload
           = morphLoop 39 p2 (nextWriteNonce demoSession).2
               (mkBuffer ([] ++ frameBytes (aead demoSession)
                                  (writeNonce demoSession) FrameTypeData chunk))
               rnd2 rest)
  /\ (exists st m' s' rnd' chunks,
        MorphWrite 40 (mkMorph (Some testProfile) true) demoSession
          (mkBuffer []) zeroRand testPayload
        = (st, m', s',
           mkBuffer ([] ++ framesBytes (aead demoSession)
                             (writeNonce demoSession) FrameTypeData chunks),
           rnd')
        /\ Forall (fun c =>
                     len c <= MaxFramePayload
                     /\ forall nonce,
                          len (Seal (aead demoSession) nonce c)
                          <= MaxFramePayload + Overhead (aead demoSession)
                             + FrameHeaderSize)
             chunks).
Proof.
  apply (MorphWrite_chunk_size_and_frame_bound 39 testProfile demoSession []
           zeroRand testPayload 475 testProfile
           {| float_draws := float_draws zeroRand; float_pos := 2;
              crypto_bytes := crypto_bytes zeroRand; crypto_pos := 0 |}).
  - exact demoAEAD_laws.
  - vm_compute. reflexivity.
  - vm_compute. reflexivity.
Defined.

(** The three regimes of the chunk size: a target above the overhead, a
    target the overhead exceeds, and a target beyond [MaxFramePayload]. *)
Example chunkSizeFor_regimes :
  chunkSizeFor 1460 16 = 1441 /\ chunkSizeFor 19 16 = 19
  /\ chunkSizeFor 12 16 = 12 /\ chunkSizeFor 65535 16 = 16384.
Proof. repeat split; reflexivity. Qed.

(** A writer that fails ends [MorphWrite] with the error of [WriteFrame]
    and a truncated frame behind it. *)
Example MorphWrite_write_error :
  (MorphWrite 40 (mkMorph (Some testProfile) true) demoSession
     (mkLimited 100 []) zeroRand testPayload).1.1.1.1
  = Returned (Some (ErrNew "failed to write frame payload")).
Proof. vm_compute. reflexivity. Qed.

(** * Further properties of the code *)

(** ** Frames: round trip, length field, counters *)


(** X1. What [WriteFrame] puts in a buffer for a payload of at most 65519
    bytes, [ReadFrame] on a session with the same cipher and its read counter
    where the write counter was gives back: the same type, the same payload,
    nothing consumed beyond the frame, and both counters one further. *)
Theorem WriteFrame_ReadFrame_roundtrip (sw sr : Session) (b rest : list byte)
    (ty : byte) (data : list byte) :
  chacha20poly1305_laws (aead sw) ->
  aead sr = aead sw -> readNonce sr = writeNonce sw ->
  len data + 16 < 65536 ->
  WriteFrame sw (mkBuffer b) ty data
    = (None, (nextWriteNonce sw).2,
       mkBuffer (b ++ frameBytes (aead sw) (writeNonce sw) ty data))
  /\ ReadFrame sr (frameBytes (aead sw) (writeNonce sw) ty data ++ rest)
     = (inr {| Length := len data + 16; Type_ := ty; Payload := data |},
        (nextReadNonce sr).2, rest)
  /\ readNonce (nextReadNonce sr).2 = writeNonce (nextWriteNonce sw).2.
Proof.
  intros (Hov & Hseal & Hopen) Haead Hctr Hlen.
  split; [apply WriteFrame_Buffer|]. split.
  - destruct (frameBytes_shape (aead sw) (writeNonce sw) ty data)
      as (h0 & h1 & Hshape & Hu).
    set (ct := Seal (aead sw) (replicate 4 x00 ++ PutUint64 (writeNonce sw)) data) in *.
    assert (Hct : len ct = len data + 16) by (unfold ct; rewrite Hseal; lia).
    pose proof (len_nonneg data).
    rewrite Hshape. cbn [app].
    rewrite ReadFrame_ciphertext.
    + rewrite Haead, Hctr. fold ct. unfold ct at 1. rewrite Hopen, Hct.
      reflexivity.
    + rewrite Hu, Hct. unfold uint16. apply Z.mod_small.
      change (2 ^ 16) with 65536. lia.
    + lia.
  - cbn. by rewrite Hctr.
Qed.

Lemma WriteFrame_ReadFrame_roundtrip_witness :
  WriteFrame demoSession (mkBuffer []) FrameTypeData testPayload
    = (None, (nextWriteNonce demoSession).2,
       mkBuffer ([] ++ frameBytes (aead demoSession) (writeNonce demoSession)
                         FrameTypeData testPayload))
  /\ ReadFrame demoSession
       (frameBytes (aead demoSession) (writeNonce demoSession) FrameTypeData
          testPayload ++ [x2a])
     = (inr {| Length := len testPayload + 16; Type_ := FrameTypeData;
               Payload := testPayload |},
        (nextReadNonce demoSession).2, [x2a])
  /\ readNonce (nextReadNonce demoSession).2
     = writeNonce (nextWriteNonce demoSession).2.
Proof.
  apply (WriteFrame_ReadFrame_roundtrip demoSession demoSession [] [x2a]
           FrameTypeData testPayload).
  - exact demoAEAD_laws.
  - reflexivity.
  - reflexivity.
  - vm_compute. reflexivity.
Defined.



Lemma be_bytes_inj (n : nat) (v w : Z) :
  0 <= v < 256 ^ Z.of_nat n -> 0 <= w < 256 ^ Z.of_nat n ->
  be_bytes n v = be_bytes n w -> v = w.
Proof.
  intros Hv Hw Heq. apply (f_equal be_uint) in Heq.
  rewrite !be_uint_be_bytes in Heq. by rewrite !Z.mod_small in Heq.
Qed.

(** X3. The nonce of a frame is twelve bytes: four zero bytes, then the
    counter in big-endian.  Two counters in the range of a uint64 give the
    same nonce only if they are equal, on the write side as on the read side;
    a counter stays in that range, and from 2^64 - 1 it goes back to 0. *)
Theorem nonce_of_counter (s1 s2 : Session) :
  0 <= writeNonce s1 < 2 ^ 64 -> 0 <= writeNonce s2 < 2 ^ 64 ->
  0 <= readNonce s1 < 2 ^ 64 -> 0 <= readNonce s2 < 2 ^ 64 ->
  len (nextWriteNonce s1).1 = NonceSize
  /\ take 4 (nextWriteNonce s1).1 = replicate 4 x00
  /\ Uint64 (drop 4 (nextWriteNonce s1).1) = writeNonce s1
  /\ ((nextWriteNonce s1).1 = (nextWriteNonce s2).1 -> writeNonce s1 = writeNonce s2)
  /\ ((nextReadNonce s1).1 = (nextReadNonce s2).1 -> readNonce s1 = readNonce s2)
  /\ 0 <= writeNonce (nextWriteNonce s1).2 < 2 ^ 64
  /\ (writeNonce s1 = 2 ^ 64 - 1 -> writeNonce (nextWriteNonce s1).2 = 0).
Proof.
  intros Hw1 Hw2 Hr1 Hr2. unfold nextWriteNonce, nextReadNonce. cbn [fst snd].
  split; [reflexivity|]. split; [reflexivity|]. split; [|split; [|split; [|split]]].
  - change (drop 4 (replicate 4 x00 ++ PutUint64 (writeNonce s1)))
      with (PutUint64 (writeNonce s1)).
    rewrite <- (app_nil_r (PutUint64 (writeNonce s1))), Uint64_PutUint64.
    unfold uint64. by apply Z.mod_small.
  - intros H. apply app_inv_head in H. by apply be_bytes_inj in H.
  - intros H. apply app_inv_head in H. by apply be_bytes_inj in H.
  - cbn [writeNonce]. unfold uint64. apply Z.mod_pos_bound. lia.
  - intros ->. reflexivity.
Qed.

Lemma nonce_of_counter_witness :
  len (nextWriteNonce demoSession).1 = NonceSize
  /\ take 4 (nextWriteNonce demoSession).1 = replicate 4 x00
  /\ Uint64 (drop 4 (nextWriteNonce demoSession).1) = writeNonce demoSession
  /\ ((nextWriteNonce demoSession).1
      = (nextWriteNonce (nextWriteNonce demoSession).2).1 ->
      writeNonce demoSession = writeNonce (nextWriteNonce demoSession).2)
  /\ ((nextReadNonce demoSession).1
      = (nextReadNonce (nextWriteNonce demoSession).2).1 ->
      readNonce demoSession = readNonce (nextWriteNonce demoSession).2)
  /\ 0 <= writeNonce (nextWriteNonce demoSession).2 < 2 ^ 64
  /\ (writeNonce demoSession = 2 ^ 64 - 1 ->
      writeNonce (nextWriteNonce demoSession).2 = 0).
Proof.
  apply (nonce_of_counter demoSession (nextWriteNonce demoSession).2);
    vm_compute; split; (discriminate || reflexivity).
Defined.


(** X5. On every writer, [WriteFrame] takes the nonce before it writes:
    the write counter is one further afterwards whether the writes succeed or
    fail, the read counter is as before, and a header that could not be
    written keeps the ciphertext from being written at all. *)
Theorem WriteFrame_counter `{Writer W} (s : Session) (writer : W)
    (ty : byte) (data : list byte) :
  (WriteFrame s writer ty data).1.2 = (nextWriteNonce s).2
  /\ writeNonce (WriteFrame s writer ty data).1.2 = uint64 (writeNonce s + 1)
  /\ readNonce (WriteFrame s writer ty data).1.2 = readNonce s
  /\ ((Write writer (PutUint16 (uint16 (len (Seal (aead s) (nextWriteNonce s).1 data)))
                     ++ [ty])).1 <> None ->
      WriteFrame s writer ty data
      = (Some (ErrNew "failed to write frame header"), (nextWriteNonce s).2,
         (Write writer (PutUint16 (uint16 (len (Seal (aead s) (nextWriteNonce s).1 data)))
                        ++ [ty])).2)).
Proof.
  assert (Hs : (WriteFrame s writer ty data).1.2 = (nextWriteNonce s).2).
  { unfold WriteFrame. cbn.
    destruct (Write writer _) as [[e|] w1]; [done|].
    by destruct (Write w1 _) as [[e|] w2]. }
  rewrite !Hs. split; [reflexivity|]. split; [reflexivity|].
  split; [reflexivity|].
  unfold WriteFrame. cbn.
  destruct (Write writer _) as [[e|] w1]; [done|]. intros Hne. by destruct Hne.
Qed.

(** A failed header write on a pipe without room: nothing of the ciphertext
    is written and the counter has moved. *)
Example WriteFrame_failed_header :
  WriteFrame demoSession (mkLimited 2 []) FrameTypeData testPayload
  = (Some (ErrNew "failed to write frame header"), (nextWriteNonce demoSession).2,
     mkLimited 0 [x00; x30]).
Proof. vm_compute. reflexivity. Qed.

(** ** The replay tracker: how long a nonce is remembered *)

Lemma CheckAll_keeps (nt : NT.t) (l : list Z) :
  Z.of_nat (size (NT.seen nt)) + len l <= NT.max nt ->
  NT.seen nt ⊆ NT.seen (NT.CheckAll nt l).2.
Proof.
  revert nt. induction l as [|m l IH]; intros nt Hroom; [done|].
  cbn [NT.CheckAll]. rewrite len_cons in Hroom. pose proof (len_nonneg l).
  destruct (decide (m ∈ NT.seen nt)) as [Hin|Hout].
  - rewrite Check_seen by done. specialize (IH nt ltac:(lia)).
    by destruct (NT.CheckAll nt l).
  - rewrite Check_fresh by done. rewrite decide_False by lia.
    set (nt1 := NT.mk _ _).
    assert (Hsz : size (NT.seen nt1) = S (size (NT.seen nt))).
    { subst nt1. cbn [NT.seen]. rewrite size_union by set_solver.
      by rewrite size_singleton. }
    specialize (IH nt1). rewrite Hsz in IH.
    specialize (IH ltac:(subst nt1; cbn [NT.max]; lia)).
    destruct (NT.CheckAll nt1 l) as [oks nt2]. cbn [snd] in *.
    subst nt1. cbn [NT.seen] in IH. set_solver.
Qed.

(** X6. A nonce that has been checked, accepted or not, is refused again
    after any sequence of further checks for which the set still had room:
    as many slots left as there are checks in between.  Nothing is forgotten
    before the set is full. *)
Theorem NonceTracker_remembers_while_room (nt : NT.t) (n : Z) (l : list Z) :
  Z.of_nat (size (NT.seen (NT.Check nt n).2)) + len l <= NT.max nt ->
  NT.seen (NT.Check nt n).2 ⊆ NT.seen (NT.CheckAll (NT.Check nt n).2 l).2
  /\ (NT.Check (NT.CheckAll (NT.Check nt n).2 l).2 n).1 = false.
Proof.
  intros Hroom.
  pose proof (CheckAll_keeps (NT.Check nt n).2 l) as Hkeep.
  rewrite Check_max in Hkeep. specialize (Hkeep Hroom).
  split; [exact Hkeep|].
  rewrite Check_seen; [reflexivity|].
  apply Hkeep, Check_records.
Qed.

Lemma NonceTracker_remembers_while_room_witness :
  NT.seen (NT.Check (NT.NewNonceTracker 4) 7).2
    ⊆ NT.seen (NT.CheckAll (NT.Check (NT.NewNonceTracker 4) 7).2 [1; 2; 1]).2
  /\ (NT.Check (NT.CheckAll (NT.Check (NT.NewNonceTracker 4) 7).2 [1; 2; 1]).2 7).1
     = false.
Proof.
  apply (NonceTracker_remembers_while_room (NT.NewNonceTracker 4) 7 [1; 2; 1]).
  vm_compute. discriminate.
Defined.

(** The window can be as short as one check: on a full set a single new
    nonce makes the one accepted just before acceptable again. *)
Example NonceTracker_window_of_one :
  (NT.CheckAll (NT.NewNonceTracker 3) [1; 2; 3; 4; 3]).1
  = [true; true; true; true; true].
Proof. vm_compute. reflexivity. Qed.

(** ** The handshake codec *)

Lemma copy_into_id (n : nat) (src : list byte) :
  length src = n -> copy_into n src = src.
Proof. intros <-. unfold copy_into. apply take_app_length. Qed.

Lemma length_copy_into (n : nat) (src : list byte) :
  length (copy_into n src) = n.
Proof.
  unfold copy_into. rewrite length_take, length_app, length_replicate. lia.
Qed.

Lemma be_uint_inj (a b : list byte) :
  length a = length b -> be_uint a = be_uint b -> a = b.
Proof.
  revert b. induction a as [|x a IH]; intros [|y b] Hlen Heq; try done.
  rewrite !be_uint_cons in Heq. injection Hlen as Hlen.
  pose proof (be_uint_range a) as Ha. pose proof (be_uint_range b) as Hb.
  pose proof (u8_range x). pose proof (u8_range y).
  unfold len in *. rewrite <- Hlen in *.
  set (m := 256 ^ Z.of_nat (length a)) in *.
  assert (Hxy : u8 x = u8 y) by nia.
  f_equal; [by apply u8_inj|]. apply IH; [done|nia].
Qed.

Lemma be_bytes_be_uint (b : list byte) :
  be_bytes (length b) (be_uint b) = b.
Proof.
  apply be_uint_inj; [apply length_be_bytes|].
  rewrite be_uint_be_bytes. apply Z.mod_small. apply be_uint_range.
Qed.

Lemma wrap_neg (z M : Z) : 0 < M -> - M <= z < 0 -> z mod M = z + M.
Proof.
  intros HM H. symmetry. apply (Z.mod_unique z M (-1)); lia.
Qed.

Lemma wrap_pos (z M : Z) : 0 < M -> M <= z < 2 * M -> z mod M = z - M.
Proof.
  intros HM H. symmetry. apply (Z.mod_unique z M 1); lia.
Qed.

Lemma int64_uint64 (z : Z) : MinInt64 <= z <= MaxInt64 -> int64 (uint64 z) = z.
Proof.
  unfold int64, uint64, MinInt64, MaxInt64.
  change (2 ^ 64) with 18446744073709551616.
  change (2 ^ 63) with 9223372036854775808. intros H.
  destruct (Z.lt_ge_cases z 0).
  - rewrite (wrap_neg z) by lia. rewrite wrap_pos by lia. lia.
  - rewrite (Z.mod_small z) by lia. rewrite Z.mod_small by lia. lia.
Qed.

Lemma uint64_int64 (z : Z) : 0 <= z < 2 ^ 64 -> uint64 (int64 z) = z.
Proof.
  unfold int64, uint64.
  change (2 ^ 64) with 18446744073709551616.
  change (2 ^ 63) with 9223372036854775808. intros H.
  destruct (Z.lt_ge_cases z 9223372036854775808).
  - rewrite (Z.mod_small (z + _)) by lia. rewrite Z.mod_small by lia. lia.
  - rewrite (wrap_pos (z + _)) by lia. rewrite wrap_neg by lia. lia.
Qed.

Lemma int64_range (z : Z) : MinInt64 <= int64 z <= MaxInt64.
Proof.
  unfold int64, MinInt64, MaxInt64.
  pose proof (Z.mod_pos_bound (z + 2 ^ 63) (2 ^ 64)). lia.
Qed.

Lemma slice_join {A} (l : list A) (a b c : Z) :
  0 <= a <= b -> b <= c -> slice l a b ++ slice l b c = slice l a c.
Proof.
  intros Hab Hbc. unfold slice.
  replace (drop (Z.to_nat b) l)
    with (drop (Z.to_nat (b - a)) (drop (Z.to_nat a) l))
    by (rewrite drop_drop; f_equal; lia).
  rewrite take_take_drop. f_equal. lia.
Qed.

Lemma length_slice {A} (l : list A) (a b : Z) :
  0 <= a <= b -> b <= len l -> length (slice l a b) = Z.to_nat (b - a).
Proof.
  intros Ha Hb. unfold slice, len in *.
  rewrite length_take, length_drop. lia.
Qed.

Lemma MarshalClientHandshake_facts (hs : ClientHandshake) (extra : list byte) :
  length (PublicKey hs) = 32%nat -> length (UserID hs) = 16%nat ->
  length (Nonce hs) = 16%nat -> MinInt64 <= Timestamp hs <= MaxInt64 ->
  len (MarshalClientHandshake hs) = HandshakeHeaderSize
  /\ take 4 (MarshalClientHandshake hs) = [x52; x46; x58; x4c]
  /\ UnmarshalClientHandshake (MarshalClientHandshake hs ++ extra) = inr hs.
Proof.
  intros Hpk Huid Hnonce Hts.
  unfold MarshalClientHandshake.
  rewrite !copy_into_id by done.
  set (m := PutUint32 ReflexMagic).
  set (t := PutUint64 (uint64 (Timestamp hs))).
  assert (Hm : length m = 4%nat) by reflexivity.
  assert (Ht : length t = 8%nat) by reflexivity.
  split; [|split].
  - unfold len. rewrite !length_app, Hm, Hpk, Huid, Ht, Hnonce. reflexivity.
  - reflexivity.
  - unfold UnmarshalClientHandshake.
    rewrite decide_False.
    2:{ unfold len. rewrite !length_app, Hm, Hpk, Huid, Ht, Hnonce.
        unfold HandshakeHeaderSize. lia. }
    assert (S1 : slice ((m ++ PublicKey hs ++ UserID hs ++ t ++ Nonce hs) ++ extra) 0 4 = m).
    { rewrite <- !app_assoc. apply (slice_middle [] m); unfold len; simpl; lia. }
    assert (S2 : slice ((m ++ PublicKey hs ++ UserID hs ++ t ++ Nonce hs) ++ extra) 4 36
                 = PublicKey hs).
    { rewrite <- !app_assoc. apply (slice_middle m); unfold len; rewrite ?Hm, ?Hpk; lia. }
    assert (S3 : slice ((m ++ PublicKey hs ++ UserID hs ++ t ++ Nonce hs) ++ extra) 36 52
                 = UserID hs).
    { rewrite <- !app_assoc. rewrite (app_assoc m).
      apply slice_middle; unfold len; rewrite ?length_app, ?Hm, ?Hpk, ?Huid; lia. }
    assert (S4 : slice ((m ++ PublicKey hs ++ UserID hs ++ t ++ Nonce hs) ++ extra) 52 60 = t).
    { rewrite <- !app_assoc. rewrite (app_assoc m), (app_assoc (m ++ _)).
      apply slice_middle; unfold len; rewrite ?length_app, ?Hm, ?Hpk, ?Huid, ?Ht; lia. }
    assert (S5 : slice ((m ++ PublicKey hs ++ UserID hs ++ t ++ Nonce hs) ++ extra) 60 76
                 = Nonce hs).
    { rewrite <- !app_assoc.
      rewrite (app_assoc m), (app_assoc (m ++ _)), (app_assoc ((m ++ _) ++ _)).
      apply slice_middle; unfold len;
        rewrite ?length_app, ?Hm, ?Hpk, ?Huid, ?Ht, ?Hnonce; lia. }
    rewrite S1, S2, S3, S4, S5.
    rewrite decide_False by (intros H; apply H; reflexivity).
    unfold t. rewrite <- (app_nil_r (PutUint64 _)), Uint64_PutUint64.
    unfold uint64. rewrite Z.mod_mod by lia. fold (uint64 (Timestamp hs)).
    rewrite int64_uint64 by done. by destruct hs.
Qed.

(** X7. The client handshake round trip.  A handshake whose key, UUID and
    nonce have their 32, 16 and 16 bytes and whose timestamp is an int64
    marshals to 76 bytes that start with "RFXL" and unmarshal to the same
    handshake, whatever follows them. *)
Theorem ClientHandshake_roundtrip (hs : ClientHandshake) (extra : list byte) :
  length (PublicKey hs) = 32%nat -> length (UserID hs) = 16%nat ->
  length (Nonce hs) = 16%nat -> MinInt64 <= Timestamp hs <= MaxInt64 ->
  len (MarshalClientHandshake hs) = HandshakeHeaderSize
  /\ take 4 (MarshalClientHandshake hs) = [x52; x46; x58; x4c]
  /\ UnmarshalClientHandshake (MarshalClientHandshake hs ++ extra) = inr hs.
Proof. apply MarshalClientHandshake_facts. Qed.

Lemma ClientHandshake_roundtrip_witness :
  len (MarshalClientHandshake (demoHandshake demoNow)) = HandshakeHeaderSize
  /\ take 4 (MarshalClientHandshake (demoHandshake demoNow)) = [x52; x46; x58; x4c]
  /\ UnmarshalClientHandshake (MarshalClientHandshake (demoHandshake demoNow) ++ [x2a])
     = inr (demoHandshake demoNow).
Proof.
  apply (ClientHandshake_roundtrip (demoHandshake demoNow) [x2a]).
  - reflexivity.
  - vm_compute. reflexivity.
  - reflexivity.
  - vm_compute. split; discriminate.
Defined.

Lemma Uint32_magic (b : list byte) :
  length b = 4%nat -> (Uint32 b = ReflexMagic <-> b = [x52; x46; x58; x4c]).
Proof.
  intros Hlen. unfold Uint32. rewrite take_ge by lia. split.
  - intros H. apply be_uint_inj; [done|]. rewrite H. reflexivity.
  - intros ->. reflexivity.
Qed.

(** X8. What [UnmarshalClientHandshake] accepts.  Fewer than 76 bytes are
    refused as too short, before the magic is looked at; 76 bytes or more
    that do not start with "RFXL" are refused for their magic; anything else
    parses, bytes past the 76th are ignored, the fields have their 32, 16
    and 16 bytes, and marshalling the result gives the first 76 bytes
    back. *)
Theorem UnmarshalClientHandshake_accepts (data : list byte) :
  (len data < 76 ->
   UnmarshalClientHandshake data = inl (ErrNew "handshake data too short"))
  /\ (76 <= len data -> take 4 data <> [x52; x46; x58; x4c] ->
      UnmarshalClientHandshake data = inl (ErrNew "invalid magic number"))
  /\ (76 <= len data -> take 4 data = [x52; x46; x58; x4c] ->
      exists hs,
        UnmarshalClientHandshake data = inr hs
        /\ length (PublicKey hs) = 32%nat /\ length (UserID hs) = 16%nat
        /\ length (Nonce hs) = 16%nat
        /\ MinInt64 <= Timestamp hs <= MaxInt64
        /\ MarshalClientHandshake hs = take 76 data).
Proof.
  assert (Hmagic : 76 <= len data ->
            (Uint32 (slice data 0 4) = ReflexMagic
             <-> take 4 data = [x52; x46; x58; x4c])).
  { intros H. rewrite slice_0_take. apply Uint32_magic.
    unfold len in H. rewrite length_take. change (Z.to_nat 4) with 4%nat. lia. }
  unfold UnmarshalClientHandshake. split; [|split].
  - intros H. by rewrite decide_True.
  - intros H Hne. rewrite decide_False by (unfold HandshakeHeaderSize; lia).
    rewrite decide_True; [done|]. by rewrite Hmagic.
  - intros H Heq. rewrite decide_False by (unfold HandshakeHeaderSize; lia).
    rewrite decide_False by (intros Hn; apply Hn; by apply Hmagic).
    eexists. split; [reflexivity|]. cbn [PublicKey UserID Nonce Timestamp].
    assert (L1 : length (slice data 4 36) = 32%nat) by (rewrite length_slice; lia).
    assert (L2 : length (slice data 36 52) = 16%nat) by (rewrite length_slice; lia).
    assert (L3 : length (slice data 52 60) = 8%nat) by (rewrite length_slice; lia).
    assert (L4 : length (slice data 60 76) = 16%nat) by (rewrite length_slice; lia).
    split; [done|]. split; [done|]. split; [done|].
    split; [apply int64_range|].
    unfold MarshalClientHandshake. cbn [PublicKey UserID Nonce Timestamp].
    rewrite !copy_into_id by done.
    assert (Hm : PutUint32 ReflexMagic = slice data 0 4).
    { rewrite slice_0_take. change (Z.to_nat 4) with 4%nat. by rewrite Heq. }
    assert (Ht : PutUint64 (uint64 (int64 (Uint64 (slice data 52 60))))
                 = slice data 52 60).
    { unfold Uint64. rewrite take_ge by lia.
      pose proof (be_uint_range (slice data 52 60)) as Hr.
      unfold len in Hr. rewrite L3 in Hr.
      rewrite uint64_int64 by (change (2 ^ 64) with (256 ^ Z.of_nat 8); lia).
      unfold PutUint64. rewrite <- L3. apply be_bytes_be_uint. }
    rewrite Hm, Ht. rewrite !slice_join by lia.
    rewrite slice_0_take. reflexivity.
Qed.

(** X9. [ValidateTimestamp] on int64 values accepts a timestamp exactly when
    the wrapped difference [now - timestamp] is within 120 seconds either
    way, or is the least int64, whose negation is itself.  With a clock
    between 0 and 2^62 that is: within 120 seconds of now, or exactly 2^63
    seconds before now. *)
Theorem ValidateTimestamp_accepts (now timestamp : Z) :
  MinInt64 <= now <= MaxInt64 -> MinInt64 <= timestamp <= MaxInt64 ->
  (ValidateTimestamp now timestamp = true
   <-> - 120 <= int64 (now - timestamp) <= 120
       \/ int64 (now - timestamp) = MinInt64)
  /\ (0 <= now < 2 ^ 62 ->
      (ValidateTimestamp now timestamp = true
       <-> - 120 <= now - timestamp <= 120 \/ timestamp = now - 2 ^ 63)).
Proof.
  intros Hnow Hts.
  assert (Hchar : ValidateTimestamp now timestamp = true
                  <-> - 120 <= int64 (now - timestamp) <= 120
                      \/ int64 (now - timestamp) = MinInt64).
  { unfold ValidateTimestamp, MaxTimestampDrift.
    pose proof (int64_range (now - timestamp)) as Hd.
    set (d := int64 (now - timestamp)) in *.
    rewrite bool_decide_eq_true.
    destruct (decide (d < 0)) as [Hneg|Hpos].
    - destruct (decide (d = MinInt64)) as [->|Hne].
      + change (int64 (- MinInt64)) with MinInt64.
        unfold MinInt64. split; [by right|lia].
      + rewrite int64_small by (unfold MinInt64, MaxInt64 in *; lia).
        unfold MinInt64 in *. lia.
    - unfold MinInt64 in *. lia. }
  split; [exact Hchar|].
  intros Hclock. rewrite Hchar.
  unfold MinInt64, MaxInt64 in *.
  change (2 ^ 63) with 9223372036854775808 in *.
  change (2 ^ 62) with 4611686018427387904 in *.
  destruct (Z.le_gt_cases (now - timestamp) 9223372036854775807) as [Hsmall|Hbig].
  - rewrite int64_small by (unfold MinInt64, MaxInt64;
      change (2 ^ 63) with 9223372036854775808; lia). lia.
  - unfold int64. change (2 ^ 63) with 9223372036854775808.
    change (2 ^ 64) with 18446744073709551616.
    rewrite wrap_pos by lia. lia.
Qed.

Lemma ValidateTimestamp_accepts_witness :
  (ValidateTimestamp demoNow (demoNow - 2 ^ 63) = true
   <-> - 120 <= int64 (demoNow - (demoNow - 2 ^ 63)) <= 120
       \/ int64 (demoNow - (demoNow - 2 ^ 63)) = MinInt64)
  /\ (0 <= demoNow < 2 ^ 62 ->
      (ValidateTimestamp demoNow (demoNow - 2 ^ 63) = true
       <-> - 120 <= demoNow - (demoNow - 2 ^ 63) <= 120
           \/ demoNow - 2 ^ 63 = demoNow - 2 ^ 63)).
Proof.
  apply (ValidateTimestamp_accepts demoNow (demoNow - 2 ^ 63));
    vm_compute; split; discriminate.
Defined.

(** A handshake stamped 2^63 seconds before now passes the timestamp check
    and is authenticated. *)
Example Process_timestamp_overflow :
  ValidateTimestamp demoNow (demoNow - 2 ^ 63) = true
  /\ (Process hexUUID demoNow demoHandler
        (MarshalClientHandshake (demoHandshake (demoNow - 2 ^ 63)))).1
     = Authenticated (demoHandshake (demoNow - 2 ^ 63))
         (mkClientEntry "b831381d-6324-4d53-ad4f-8cda48b30811" "youtube") [].
Proof. split; vm_compute; reflexivity. Qed.

(** X10. [AuthenticateUser] returns the first entry of the list whose ID
    parses to the presented UUID: no entry before it does.  It returns
    nothing exactly when no entry does; entries whose ID does not parse are
    passed over. *)
Theorem AuthenticateUser_first_match
    (ParseString : string -> option (list byte)) (userID : list byte)
    (clients : list ClientEntry) :
  (forall client,
     AuthenticateUser ParseString userID clients = Some client <->
     exists before after,
       clients = before ++ client :: after
       /\ ParseString (ID client) = Some userID
       /\ forall c, c ∈ before -> ParseString (ID c) <> Some userID)
  /\ (AuthenticateUser ParseString userID clients = None <->
      forall c, c ∈ clients -> ParseString (ID c) <> Some userID).
Proof.
  induction clients as [|c0 clients [IHsome IHnone]].
  - split.
    + intros client. split; [discriminate|].
      intros (before & after & H & _). by destruct before.
    + split; [intros _ c Hc; by apply elem_of_nil in Hc|reflexivity].
  - assert (Hstep : AuthenticateUser ParseString userID (c0 :: clients)
                    = if decide (ParseString (ID c0) = Some userID) then Some c0
                      else AuthenticateUser ParseString userID clients).
    { cbn [AuthenticateUser].
      destruct (ParseString (ID c0)) as [parsedID|].
      - destruct (decide (userID = parsedID)) as [->|Hne].
        + by rewrite decide_True.
        + rewrite decide_False; [done|]. intros [= ->]. done.
      - by rewrite decide_False. }
    rewrite Hstep. destruct (decide (ParseString (ID c0) = Some userID)) as [Hm|Hm].
    + split.
      * intros client. split.
        -- intros [= <-]. exists [], clients. split; [done|]. split; [done|].
           intros c Hc. by apply elem_of_nil in Hc.
        -- intros (before & after & Heq & Hp & Hbefore).
           destruct before as [|c1 before].
           ++ by injection Heq as ->.
           ++ injection Heq as -> _. exfalso.
              apply (Hbefore c1); [set_solver|done].
      * split; [discriminate|]. intros H. exfalso. apply (H c0); [set_solver|done].
    + split.
      * intros client. rewrite IHsome. split.
        -- intros (before & after & -> & Hp & Hbefore).
           exists (c0 :: before), after. split; [done|]. split; [done|].
           intros c Hc. apply elem_of_cons in Hc as [->|Hc]; [done|by apply Hbefore].
        -- intros (before & after & Heq & Hp & Hbefore).
           destruct before as [|c1 before].
           ++ injection Heq as -> _. done.
           ++ injection Heq as -> ->. exists before, after.
              split; [done|]. split; [done|].
              intros c Hc. apply Hbefore. set_solver.
      * rewrite IHnone. split.
        -- intros H c Hc. apply elem_of_cons in Hc as [->|Hc]; [done|by apply H].
        -- intros H c Hc. apply H. set_solver.
Qed.

(** Two entries with the same UUID: the first one's policy wins, and an
    entry that does not parse is no obstacle. *)
Example AuthenticateUser_duplicate :
  AuthenticateUser hexUUID (UserID (demoHandshake 0))
    [mkClientEntry "not-a-valid-uuid" "zoom";
     mkClientEntry "b831381d-6324-4d53-ad4f-8cda48b30811" "youtube";
     mkClientEntry "B831381D63244D53AD4F8CDA48B30811" "netflix"]
  = Some (mkClientEntry "b831381d-6324-4d53-ad4f-8cda48b30811" "youtube").
Proof. vm_compute. reflexivity. Qed.

Lemma MarshalServerHandshake_facts (hs : ServerHandshake.t)
    (data extra : list byte) :
  length (ServerHandshake.PublicKey hs) = 32%nat ->
  length (ServerHandshake.PolicyGrant hs) = 32%nat ->
  len (MarshalServerHandshake hs) = 64
  /\ UnmarshalServerHandshake (MarshalServerHandshake hs ++ extra) = inr hs
  /\ (len data < 64 ->
      UnmarshalServerHandshake data
      = inl (ErrNew "server handshake data too short"))
  /\ (64 <= len data ->
      exists hs',
        UnmarshalServerHandshake data = inr hs'
        /\ MarshalServerHandshake hs' = take 64 data).
Proof.
  intros Hpk Hpg. unfold MarshalServerHandshake, UnmarshalServerHandshake.
  rewrite !copy_into_id by done.
  split; [unfold len; rewrite length_app, Hpk, Hpg; reflexivity|].
  split; [|split].
  - rewrite decide_False by (unfold len; rewrite !length_app, Hpk, Hpg; lia).
    rewrite <- app_assoc.
    assert (S1 : slice (ServerHandshake.PublicKey hs
                        ++ ServerHandshake.PolicyGrant hs ++ extra) 0 32
                 = ServerHandshake.PublicKey hs).
    { apply (slice_middle [] (ServerHandshake.PublicKey hs));
        unfold len; rewrite ?Hpk; simpl; lia. }
    rewrite S1.
    rewrite (slice_middle (ServerHandshake.PublicKey hs))
      by (unfold len; rewrite ?Hpk, ?Hpg; lia).
    by destruct hs.
  - intros H. by rewrite decide_True.
  - intros H. rewrite decide_False by lia.
    eexists. split; [reflexivity|].
    cbn [ServerHandshake.PublicKey ServerHandshake.PolicyGrant].
    rewrite !copy_into_id by (rewrite length_slice; lia).
    rewrite slice_join by lia. by rewrite slice_0_take.
Qed.

(** X11. The server handshake round trip.  A public key and a policy grant
    of 32 bytes each marshal to 64 bytes that unmarshal to the same
    handshake whatever follows; fewer than 64 bytes are refused; and on 64
    bytes or more, marshalling what was parsed gives the first 64 back. *)
Theorem ServerHandshake_roundtrip (hs : ServerHandshake.t)
    (data extra : list byte) :
  length (ServerHandshake.PublicKey hs) = 32%nat ->
  length (ServerHandshake.PolicyGrant hs) = 32%nat ->
  len (MarshalServerHandshake hs) = 64
  /\ UnmarshalServerHandshake (MarshalServerHandshake hs ++ extra) = inr hs
  /\ (len data < 64 ->
      UnmarshalServerHandshake data
      = inl (ErrNew "server handshake data too short"))
  /\ (64 <= len data ->
      exists hs',
        UnmarshalServerHandshake data = inr hs'
        /\ MarshalServerHandshake hs' = take 64 data).
Proof. apply MarshalServerHandshake_facts. Qed.

Lemma ServerHandshake_roundtrip_witness :
  len (MarshalServerHandshake
         (ServerHandshake.mk (replicate 32 x07) (replicate 32 x00))) = 64
  /\ UnmarshalServerHandshake
       (MarshalServerHandshake
          (ServerHandshake.mk (replicate 32 x07) (replicate 32 x00)) ++ [x01])
     = inr (ServerHandshake.mk (replicate 32 x07) (replicate 32 x00))
  /\ (len (replicate 10 x00) < 64 ->
      UnmarshalServerHandshake (replicate 10 x00)
      = inl (ErrNew "server handshake data too short"))
  /\ (64 <= len (replicate 10 x00) ->
      exists hs',
        UnmarshalServerHandshake (replicate 10 x00) = inr hs'
        /\ MarshalServerHandshake hs' = take 64 (replicate 10 x00)).
Proof.
  apply (ServerHandshake_roundtrip
           (ServerHandshake.mk (replicate 32 x07) (replicate 32 x00))
           (replicate 10 x00) [x01]); reflexivity.
Defined.

(** ** Key agreement *)

Lemma clamp_low_byte (b : byte) :
  u8 (byte_of_Z (Z.land (u8 b) 248)) mod 8 = 0
  /\ byte_of_Z (Z.land (u8 (byte_of_Z (Z.land (u8 b) 248))) 248)
     = byte_of_Z (Z.land (u8 b) 248).
Proof. destruct b; vm_compute; split; reflexivity. Qed.

Lemma clamp_high_byte (b : byte) :
  64 <= u8 (byte_of_Z (Z.lor (u8 (byte_of_Z (Z.land (u8 b) 127))) 64)) < 128
  /\ byte_of_Z
       (Z.lor (u8 (byte_of_Z
                 (Z.land (u8 (byte_of_Z (Z.lor (u8 (byte_of_Z (Z.land (u8 b) 127))) 64)))
                    127))) 64)
     = byte_of_Z (Z.lor (u8 (byte_of_Z (Z.land (u8 b) 127))) 64).
Proof.
  destruct b; vm_compute; (split; [split; [discriminate|reflexivity]|reflexivity]).
Qed.

Lemma clamp_facts (privateKey : list byte) :
  length privateKey = 32%nat ->
  length (clamp privateKey) = 32%nat
  /\ (forall i, (0 < i < 31)%nat -> clamp privateKey !! i = privateKey !! i)
  /\ clamp (clamp privateKey) = clamp privateKey
  /\ le_uint (clamp privateKey) mod 8 = 0
  /\ 2 ^ 254 <= le_uint (clamp privateKey) < 2 ^ 255.
Proof.
  intros Hlen.
  assert (Hl : length (clamp privateKey) = 32%nat).
  { unfold clamp. by rewrite !length_insert. }
  split; [exact Hl|]. split.
  { intros i Hi. unfold clamp. cbv zeta.
    rewrite !list_lookup_insert_ne by lia. reflexivity. }
  do 32 (destruct privateKey as [|? privateKey]; [discriminate Hlen|]).
  destruct privateKey; [|discriminate Hlen]. clear Hlen Hl.
  unfold clamp. cbn [lookup_total list_lookup_total insert list_insert].
  set (c0 := byte_of_Z (Z.land (u8 b) 248)).
  set (c31 := byte_of_Z (Z.lor (u8 (byte_of_Z (Z.land (u8 b30) 127))) 64)).
  destruct (clamp_low_byte b) as [Hlow Hlow2].
  destruct (clamp_high_byte b30) as [Hhigh Hhigh2].
  fold c0 in Hlow, Hlow2. fold c31 in Hhigh, Hhigh2.
  split; [by rewrite Hlow2, Hhigh2|].
  unfold le_uint. cbn [rev app].
  rewrite be_uint_cons.
  match goal with
  | |- context [be_uint (?x :: ?l)] =>
      change (x :: l) with ((removelast (x :: l)) ++ [c0])
  end.
  cbn [removelast].
  match goal with
  | |- context [be_uint (?l ++ [c0])] => set (mid := l)
  end.
  rewrite be_uint_app.
  pose proof (be_uint_range mid) as Hmid.
  change (len mid) with 30 in Hmid. change (len (mid ++ [c0])) with 31.
  change (len [c0]) with 1.
  change (be_uint [c0]) with (Z.lor (Z.shiftl 0 8) (u8 c0)).
  rewrite lor_shiftl_8 by apply u8_range.
  pose proof (u8_range c0).
  change (256 ^ 30) with (2 ^ 240) in Hmid.
  change (256 ^ 31) with (2 ^ 248). change (256 ^ 1) with 256.
  set (K := 2 ^ 240) in *.
  assert (HK : K = 2 ^ 240) by reflexivity.
  replace (2 ^ 248) with (256 * K) by (rewrite HK; reflexivity).
  replace (2 ^ 254) with (64 * 256 * K) by (rewrite HK; reflexivity).
  replace (2 ^ 255) with (128 * 256 * K) by (rewrite HK; reflexivity).
  assert (HKpos : 0 < K) by (rewrite HK; reflexivity).
  clearbody K. split.
  - replace (u8 c31 * (256 * K) + (be_uint mid * 256 + (0 * 256 + u8 c0)))
      with (u8 c0 + (u8 c31 * 32 * K + be_uint mid * 32) * 8) by lia.
    by rewrite Z.mod_add.
  - nia.
Qed.

(** X12. Clamping a 32-byte private key changes its first and last byte
    only, and clamping again changes nothing.  Read as the little-endian
    scalar X25519 takes, the clamped key is a multiple of 8 at least 2^254
    and below 2^255. *)
Theorem clamp_scalar (privateKey : list byte) :
  length privateKey = 32%nat ->
  length (clamp privateKey) = 32%nat
  /\ (forall i, (0 < i < 31)%nat -> clamp privateKey !! i = privateKey !! i)
  /\ clamp (clamp privateKey) = clamp privateKey
  /\ le_uint (clamp privateKey) mod 8 = 0
  /\ 2 ^ 254 <= le_uint (clamp privateKey) < 2 ^ 255.
Proof. apply clamp_facts. Qed.

Lemma clamp_scalar_witness :
  length (clamp (replicate 32 xff)) = 32%nat
  /\ (forall i, (0 < i < 31)%nat ->
        clamp (replicate 32 xff) !! i = replicate 32 xff !! i)
  /\ clamp (clamp (replicate 32 xff)) = clamp (replicate 32 xff)
  /\ le_uint (clamp (replicate 32 xff)) mod 8 = 0
  /\ 2 ^ 254 <= le_uint (clamp (replicate 32 xff)) < 2 ^ 255.
Proof.
  apply (clamp_scalar (replicate 32 xff)). reflexivity.
Defined.

Lemma length_map_seq {A} (f : nat -> A) (start n : nat) :
  length (map f (seq start n)) = n.
Proof. by rewrite length_map, length_seq. Qed.

(** The key [GenerateKeyPair] returns is the clamped one, and it has 32
    bytes like the public key beside it. *)
Lemma GenerateKeyPair_clamped
    (X25519 : list byte -> list byte -> option (list byte))
    (Basepoint : list byte) (rnd : Rand) (priv pub : list byte) :
  (GenerateKeyPair X25519 Basepoint rnd).1 = inr (priv, pub) ->
  clamp priv = priv /\ length priv = 32%nat /\ length pub = 32%nat.
Proof.
  unfold GenerateKeyPair.
  destruct (rand_Read rnd 32) as [raw rnd1] eqn:Hraw.
  assert (Hlen : length raw = 32%nat).
  { assert (Hr : raw = (rand_Read rnd 32).1) by (by rewrite Hraw).
    rewrite Hr. unfold rand_Read. cbn [fst]. apply length_map_seq. }
  destruct (clamp_facts raw Hlen) as (H1 & _ & H3 & _).
  destruct (X25519 (clamp raw) Basepoint); [|discriminate].
  cbn. intros [= <- <-]. split; [done|]. split; [done|].
  apply length_copy_into.
Qed.

(** X13. The HKDF salt of [DeriveSessionKey] is the nonce cut or zero-padded
    to 32 bytes.  So zero bytes appended to a nonce up to the 32nd byte, and
    any bytes from the 33rd on, have no effect on the session key. *)
Theorem DeriveSessionKey_salt
    (hkdf : list byte -> list byte -> list byte -> nat -> option (list byte))
    (sharedSecret nonce extra : list byte) (k : nat) :
  (length nonce + k <= 32)%nat ->
  DeriveSessionKey hkdf sharedSecret (nonce ++ replicate k x00)
    = DeriveSessionKey hkdf sharedSecret nonce
  /\ DeriveSessionKey hkdf sharedSecret (copy_into 32 nonce ++ extra)
     = DeriveSessionKey hkdf sharedSecret nonce.
Proof.
  intros Hk.
  assert (H1 : copy_into 32 (nonce ++ replicate k x00) = copy_into 32 nonce).
  { unfold copy_into. rewrite <- app_assoc.
    replace (replicate k x00 ++ replicate 32 x00)
      with (replicate 32 x00 ++ replicate k x00)
      by (rewrite <- !replicate_add; f_equal; lia).
    rewrite !app_assoc. rewrite (take_app_le (nonce ++ replicate 32 x00)); [done|].
    rewrite length_app, length_replicate. lia. }
  assert (H2 : copy_into 32 (copy_into 32 nonce ++ extra) = copy_into 32 nonce).
  { unfold copy_into at 1. rewrite <- app_assoc.
    rewrite take_app_length'; [done|]. by rewrite length_copy_into. }
  unfold DeriveSessionKey. cbv zeta. by rewrite H1, H2.
Qed.

Lemma DeriveSessionKey_salt_witness :
  DeriveSessionKey (fun secret salt info n => Some (take n (salt ++ secret)))
    (replicate 32 x01) ([x0a; x0b] ++ replicate 3 x00)
  = DeriveSessionKey (fun secret salt info n => Some (take n (salt ++ secret)))
      (replicate 32 x01) [x0a; x0b]
  /\ DeriveSessionKey (fun secret salt info n => Some (take n (salt ++ secret)))
       (replicate 32 x01) (copy_into 32 [x0a; x0b] ++ [xff])
     = DeriveSessionKey (fun secret salt info n => Some (take n (salt ++ secret)))
         (replicate 32 x01) [x0a; x0b].
Proof.
  apply (DeriveSessionKey_salt
           (fun secret salt info n => Some (take n (salt ++ secret)))
           (replicate 32 x01) [x0a; x0b] [xff] 3).
  simpl. lia.
Defined.

(** ** The destination codec, read the other way *)








(** An encoding the encoder never produces is still read back to itself: a
    domain of length zero. *)
Example parseDestination_empty_domain :
  parseDestination [x02; x00; x00; x50; x2a]
  = inr (TCPDestination (DomainAddress "") 80, [x2a]).
Proof. vm_compute. reflexivity. Qed.

(** ** The inbound handshake on short streams and on repeated handshakes *)

(** X15. A stream that starts with the four bytes of the magic and ends
    before the 76 bytes of a handshake is an error, whether or not a
    fallback is configured: a truncated handshake is never handed to the
    fallback, unlike a stream that does not start with the magic.  The
    handler is left as it was. *)
Theorem Process_truncated_handshake
    (ParseString : string -> option (list byte)) (now : Z) (h : Handler)
    (conn : Reader) :
  4 <= len conn < HandshakeHeaderSize ->
  take 4 conn = PutUint32 ReflexMagic ->
  Process ParseString now h conn
  = (Fatal (ErrNew "failed to read handshake data"), h).
Proof.
  intros Hshort Hmagic. unfold Process.
  rewrite decide_False by lia.
  rewrite slice_0_take. change (Z.to_nat 4) with 4%nat.
  rewrite take_take. change (4 `min` 4)%nat with 4%nat. rewrite Hmagic.
  rewrite decide_False by (intros Hne; apply Hne; vm_compute; reflexivity).
  unfold ReadFull. rewrite decide_False; [reflexivity|].
  unfold len, HandshakeHeaderSize in *. lia.
Qed.

Lemma Process_truncated_handshake_witness :
  Process hexUUID demoNow demoHandler truncatedHello
  = (Fatal (ErrNew "failed to read handshake data"), demoHandler).
Proof.
  apply (Process_truncated_handshake hexUUID demoNow demoHandler truncatedHello).
  - vm_compute. split; [discriminate|reflexivity].
  - vm_compute. reflexivity.
Defined.

(** By contrast, three bytes and a stream that starts otherwise go to the
    fallback of [demoHandler] whole. *)
Example Process_short_or_foreign_stream :
  Process hexUUID demoNow demoHandler [x47; x45; x54]
  = (ToFallback [x47; x45; x54], demoHandler)
  /\ Process hexUUID demoNow demoHandler [x47; x45; x54; x20; x2f]
     = (ToFallback [x47; x45; x54; x20; x2f], demoHandler).
Proof. split; vm_compute; reflexivity. Qed.



(** Without the first handshake, the other one is not a replay: its UUID is
    unknown, and it goes to the fallback of [demoHandler]. *)
Example Process_other_handshake_alone :
  (Process hexUUID (demoNow + 60) demoHandler
     (MarshalClientHandshake otherHandshake ++ [x02])).1
  = ToFallback [x02].
Proof. vm_compute. reflexivity. Qed.

(** ** Control frames and the shared profiles *)

Lemma HandleControlFrame_fields (frame : Frame) (p : TrafficProfile) :
  exists p',
    HandleControlFrame frame (Some p) = Some p'
    /\ Name p' = Name p /\ PacketSizes p' = PacketSizes p
    /\ Delays p' = Delays p
    /\ (Type_ frame <> FrameTypePadding \/ len (Payload frame) < 2 ->
        nextPacketSize p' = nextPacketSize p)
    /\ (Type_ frame <> FrameTypeTiming \/ len (Payload frame) < 8 ->
        nextDelay p' = nextDelay p).
Proof.
  unfold HandleControlFrame.
  destruct (decide (Type_ frame = FrameTypePadding)) as [Hp|Hp].
  { destruct (decide (2 <= len (Payload frame))).
    - eexists. split; [reflexivity|]. cbn. repeat split; try done.
      intros [?|?]; [done|lia].
    - exists p. repeat split; done. }
  destruct (decide (Type_ frame = FrameTypeTiming)) as [Ht|Ht].
  { destruct (decide (8 <= len (Payload frame))).
    - eexists. split; [reflexivity|]. cbn. repeat split; try done.
      intros [?|?]; [done|lia].
    - exists p. repeat split; done. }
  exists p. repeat split; done.
Qed.

(** X17. What a control frame can do to the profiles.  Handled through the
    pointer [ptr], a frame leaves every other profile object as it is, adds
    and removes none, and never changes the name or the size and delay
    distributions of any.  A frame that is not a PADDING frame of at least
    two bytes leaves the size override alone, and one that is not a TIMING
    frame of at least eight bytes leaves the delay override alone. *)
Theorem HandleControlFrame_touches_overrides_only (frame : Frame)
    (ptr k : string) (st : gmap string TrafficProfile) :
  let st' := Shared.HandleControlFrame frame (Some ptr) st in
  (k <> ptr -> st' !! k = st !! k)
  /\ Name <$> st' !! k = Name <$> st !! k
  /\ PacketSizes <$> st' !! k = PacketSizes <$> st !! k
  /\ Delays <$> st' !! k = Delays <$> st !! k
  /\ (Type_ frame <> FrameTypePadding \/ len (Payload frame) < 2 ->
      nextPacketSize <$> st' !! k = nextPacketSize <$> st !! k)
  /\ (Type_ frame <> FrameTypeTiming \/ len (Payload frame) < 8 ->
      nextDelay <$> st' !! k = nextDelay <$> st !! k).
Proof.
  cbv zeta. unfold Shared.HandleControlFrame.
  destruct (st !! ptr) as [p|] eqn:Hptr; [|by repeat split].
  destruct (HandleControlFrame_fields frame p)
    as (p' & -> & Hn & Hs & Hd & Hps & Hdl).
  destruct (decide (k = ptr)) as [->|Hne].
  - rewrite lookup_insert_eq, Hptr. cbn.
    repeat split; try congruence.
    + intros H. by rewrite Hps.
    + intros H. by rewrite Hdl.
  - rewrite lookup_insert_ne by done. by repeat split.
Qed.

(** X18. The built-in profiles are shared objects.  Two morphs made by
    [NewTrafficMorph] for the same name point to the same profile, so a
    PADDING frame of target [S > 0] handled on one of them is consumed by
    the next [GetPacketSize] on the other: that call returns [S], draws
    nothing, and clears the override for both. *)
Theorem padding_control_reaches_every_morph_of_the_profile
    (name : string) (mA mB : Shared.TrafficMorph) (ptrA ptrB : string)
    (p : TrafficProfile) (st : gmap string TrafficProfile) (frame : Frame)
    (rnd : Rand) :
  Shared.NewTrafficMorph name = Some mA ->
  Shared.NewTrafficMorph name = Some mB ->
  Shared.Profile mA = Some ptrA -> Shared.Profile mB = Some ptrB ->
  st !! name = Some p ->
  Type_ frame = FrameTypePadding -> 2 <= len (Payload frame) ->
  0 < Uint16 (Payload frame) ->
  exists st',
    Shared.GetPacketSize ptrB
      (Shared.HandleControlFrame frame (Some ptrA) st) rnd
    = Some (Uint16 (Payload frame), st', rnd)
    /\ nextPacketSize <$> st' !! ptrA = Some 0
    /\ nextPacketSize <$> st' !! ptrB = Some 0.
Proof.
  intros HA HB HpA HpB Hst Hty Hlen HS.
  assert (Hptr : forall m ptr, Shared.NewTrafficMorph name = Some m ->
                               Shared.Profile m = Some ptr -> ptr = name).
  { intros m ptr Hm Hp. unfold Shared.NewTrafficMorph in Hm.
    destruct (decide (name = ""%string)); [discriminate|].
    destruct (BuiltinProfiles !! name); [|discriminate].
    injection Hm as <-. cbn in Hp. congruence. }
  rewrite (Hptr mA ptrA HA HpA), (Hptr mB ptrB HB HpB).
  unfold Shared.HandleControlFrame, Shared.GetPacketSize.
  rewrite Hst. unfold HandleControlFrame.
  rewrite decide_True by done. rewrite decide_True by done.
  rewrite lookup_insert_eq. unfold GetPacketSize, SetNextPacketSize.
  cbn [nextPacketSize]. rewrite decide_True by done.
  eexists. split; [reflexivity|].
  rewrite lookup_insert_eq. cbn. done.
Qed.

Lemma padding_control_reaches_every_morph_of_the_profile_witness :
  exists st',
    Shared.GetPacketSize "zoom"
      (Shared.HandleControlFrame
         (mkFrame 18 FrameTypePadding (EncodePaddingControl 777))
         (Some "zoom"%string) BuiltinProfiles) zeroRand
    = Some (Uint16 (Payload (mkFrame 18 FrameTypePadding
                                (EncodePaddingControl 777))),
            st', zeroRand)
    /\ nextPacketSize <$> st' !! "zoom"%string = Some 0
    /\ nextPacketSize <$> st' !! "zoom"%string = Some 0.
Proof.
  apply (padding_control_reaches_every_morph_of_the_profile "zoom"
           (Shared.mkMorph (Some "zoom"%string) true)
           (Shared.mkMorph (Some "zoom"%string) true)
           "zoom" "zoom" zoom BuiltinProfiles
           (mkFrame 18 FrameTypePadding (EncodePaddingControl 777)) zeroRand).
  - vm_compute. reflexivity.
  - vm_compute. reflexivity.
  - reflexivity.
  - reflexivity.
  - vm_compute. reflexivity.
  - reflexivity.
  - vm_compute. discriminate.
  - vm_compute. reflexivity.
Defined.

(** ** Padding, and writing without a profile *)

(** X19. [AddPadding] never cuts: the data is a prefix of the result, also
    when it is longer than the target or the target is negative.  The
    result has the length of the longer of the two, and what follows the
    data is the next bytes of the random source, which moves on by their
    number. *)
Theorem AddPadding_keeps_data (data : list byte) (targetSize : Z) (rnd : Rand) :
  let out := (AddPadding data targetSize rnd).1 in
  let rnd' := (AddPadding data targetSize rnd).2 in
  let padLen := Z.to_nat (targetSize - len data) in
  out = data ++ map (crypto_bytes rnd) (seq (crypto_pos rnd) padLen)
  /\ len out = Z.max (len data) targetSize
  /\ crypto_pos rnd' = (crypto_pos rnd + padLen)%nat
  /\ float_pos rnd' = float_pos rnd.
Proof.
  cbv zeta. unfold AddPadding.
  destruct (decide (targetSize <= len data)) as [Hle|Hgt]; cbn [fst snd].
  - replace (Z.to_nat (targetSize - len data)) with 0%nat by lia.
    cbn [seq map]. rewrite app_nil_r, Nat.add_0_r.
    repeat split; lia.
  - unfold rand_Read. cbn [fst snd crypto_pos float_pos].
    repeat split.
    rewrite len_app. unfold len at 2.
    rewrite length_map, length_seq. lia.
Qed.

Lemma ReadFrame_frameBytes (sr : Session) (a : AEAD) (counter : Z)
    (ty : byte) (data rest : list byte) :
  chacha20poly1305_laws a -> aead sr = a -> readNonce sr = counter ->
  len data + 16 < 65536 ->
  ReadFrame sr (frameBytes a counter ty data ++ rest)
  = (inr {| Length := len data + 16; Type_ := ty; Payload := data |},
     (nextReadNonce sr).2, rest).
Proof.
  intros (Hov & Hseal & Hopen) <- <- Hlen.
  destruct (frameBytes_shape (aead sr) (readNonce sr) ty data)
    as (h0 & h1 & Hshape & Hu).
  set (ct := Seal (aead sr) (replicate 4 x00 ++ PutUint64 (readNonce sr)) data) in *.
  assert (Hct : len ct = len data + 16) by (unfold ct; rewrite Hseal; lia).
  pose proof (len_nonneg data).
  rewrite Hshape. cbn [app].
  rewrite ReadFrame_ciphertext.
  - unfold ct at 1. rewrite Hopen, Hct. reflexivity.
  - rewrite Hu, Hct. unfold uint16. apply Z.mod_small.
    change (2 ^ 16) with 65536. lia.
  - lia.
Qed.



(** ** Morphs of the built-in profiles *)

(** X21. [NewTrafficMorph] gives a morph for the five registered names and
    nil for every other name, the empty one and the display names of the
    profiles included.  A morph it gives is enabled, and writing any data
    through it to a buffer ends without an error within as many turns as
    the data has bytes: the frames carry between 1 and 16384 plaintext
    bytes each, a paired session reads them all back, and together they are
    the data followed by the padding. *)
Theorem NewTrafficMorph_MorphWrite (profileName : string) (m : TrafficMorph)
    (fuel : nat) (s sr : Session) (b : list byte) (rnd : Rand)
    (data : list byte) :
  NewTrafficMorph profileName = Some m ->
  chacha20poly1305_laws (aead s) ->
  aead sr = aead s -> readNonce sr = writeNonce s ->
  (length data < fuel)%nat ->
  profileName ∈ ["youtube"; "zoom"; "netflix"; "http2-api"; "discord"]%string
  /\ Enabled m = true
  /\ exists m' s' rnd' chunks pad,
       MorphWrite fuel m s (mkBuffer b) rnd data
       = (Returned None, m', s',
          mkBuffer (b ++ framesBytes (aead s) (writeNonce s) FrameTypeData chunks),
          rnd')
       /\ Forall (fun c => 1 <= len c <= MaxFramePayload) chunks
       /\ (ReadFrames (length chunks) sr
             (framesBytes (aead s) (writeNonce s) FrameTypeData chunks)).1.1
          = map (fun c => mkFrame (len c + 16) FrameTypeData c) chunks
       /\ concat chunks = data ++ pad.
Proof.
  intros Hnew Hlaws Haead Hctr Hfuel.
  unfold NewTrafficMorph in Hnew.
  destruct (decide (profileName = ""%string)); [discriminate|].
  destruct (BuiltinProfiles !! profileName) as [p|] eqn:Hp; [|discriminate].
  injection Hnew as <-.
  split; [|split; [reflexivity|]].
  { apply elem_of_dom_2 in Hp.
    change (dom BuiltinProfiles)
      with (dom (list_to_map (M := gmap string TrafficProfile)
                   [("youtube", youtube); ("zoom", zoom); ("netflix", netflix);
                    ("http2-api", http2_api); ("discord", discord)]%string))
      in Hp.
    rewrite dom_list_to_map_L in Hp. cbn [fmap list_fmap fst] in Hp.
    set_solver. }
  pose proof (BuiltinProfiles_positive _ _ Hp) as Hpos.
  destruct (morphLoop_complete fuel p s b rnd data Hpos Hfuel)
    as (p' & s' & rnd' & chunks & pad & Heq & Hcut & Hall).
  exists (mkMorph (Some p') true), s', rnd', chunks, pad.
  split; [|split; [exact Hall|split]].
  - unfold MorphWrite. cbn [Enabled Profile]. by rewrite Heq.
  - rewrite <- Haead, <- Hctr. apply ReadFrames_framesBytes.
    + by rewrite Haead.
    + eapply Forall_impl; [exact Hall|]. simpl. lia.
  - by apply cut_and_padded_concat.
Qed.

Lemma NewTrafficMorph_MorphWrite_witness :
  "discord"%string
    ∈ ["youtube"; "zoom"; "netflix"; "http2-api"; "discord"]%string
  /\ Enabled (mkMorph (Some discord) true) = true
  /\ exists m' s' rnd' chunks pad,
       MorphWrite 40 (mkMorph (Some discord) true) demoSession (mkBuffer [])
         zeroRand testPayload
       = (Returned None, m', s',
          mkBuffer ([] ++ framesBytes (aead demoSession) (writeNonce demoSession)
                            FrameTypeData chunks),
          rnd')
       /\ Forall (fun c => 1 <= len c <= MaxFramePayload) chunks
       /\ (ReadFrames (length chunks) demoSession
             (framesBytes (aead demoSession) (writeNonce demoSession)
                FrameTypeData chunks)).1.1
          = map (fun c => mkFrame (len c + 16) FrameTypeData c) chunks
       /\ concat chunks = testPayload ++ pad.
Proof.
  apply (NewTrafficMorph_MorphWrite "discord" (mkMorph (Some discord) true) 40
           demoSession demoSession [] zeroRand testPayload).
  - vm_compute. reflexivity.
  - exact demoAEAD_laws.
  - reflexivity.
  - reflexivity.
  - vm_compute. lia.
Defined.

(** Names that give no morph: the empty one, a display name, a name in
    another case. *)
Example NewTrafficMorph_unknown :
  NewTrafficMorph "" = None
  /\ NewTrafficMorph "YouTube DASH Streaming" = None
  /\ NewTrafficMorph "Zoom" = None.
Proof. repeat split; vm_compute; reflexivity. Qed.

(** ** From the client's frames to the destination *)

Lemma parseDestination_marshalled (dest : Destination) (t : list byte) :
  valid_Destination dest -> domain_fits (Addr dest) ->
  parseDestination (marshalDestination dest ++ t)
    = inr (TCPDestination (Addr dest) (Port dest), t).
Proof.
  intros [Haddr Hport] Hfits. unfold marshalDestination.
  rewrite <- app_assoc.
  destruct (Addr dest) as [ip|ip|domain]; simpl in Haddr, Hfits.
  - rewrite decide_True by done.
    apply parseDestination_ip; [left; done| |done].
    unfold IPAddress. by rewrite decide_True.
  - rewrite decide_False by lia.
    apply parseDestination_ip; [right; done| |done].
    unfold IPAddress. rewrite decide_False by lia. by rewrite decide_True.
  - by apply parseDestination_domain.
Qed.

Lemma len_marshalDestination (dest : Destination) :
  2 <= len (marshalDestination dest).
Proof.
  unfold marshalDestination. rewrite len_app, len_PutUint16.
  pose proof (len_nonneg
    (match Addr dest with
     | ipv4Address ip | ipv6Address ip =>
         if decide (len ip = 4) then [x01] ++ ip else [x03] ++ ip
     | domainAddress domain =>
         [x02] ++ [byte_of_Z (Z.of_nat (String.length domain))]
         ++ String.list_byte_of_string domain
     end)).
  lia.
Qed.

(** The loop on a run of sealed DATA, PADDING and TIMING frames: the DATA
    payloads go to the pipe in order, and the loop is then where the frames
    end, its session in step with the writer's. *)
Lemma requestLoop_frames (k : nat) (frames more : list (byte * list byte))
    (sr : Session) (rest : list byte) (morph : option Shared.TrafficMorph)
    (st : gmap string TrafficProfile) (bufs : list (list byte)) :
  chacha20poly1305_laws (aead sr) ->
  Forall (fun f => (f.1 = FrameTypeData \/ f.1 = FrameTypePadding
                    \/ f.1 = FrameTypeTiming)
                   /\ len f.2 + 16 < 65536) frames ->
  exists sr' st',
    aead sr' = aead sr
    /\ requestLoop (length frames + k) sr
         (sealedFrames (aead sr) (readNonce sr) (frames ++ more) ++ rest)
         morph st (mkPipe bufs)
       = requestLoop k sr'
           (sealedFrames (aead sr') (readNonce sr') more ++ rest)
           morph st'
           (mkPipe (bufs ++ map snd (filter (fun f => f.1 = FrameTypeData) frames))).
Proof.
  intros Hlaws Hall. revert sr st bufs Hlaws.
  induction Hall as [|[ty data] frames [Hty Hlen] Hall IH];
    intros sr st bufs Hlaws.
  { exists sr, st. split; [reflexivity|].
    cbn [length Nat.add app filter map]. by rewrite app_nil_r. }
  cbn [fst snd] in Hty, Hlen.
  cbn [length Nat.add app sealedFrames requestLoop].
  rewrite <- app_assoc.
  rewrite (ReadFrame_frameBytes sr (aead sr) (readNonce sr)) by done.
  cbn [Type_ Payload].
  set (sr1 := (nextReadNonce sr).2).
  assert (Ha1 : aead sr1 = aead sr) by reflexivity.
  assert (Hc1 : readNonce sr1 = uint64 (readNonce sr + 1)) by reflexivity.
  rewrite <- Ha1, <- Hc1.
  assert (Hlaws1 : chacha20poly1305_laws (aead sr1)) by (by rewrite Ha1).
  destruct (decide (ty = FrameTypeData)) as [->|Hnd].
  - unfold WriteMultiBuffer at 1, Pipe_BufWriter at 1. cbn [Buffers].
    destruct (IH sr1 st (bufs ++ [data]) Hlaws1) as (sr' & st' & Ha & Heq).
    exists sr', st'. split; [by rewrite Ha|].
    rewrite Heq. rewrite filter_cons_True by reflexivity.
    cbn [map snd]. by rewrite <- app_assoc.
  - rewrite decide_True by (destruct Hty as [?|?]; [done|done]).
    match goal with
    | |- context [requestLoop _ sr1 _ morph ?st1 _] =>
        destruct (IH sr1 st1 bufs Hlaws1) as (sr' & st' & Ha & Heq)
    end.
    exists sr', st'. split; [by rewrite Ha|].
    rewrite Heq. by rewrite filter_cons_False by done.
Qed.

(** X22. The request direction, end to end.  The client's stream is its
    first DATA frame, the destination followed by the first payload, then
    DATA, PADDING and TIMING frames of at most 65519 bytes each, all sealed
    in order under the session key; it ends there, or goes on with a CLOSE
    frame and further bytes.  On it [handleSession] dispatches to the
    address and port the client named, as a TCP destination, and the
    request direction hands the destination the first payload, if it is not
    empty, and then the payloads of the DATA frames, in order and nothing
    else.  It returns the reader's error where the stream ends, and
    without an error at the CLOSE frame, after which it reads nothing. *)
Theorem request_direction_delivers
    (chacha20poly1305_New : list byte -> AEAD)
    (Dispatch : Destination -> error + Pipe)
    (sessionKey : list byte) (client : ClientEntry) (dest : Destination)
    (first : list byte) (frames : list (byte * list byte))
    (ending : option (list byte))
    (st : gmap string TrafficProfile) (fuel : nat) :
  len sessionKey = KeySize ->
  chacha20poly1305_laws (chacha20poly1305_New sessionKey) ->
  valid_Destination dest -> domain_fits (Addr dest) ->
  len (firstFrame dest first) + 16 < 65536 ->
  Forall (fun f => (f.1 = FrameTypeData \/ f.1 = FrameTypePadding
                    \/ f.1 = FrameTypeTiming)
                   /\ len f.2 + 16 < 65536) frames ->
  Dispatch (TCPDestination (Addr dest) (Port dest)) = inr (mkPipe []) ->
  (length frames < fuel)%nat ->
  exists sess reader morph,
    handleSession chacha20poly1305_New Dispatch
      (sealedFrames (chacha20poly1305_New sessionKey) 0
         ((FrameTypeData, firstFrame dest first)
          :: frames
          ++ match ending with
             | Some _ => [(FrameTypeClose, [])]
             | None => []
             end)
       ++ default [] ending)
      sessionKey client
    = inr (TCPDestination (Addr dest) (Port dest), first, sess, reader, morph,
           mkPipe [])
    /\ exists sess' st',
         requestDone fuel sess reader morph st (mkPipe []) first
         = (Returned (match ending with
                      | Some _ => None
                      | None => Some ErrIO
                      end),
            sess', default [] ending, st',
            mkPipe ((if decide (0 < len first) then [first] else [])
                    ++ map snd (filter (fun f => f.1 = FrameTypeData) frames))).
Proof.
  intros Hkey Hlaws Hvalid Hfits Hfirst Hall Hdispatch Hfuel.
  set (a := chacha20poly1305_New sessionKey) in *.
  set (more := match ending with
               | Some _ => [(FrameTypeClose, [])]
               | None => []
               end).
  set (sess0 := {| key := sessionKey; aead := a; readNonce := 0;
                   writeNonce := 0 |}).
  set (sess1 := (nextReadNonce sess0).2).
  exists sess1,
    (sealedFrames a (uint64 (0 + 1)) (frames ++ more) ++ default [] ending),
    (Shared.NewTrafficMorph (Policy client)).
  split.
  { unfold handleSession, NewSession. rewrite decide_False by (intros H; by apply H).
    fold a. fold sess0. cbn [sealedFrames]. rewrite <- app_assoc.
    rewrite (ReadFrame_frameBytes sess0 a 0) by done.
    cbn [Type_ Payload].
    pose proof (len_marshalDestination dest). pose proof (len_nonneg first).
    rewrite decide_False
      by (unfold firstFrame; rewrite len_app; intros [Hn|Hz]; [by apply Hn|lia]).
    unfold firstFrame. rewrite parseDestination_marshalled by done.
    by rewrite Hdispatch. }
  assert (Hlaws1 : chacha20poly1305_laws (aead sess1)) by exact Hlaws.
  assert (Hloop : forall bufs,
    exists sess' st',
      requestLoop fuel sess1
        (sealedFrames a (uint64 (0 + 1)) (frames ++ more) ++ default [] ending)
        (Shared.NewTrafficMorph (Policy client)) st (mkPipe bufs)
      = (Returned (match ending with
                   | Some _ => None
                   | None => Some ErrIO
                   end),
         sess', default [] ending, st',
         mkPipe (bufs ++ map snd (filter (fun f => f.1 = FrameTypeData) frames)))).
  { intros bufs.
    destruct (requestLoop_frames (fuel - length frames) frames more sess1
                (default [] ending)
                (Shared.NewTrafficMorph (Policy client)) st bufs Hlaws1 Hall)
      as (sr' & st' & Ha & Heq).
    replace (length frames + (fuel - length frames))%nat with fuel in Heq by lia.
    change (aead sess1) with a in Heq.
    change (readNonce sess1) with (uint64 (0 + 1)) in Heq.
    rewrite Heq.
    destruct (fuel - length frames)%nat as [|k] eqn:Hk; [lia|].
    unfold more. destruct ending as [rest|]; cbn [default].
    - cbn [sealedFrames requestLoop]. rewrite <- app_assoc. cbn [app].
      rewrite (ReadFrame_frameBytes sr' (aead sr') (readNonce sr'))
        by first [reflexivity | by rewrite Ha | vm_compute; reflexivity].
      cbn [Type_]. rewrite decide_False by discriminate.
      rewrite decide_False by (intros [?|?]; discriminate).
      rewrite decide_True by reflexivity. eauto.
    - cbn [sealedFrames requestLoop app]. eauto. }
  unfold requestDone.
  destruct (decide (0 < len first)).
  - unfold WriteMultiBuffer at 1, Pipe_BufWriter at 1. cbn [Buffers app].
    apply (Hloop [first]).
  - apply (Hloop []).
Qed.

Lemma request_direction_delivers_witness :
  exists sess reader morph,
    handleSession (fun _ => demoAEAD) (fun _ => inr (mkPipe []))
      (sealedFrames demoAEAD 0
         ((FrameTypeData, firstFrame exampleDestination [x68; x69])
          :: [(FrameTypeData, [x01]);
              (FrameTypePadding, EncodePaddingControl 500);
              (FrameTypeData, [x02])]
          ++ match Some [x2a] with
             | Some _ => [(FrameTypeClose, [])]
             | None => []
             end)
       ++ default [] (Some [x2a]))
      (replicate 32 x00) (mkClientEntry "b831381d-6324-4d53-ad4f-8cda48b30811" "youtube")
    = inr (TCPDestination (Addr exampleDestination) (Port exampleDestination),
           [x68; x69], sess, reader, morph, mkPipe [])
    /\ exists sess' st',
         requestDone 4 sess reader morph BuiltinProfiles (mkPipe []) [x68; x69]
         = (Returned (match Some [x2a] with
                      | Some _ => None
                      | None => Some ErrIO
                      end),
            sess', default [] (Some [x2a]), st',
            mkPipe ((if decide (0 < len [x68; x69]) then [[x68; x69]] else [])
                    ++ map snd
                         (filter (fun f => f.1 = FrameTypeData)
                            [(FrameTypeData, [x01]);
                             (FrameTypePadding, EncodePaddingControl 500);
                             (FrameTypeData, [x02])]))).
Proof.
  apply (request_direction_delivers (fun _ => demoAEAD)
           (fun _ => inr (mkPipe [])) (replicate 32 x00)
           (mkClientEntry "b831381d-6324-4d53-ad4f-8cda48b30811" "youtube")
           exampleDestination [x68; x69]
           [(FrameTypeData, [x01]);
            (FrameTypePadding, EncodePaddingControl 500);
            (FrameTypeData, [x02])]
           (Some [x2a]) BuiltinProfiles 4).
  - reflexivity.
  - exact demoAEAD_laws.
  - split; [exact I|]. vm_compute. split; [discriminate|reflexivity].
  - vm_compute. discriminate.
  - vm_compute. reflexivity.
  - repeat apply Forall_cons_2; try apply Forall_nil_2;
      (split; [cbn; auto|vm_compute; reflexivity]).
  - reflexivity.
  - simpl. lia.
Defined.

(** The run of the witness, computed: the three DATA payloads reach the
    destination, the byte after the CLOSE frame is left unread, and the
    PADDING frame has set the size override of the shared profile of the
    client's policy. *)
Example request_direction_run :
  match handleSession (fun _ => demoAEAD) (fun _ => inr (mkPipe []))
          exampleStream (replicate 32 x00)
          (mkClientEntry "b831381d-6324-4d53-ad4f-8cda48b30811" "youtube") with
  | inl _ => False
  | inr (dest, payload, sess, reader, morph, link) =>
      let '(st, _, reader, profiles, link) :=
        requestDone 5 sess reader morph BuiltinProfiles link payload in
      dest = exampleDestination
      /\ st = Returned None
      /\ Buffers link = [[x68; x69]; [x01]; [x02]]
      /\ reader = [x2a]
      /\ nextPacketSize <$> profiles !! "youtube"%string = Some 500
  end.
Proof. vm_compute. repeat split; reflexivity. Qed.

(** A frame of a type outside 1 to 4 ends the request direction with an
    error; the DATA frame before it has been delivered. *)
Example request_direction_unknown_type :
  let '(st, _, _, _, link) :=
    requestLoop 5 demoSession
      (sealedFrames demoAEAD 0 [(FrameTypeData, [x01]); (x09, [x02]);
                                (FrameTypeData, [x03])])
      None BuiltinProfiles (mkPipe []) in
  st = Returned (Some (ErrNew "unknown frame type"))
  /\ Buffers link = [[x01]].
Proof. vm_compute. split; reflexivity. Qed.

(** ** The handshake, from both sides *)

Lemma GenerateKeyPair_inr
    (X25519 : list byte -> list byte -> option (list byte))
    (Basepoint : list byte) (rnd rnd' : Rand) (priv pub : list byte) :
  (forall k P r, X25519 k P = Some r -> length r = 32%nat) ->
  GenerateKeyPair X25519 Basepoint rnd = (inr (priv, pub), rnd') ->
  X25519 priv Basepoint = Some pub /\ length pub = 32%nat.
Proof.
  intros Hlen. unfold GenerateKeyPair.
  destruct (rand_Read rnd 32) as [raw rnd1].
  destruct (X25519 (clamp raw) Basepoint) as [r|] eqn:HX; [|discriminate].
  intros [= <- <- <-]. pose proof (Hlen _ _ _ HX) as Hr.
  rewrite copy_into_id by done. done.
Qed.

Lemma DeriveSharedSecret_inr
    (X25519 : list byte -> list byte -> option (list byte))
    (priv peer secret : list byte) :
  (forall k P r, X25519 k P = Some r -> length r = 32%nat) ->
  DeriveSharedSecret X25519 priv peer = inr secret ->
  X25519 priv peer = Some secret.
Proof.
  intros Hlen. unfold DeriveSharedSecret.
  destruct (X25519 priv peer) as [r|] eqn:HX; [|discriminate].
  intros [= <-]. by rewrite copy_into_id by eauto.
Qed.

(** X23. The two sides of the handshake agree.  The client of outbound.go
    makes a key pair and a nonce and writes its handshake; a server whose
    clock is within the drift, whose tracker has not seen the nonce and
    whose client list has the UUID accepts it as that client's and answers
    with its own public key.  If the server gets as far as a session key,
    the client, reading that answer, gets the same key and the same fresh
    session that [handleSession] builds from it, and consumes exactly the
    64 bytes of the answer. *)
Theorem handshake_agrees
    (X25519 : list byte -> list byte -> option (list byte))
    (Basepoint : list byte)
    (hkdf : list byte -> list byte -> list byte -> nat -> option (list byte))
    (chacha20poly1305_New : list byte -> AEAD)
    (ParseString : string -> option (list byte))
    (clientID : string) (userUUID : list byte) (nowC nowS : Z)
    (rndC rndC1 rndS rndS' : Rand) (h : Handler) (entry : ClientEntry)
    (clientPriv clientPub sessionKey reply rest more : list byte) :
  X25519_laws X25519 Basepoint ->
  (forall secret salt info n r,
     hkdf secret salt info n = Some r -> length r = n) ->
  ParseString clientID = Some userUUID -> length userUUID = 16%nat ->
  MinInt64 <= nowC <= MaxInt64 ->
  ValidateTimestamp nowS nowC = true ->
  AuthenticateUser ParseString userUUID (clientEntries h) = Some entry ->
  GenerateKeyPair X25519 Basepoint rndC = (inr (clientPriv, clientPub), rndC1) ->
  let nonce := (rand_Read rndC1 16).1 in
  let clientHS := {| PublicKey := clientPub; UserID := userUUID;
                     Timestamp := nowC; Nonce := nonce |} in
  Uint64 (slice nonce 0 8) ∉ NT.seen (nonceTracker h) ->
  Process_session X25519 Basepoint hkdf clientHS rndS (mkBuffer [])
  = (inr sessionKey, rndS', mkBuffer reply) ->
  exists h' sess,
    Process ParseString nowS h (MarshalClientHandshake clientHS ++ rest)
    = (Authenticated clientHS entry rest, h')
    /\ Outbound.Process X25519 Basepoint hkdf chacha20poly1305_New ParseString
         clientID nowC rndC (mkBuffer []) (reply ++ more)
       = (inr sess, (rand_Read rndC1 16).2,
          mkBuffer (MarshalClientHandshake clientHS), more)
    /\ NewSession chacha20poly1305_New sessionKey = inr sess.
Proof.
  intros [HXlen HXcomm] Hhkdf Hparse Huuid HnowC Hts Hauth Hgen nonce clientHS
    Hfresh Hserver.
  destruct (GenerateKeyPair_inr _ _ _ _ _ _ HXlen Hgen) as [HXc Hcpub].
  assert (Hnonce : length nonce = 16%nat)
    by (unfold nonce, rand_Read; cbn [fst]; apply length_map_seq).
  destruct (MarshalClientHandshake_facts clientHS [] Hcpub Huuid Hnonce HnowC)
    as (Hlen & _ & Hunm).
  rewrite app_nil_r in Hunm.
  (* the server *)
  unfold Process_session in Hserver.
  destruct (GenerateKeyPair X25519 Basepoint rndS)
    as [[e|[serverPriv serverPub]] rndS1] eqn:HgenS; [discriminate|].
  destruct (GenerateKeyPair_inr _ _ _ _ _ _ HXlen HgenS) as [HXs Hspub].
  destruct (DeriveSharedSecret X25519 serverPriv (PublicKey clientHS))
    as [e|secret] eqn:HsecS; [discriminate|].
  destruct (DeriveSessionKey hkdf secret (Nonce clientHS))
    as [e|key'] eqn:HkeyS; [discriminate|].
  set (serverHS := {| ServerHandshake.PublicKey := serverPub;
                      ServerHandshake.PolicyGrant := replicate 32 x00 |}) in *.
  unfold Write, Buffer_Writer in Hserver. cbn [Bytes app] in Hserver.
  injection Hserver as <- <- <-.
  destruct (MarshalServerHandshake_facts serverHS [] [] Hspub eq_refl)
    as (HlenS & HunmS & _).
  rewrite app_nil_r in HunmS.
  assert (Hkeylen : len key' = KeySize).
  { unfold DeriveSessionKey in HkeyS. cbv zeta in HkeyS.
    destruct (hkdf _ _ _ _) as [r|] eqn:Hr; [|discriminate].
    injection HkeyS as <-. apply Hhkdf in Hr. unfold len. by rewrite Hr. }
  exists {| clientEntries := clientEntries h; fallback := fallback h;
            nonceTracker :=
              (NT.Check (nonceTracker h) (Uint64 (slice nonce 0 8))).2 |},
         {| key := key'; aead := chacha20poly1305_New key';
            readNonce := 0; writeNonce := 0 |}.
  split; [|split].
  - rewrite (Process_handshake _ _ _ _ _ clientHS) by done.
    cbn [Timestamp Nonce UserID clientHS]. rewrite Hts. cbn [negb]. cbv zeta.
    rewrite Check_fresh by done. cbn [fst snd negb].
    by rewrite Hauth.
  - unfold Outbound.Process. rewrite Hgen, Hparse.
    rewrite (surjective_pairing (rand_Read rndC1 16)).
    cbv beta iota zeta. cbn [fst snd].
    change ((rand_Read rndC1 16).1) with nonce. fold clientHS.
    unfold Write, Buffer_Writer. cbn [Bytes app fst snd].
    rewrite ReadFull_app by (unfold len in HlenS; lia).
    rewrite HunmS. cbn [ServerHandshake.PublicKey serverHS].
    apply DeriveSharedSecret_inr in HsecS; [|done].
    cbn [PublicKey clientHS] in HsecS.
    unfold DeriveSharedSecret.
    rewrite (HXcomm clientPriv serverPriv clientPub serverPub HXc HXs), HsecS.
    rewrite copy_into_id by eauto.
    cbn [Nonce clientHS] in HkeyS. rewrite HkeyS.
    unfold NewSession. rewrite decide_False by (intros Hne; by apply Hne).
    reflexivity.
  - unfold NewSession. rewrite decide_False by (intros Hne; by apply Hne).
    reflexivity.
Qed.

Lemma demoX25519_laws : X25519_laws demoX25519 demoBasepoint.
Proof.
  assert (Hlen : forall k P r, demoX25519 k P = Some r -> length r = 32%nat).
  { intros k P r [= <-].
    rewrite length_zip_with, !length_copy_into. reflexivity. }
  split; [exact Hlen|].
  intros a b A B HA HB.
  pose proof (Hlen _ _ _ HA) as HlA. pose proof (Hlen _ _ _ HB) as HlB.
  injection HA as <-. injection HB as <-.
  unfold demoX25519. rewrite !(copy_into_id 32 (zip_with _ _ _)) by done.
  f_equal.
  generalize (copy_into 32 a) (copy_into 32 b) (copy_into 32 demoBasepoint).
  intros x. induction x as [|x0 x IH]; intros [|y0 y] [|z0 z]; try reflexivity.
  cbn [zip_with]. f_equal; [|apply IH].
  apply u8_inj. rewrite !u8_byte_of_Z.
  rewrite !Z.add_mod_idemp_r by lia. f_equal. lia.
Qed.

Lemma demoHkdf_length (secret salt info : list byte) (n : nat) (r : list byte) :
  demoHkdf secret salt info n = Some r -> length r = n.
Proof.
  intros [= <-]. rewrite length_take, !length_app, length_replicate. lia.
Qed.

Lemma handshake_agrees_witness :
  exists h' sess,
    Process hexUUID (demoNow + 5) demoHandler
      (MarshalClientHandshake demoClientHS ++ [x01])
    = (Authenticated demoClientHS
         (mkClientEntry "b831381d-6324-4d53-ad4f-8cda48b30811" "youtube")
         [x01], h')
    /\ Outbound.Process demoX25519 demoBasepoint demoHkdf (fun _ => demoAEAD)
         hexUUID "b831381d-6324-4d53-ad4f-8cda48b30811" demoNow clientRand
         (mkBuffer []) (demoReply ++ [x02])
       = (inr sess, (rand_Read demoClientRand1 16).2,
          mkBuffer (MarshalClientHandshake demoClientHS), [x02])
    /\ NewSession (fun _ => demoAEAD) demoSessionKey = inr sess.
Proof.
  apply (handshake_agrees demoX25519 demoBasepoint demoHkdf (fun _ => demoAEAD)
           hexUUID "b831381d-6324-4d53-ad4f-8cda48b30811"
           (default [] (hexUUID "b831381d-6324-4d53-ad4f-8cda48b30811"))
           demoNow (demoNow + 5) clientRand demoClientRand1 serverRand
           demoServerRun.1.2 demoHandler
           (mkClientEntry "b831381d-6324-4d53-ad4f-8cda48b30811" "youtube")
           demoClientPriv demoClientPub demoSessionKey demoReply [x01] [x02]).
  - exact demoX25519_laws.
  - exact demoHkdf_length.
  - vm_compute. reflexivity.
  - vm_compute. reflexivity.
  - vm_compute. split; discriminate.
  - vm_compute. reflexivity.
  - vm_compute. reflexivity.
  - vm_compute. reflexivity.
  - apply not_elem_of_empty.
  - vm_compute. reflexivity.
Defined.

(** In that run the reply has 64 bytes, and the key both sides hold is what
    the stand-ins make of the client's private key and the public key in
    the reply. *)
Example handshake_agrees_key :
  len demoReply = 64
  /\ demoX25519 demoClientPriv (take 32 demoReply) = Some demoSessionKey.
Proof. split; vm_compute; reflexivity. Qed.

(** ** Morphed data at the receiving end *)

Lemma framesBytes_sealedFrames (a : AEAD) (counter : Z) (ty : byte)
    (chunks : list (list byte)) :
  framesBytes a counter ty chunks
  = sealedFrames a counter (map (fun c => (ty, c)) chunks).
Proof.
  revert counter. induction chunks as [|c chunks IH]; intros counter;
    [reflexivity|].
  cbn [framesBytes sealedFrames map]. by rewrite IH.
Qed.

Lemma data_frames_payloads (chunks : list (list byte)) :
  map snd (filter (fun f : byte * list byte => f.1 = FrameTypeData)
             (map (fun c => (FrameTypeData, c)) chunks))
  = chunks.
Proof.
  induction chunks as [|c chunks IH]; [reflexivity|].
  cbn [map]. rewrite filter_cons_True by reflexivity.
  cbn [map snd]. by rewrite IH.
Qed.

(** X24. Padding is delivered as data.  What an enabled morph with positive
    sizes writes for [data], the receiving loop of the other side reads to
    the end of the stream and hands on frame by frame: the destination gets
    the data followed by the padding bytes that [AddPadding] put into the
    last frame, since nothing in a DATA frame tells the two apart. *)
Theorem morphed_data_arrives_padded (fuel : nat) (p : TrafficProfile)
    (s sr : Session) (rnd : Rand) (data : list byte)
    (morph : option Shared.TrafficMorph) (st : gmap string TrafficProfile) :
  Forall (fun d => 1 <= PacketSizeDist.Size d) (PacketSizes p) ->
  chacha20poly1305_laws (aead s) ->
  aead sr = aead s -> readNonce sr = writeNonce s ->
  (length data < fuel)%nat ->
  exists m' s' rnd' wire chunks pad,
    MorphWrite fuel (mkMorph (Some p) true) s (mkBuffer []) rnd data
    = (Returned None, m', s', mkBuffer wire, rnd')
    /\ cut_and_padded data chunks pad
    /\ concat chunks = data ++ pad
    /\ forall fuel', (length chunks < fuel')%nat ->
         exists sr' st',
           requestLoop fuel' sr wire morph st (mkPipe [])
           = (Returned (Some ErrIO), sr', [], st', mkPipe chunks).
Proof.
  intros Hpos Hlaws Haead Hctr Hfuel.
  destruct (morphLoop_complete fuel p s [] rnd data Hpos Hfuel)
    as (p' & s' & rnd' & chunks & pad & Heq & Hcut & Hall).
  exists (mkMorph (Some p') true), s', rnd',
    (framesBytes (aead s) (writeNonce s) FrameTypeData chunks), chunks, pad.
  split; [|split; [exact Hcut|split; [by apply cut_and_padded_concat|]]].
  { unfold MorphWrite. cbn [Enabled Profile]. by rewrite Heq. }
  intros fuel' Hfuel'.
  assert (Hlaws' : chacha20poly1305_laws (aead sr)) by (by rewrite Haead).
  assert (Hframes :
    Forall (fun f : byte * list byte =>
              (f.1 = FrameTypeData \/ f.1 = FrameTypePadding
               \/ f.1 = FrameTypeTiming) /\ len f.2 + 16 < 65536)
      (map (fun c => (FrameTypeData, c)) chunks)).
  { apply Forall_fmap. eapply Forall_impl; [exact Hall|].
    intros c Hc. cbn. split; [by left|]. unfold MaxFramePayload in Hc. lia. }
  destruct (requestLoop_frames (fuel' - length chunks)
              (map (fun c => (FrameTypeData, c)) chunks) [] sr [] morph st []
              Hlaws' Hframes) as (sr' & st' & Ha & Hloop).
  rewrite length_map, !app_nil_r in Hloop. cbn [app] in Hloop.
  replace (length chunks + (fuel' - length chunks))%nat with fuel' in Hloop by lia.
  rewrite framesBytes_sealedFrames, <- Haead, <- Hctr, Hloop.
  rewrite data_frames_payloads.
  destruct (fuel' - length chunks)%nat as [|k] eqn:Hk; [lia|].
  cbn [sealedFrames app requestLoop]. eauto.
Qed.

Lemma morphed_data_arrives_padded_witness :
  exists m' s' rnd' wire chunks pad,
    MorphWrite 40 (mkMorph (Some testProfile) true) demoSession (mkBuffer [])
      zeroRand testPayload
    = (Returned None, m', s', mkBuffer wire, rnd')
    /\ cut_and_padded testPayload chunks pad
    /\ concat chunks = testPayload ++ pad
    /\ forall fuel', (length chunks < fuel')%nat ->
         exists sr' st',
           requestLoop fuel' demoSession wire None BuiltinProfiles (mkPipe [])
           = (Returned (Some ErrIO), sr', [], st', mkPipe chunks).
Proof.
  apply (morphed_data_arrives_padded 40 testProfile demoSession demoSession
           zeroRand testPayload None BuiltinProfiles).
  - repeat constructor. simpl. lia.
  - exact demoAEAD_laws.
  - reflexivity.
  - reflexivity.
  - vm_compute. lia.
Defined.

(** The 32 bytes of the package's morph test, written through
    [testProfile]: the destination is handed 456 bytes, the data and 424
    bytes of padding. *)
Example morphed_data_run :
  let '(_, _, _, wire, _) :=
    MorphWrite 40 (mkMorph (Some testProfile) true) demoSession (mkBuffer [])
      zeroRand testPayload in
  let '(_, _, _, _, link) :=
    requestLoop 5 demoSession (Bytes wire) None BuiltinProfiles (mkPipe []) in
  Buffers link = [testPayload ++ replicate 424 x00].
Proof. vm_compute. reflexivity. Qed.
